(** * ollamabot: a shallow embedding of the dispatch core

    The Go sources embedded here are [pkg/bot/bot.go] (the dispatch loop
    [Run], its command handlers, [callOllama], [splitTelegramMessage]),
    the [auth] package ([UserStore] and its SQL statements) and the
    environment reading of [cmd/ollamabot/main.go].

    Go strings are byte strings: they are modelled by [string] (a list of
    8-bit [ascii]).  Go's [int], [int64] and [rune] values are modelled by
    [Z].  The whitelist table is a [gmap] from telegram ids to rows. *)

From Stdlib Require Import ZArith Lia String Ascii List DecimalString
  DecimalZ DecimalPos Sorted.
From stdpp Require Import gmap strings list.

Open Scope string_scope.
Open Scope list_scope.
Open Scope Z_scope.

(** ** Outcomes of Go code that may panic or loop *)

Inductive outcome (A : Type) : Type :=
| Returns (a : A)
| Panics
| OutOfFuel.
Arguments Returns {A} a.
Arguments Panics {A}.
Arguments OutOfFuel {A}.

(** ** Bytes of a Go string *)

Definition byte_val (c : ascii) : Z := Z.of_N (N_of_ascii c).

(** Go's conversion [byte(x)] keeps the low eight bits. *)
Definition byte_of (z : Z) : ascii := ascii_of_N (Z.to_N (z mod 256)).

Definition bytes_of_string (s : string) : list Z :=
  map byte_val (list_ascii_of_string s).

Definition string_of_bytes (l : list Z) : string :=
  string_of_list_ascii (map byte_of l).

(** [len(s)] *)
Definition len (s : string) : Z := Z.of_nat (String.length s).

(** ** UTF-8, as the Go runtime decodes and encodes it

    [[]rune(s)] runs the runtime's [stringtoslicerune], a [range] loop over
    the string built on [decoderune]; [string(runes)] runs
    [slicerunetostring], built on [encoderune]. *)

Module utf8.

Definition runeError : Z := 0xFFFD.
Definition runeSelf : Z := 0x80.
Definition maxRune : Z := 0x10FFFF.
Definition surrogateMin : Z := 0xD800.
Definition surrogateMax : Z := 0xDFFF.

Definition tx : Z := 0x80.
Definition t2 : Z := 0xC0.
Definition t3 : Z := 0xE0.
Definition t4 : Z := 0xF0.
Definition t5 : Z := 0xF8.

Definition maskx : Z := 0x3F.
Definition mask2 : Z := 0x1F.
Definition mask3 : Z := 0x0F.
Definition mask4 : Z := 0x07.

Definition rune1Max : Z := 0x7F.
Definition rune2Max : Z := 0x7FF.
Definition rune3Max : Z := 0xFFFF.

Definition locb : Z := 0x80.
Definition hicb : Z := 0xBF.

Definition cont (b : Z) : bool := (locb <=? b) && (b <=? hicb).

(** [decoderune(s, k)] on the bytes from position [k] on: the rune and the
    number of bytes it takes.  Every failure is [(runeError, 1)]. *)
Definition decoderune (s : list Z) : Z * nat :=
  match s with
  | [] => (runeError, 0%nat)
  | s0 :: s1 :: rest =>
    if (t2 <=? s0) && (s0 <? t3) then
      if cont s1 then
        let r := Z.lor (Z.shiftl (Z.land s0 mask2) 6) (Z.land s1 maskx) in
        if rune1Max <? r then (r, 2%nat) else (runeError, 1%nat)
      else (runeError, 1%nat)
    else if (t3 <=? s0) && (s0 <? t4) then
      match rest with
      | s2 :: _ =>
        if cont s1 && cont s2 then
          let r := Z.lor (Z.lor (Z.shiftl (Z.land s0 mask3) 12)
                                (Z.shiftl (Z.land s1 maskx) 6))
                         (Z.land s2 maskx) in
          if (rune2Max <? r)
             && negb ((surrogateMin <=? r) && (r <=? surrogateMax))
          then (r, 3%nat) else (runeError, 1%nat)
        else (runeError, 1%nat)
      | [] => (runeError, 1%nat)
      end
    else if (t4 <=? s0) && (s0 <? t5) then
      match rest with
      | s2 :: s3 :: _ =>
        if cont s1 && cont s2 && cont s3 then
          let r := Z.lor (Z.lor (Z.lor (Z.shiftl (Z.land s0 mask4) 18)
                                       (Z.shiftl (Z.land s1 maskx) 12))
                                (Z.shiftl (Z.land s2 maskx) 6))
                         (Z.land s3 maskx) in
          if (rune3Max <? r) && (r <=? maxRune)
          then (r, 4%nat) else (runeError, 1%nat)
        else (runeError, 1%nat)
      | _ => (runeError, 1%nat)
      end
    else (runeError, 1%nat)
  | [_] => (runeError, 1%nat)
  end.

(** One iteration of [for _, r := range s]: a byte below [runeSelf] is its
    own rune, anything else goes through [decoderune]. *)
Definition range_step (s : list Z) : Z * nat :=
  match s with
  | [] => (runeError, 0%nat)
  | s0 :: _ => if s0 <? runeSelf then (s0, 1%nat) else decoderune s
  end.

(** The [range] loop, by recursion on the bytes: [skip] counts the bytes
    of the current rune that are still to be passed over. *)
Fixpoint range_runes (skip : nat) (s : list Z) : list Z :=
  match s with
  | [] => []
  | _ :: t =>
    match skip with
    | S k => range_runes k t
    | O => let '(r, w) := range_step s in r :: range_runes (Nat.pred w) t
    end
  end.

(** [encoderune(p, r)]: the bytes written for [r].  The [switch] is on
    [uint32(r)]. *)
Definition encoderune (r : Z) : list Z :=
  let i := r mod 2 ^ 32 in
  let three (r : Z) :=
    [ Z.lor t3 ((Z.shiftr r 12) mod 256);
      Z.lor tx (Z.land ((Z.shiftr r 6) mod 256) maskx);
      Z.lor tx (Z.land (r mod 256) maskx) ] in
  if i <=? rune1Max then [ r mod 256 ]
  else if i <=? rune2Max then
    [ Z.lor t2 ((Z.shiftr r 6) mod 256);
      Z.lor tx (Z.land (r mod 256) maskx) ]
  else if (maxRune <? i) || ((surrogateMin <=? i) && (i <=? surrogateMax))
  then three runeError
  else if i <=? rune3Max then three r
  else
    [ Z.lor t4 ((Z.shiftr r 18) mod 256);
      Z.lor tx (Z.land ((Z.shiftr r 12) mod 256) maskx);
      Z.lor tx (Z.land ((Z.shiftr r 6) mod 256) maskx);
      Z.lor tx (Z.land (r mod 256) maskx) ].

(** A Unicode scalar value: a code point that is not a surrogate. *)
Definition scalar (r : Z) : Prop :=
  0 <= r <= maxRune /\ ~ (surrogateMin <= r <= surrogateMax).

End utf8.

(** [[]rune(s)] *)
Definition runes_of_string (s : string) : list Z :=
  utf8.range_runes 0 (bytes_of_string s).

(** [string(runes)] *)
Definition string_of_runes (runes : list Z) : string :=
  string_of_bytes (concat (map utf8.encoderune runes)).

(** ** The response chunker *)

(** The [for len(runes) > max] loop of [splitTelegramMessage].  A slice
    expression [runes[:max]] with a negative bound panics; with [max = 0]
    the loop never makes progress, which shows as running out of fuel. *)
Fixpoint split_loop (fuel : nat) (runes : list Z) (max : Z)
    (res : list string) : outcome (list string) :=
  match fuel with
  | O => OutOfFuel
  | S fuel' =>
    if Z.of_nat (length runes) >? max then
      if max <? 0 then Panics
      else split_loop fuel' (drop (Z.to_nat max) runes) max
             (res ++ [string_of_runes (take (Z.to_nat max) runes)])
    else
      Returns (if Z.of_nat (length runes) >? 0
               then res ++ [string_of_runes runes] else res)
  end.

Definition splitTelegramMessage (s : string) (max : Z)
    : outcome (list string) :=
  if len s <=? max then Returns [s]
  else
    let runes := runes_of_string s in
    split_loop (S (length runes)) runes max [].

(** The number of code points of a string. *)
Definition RuneCountInString (s : string) : Z :=
  Z.of_nat (length (runes_of_string s)).

(** The concatenation of a sequence of strings, in order. *)
Definition join (pieces : list string) : string :=
  fold_right String.append "" pieces.

(** ** The parts of Go's [unicode], [strings] and [strconv] the bot uses *)

(** [unicode.IsSpace]: the Latin-1 switch, then the [White_Space] table. *)
Definition IsSpace (r : Z) : bool :=
  if (0 <=? r) && (r <=? 0xFF) then
    (r =? 0x09) || (r =? 0x0A) || (r =? 0x0B) || (r =? 0x0C) || (r =? 0x0D)
    || (r =? 0x20) || (r =? 0x85) || (r =? 0xA0)
  else
    (r =? 0x1680) || ((0x2000 <=? r) && (r <=? 0x200A))
    || (r =? 0x2028) || (r =? 0x2029) || (r =? 0x202F) || (r =? 0x205F)
    || (r =? 0x3000).

(** The runes of a string with the number of bytes each one takes, as a
    [range] loop meets them. *)
Fixpoint range_tokens (skip : nat) (s : list Z) : list (Z * nat) :=
  match s with
  | [] => []
  | _ :: t =>
    match skip with
    | S k => range_tokens k t
    | O => let '(r, w) := utf8.range_step s in
           (r, w) :: range_tokens (Nat.pred w) t
    end
  end.

Definition space_token (t : Z * nat) : bool := IsSpace (fst t).

Fixpoint leading_width (toks : list (Z * nat)) : nat :=
  match toks with
  | t :: rest => if space_token t then (snd t + leading_width rest)%nat
                 else O
  | [] => O
  end.

Fixpoint drop_leading (toks : list (Z * nat)) : list (Z * nat) :=
  match toks with
  | t :: rest => if space_token t then drop_leading rest else toks
  | [] => []
  end.

(** [strings.TrimSpace]: the string without its leading and trailing white
    space runes.  (Go trims the tail by decoding backwards; a white space
    rune found that way is always a rune of the forward [range] loop, since
    a rune never starts inside another one.) *)
Definition TrimSpace (s : string) : string :=
  let b := bytes_of_string s in
  let toks := range_tokens 0 b in
  let start := leading_width toks in
  let stop := leading_width (rev (drop_leading toks)) in
  string_of_bytes (take (length b - start - stop) (drop start b)).

(** [strings.Fields]: the maximal runs of runes that are not white space.
    [cur] is the field being read, if any. *)
Fixpoint fields_from (skip : nat) (cur : option (list Z)) (s : list Z)
    : list (list Z) :=
  match s with
  | [] => match cur with Some f => [f] | None => [] end
  | b :: t =>
    match skip with
    | S k => fields_from k (option_map (fun f => f ++ [b]) cur) t
    | O =>
      let '(r, w) := utf8.range_step s in
      if IsSpace r then
        match cur with
        | Some f => f :: fields_from (Nat.pred w) None t
        | None => fields_from (Nat.pred w) None t
        end
      else
        fields_from (Nat.pred w)
          (Some (match cur with Some f => f ++ [b] | None => [b] end)) t
    end
  end.

Definition Fields (s : string) : list string :=
  map string_of_bytes (fields_from 0 None (bytes_of_string s)).

(** [strings.HasPrefix]: [s] is at least as long as [pre] and its first
    bytes are those of [pre]. *)
Fixpoint HasPrefix (s pre : string) {struct pre} : bool :=
  match pre with
  | EmptyString => true
  | String p pre' =>
    match s with
    | EmptyString => false
    | String c s' => Ascii.eqb c p && HasPrefix s' pre'
    end
  end.

(** [strings.TrimRight(s, "/")] *)
Definition TrimRight_slash (s : string) : string :=
  let fix go (l : list ascii) : list ascii :=
    match l with
    | c :: rest => if Ascii.eqb c "/" then go rest else l
    | [] => []
    end in
  string_of_list_ascii (rev (go (rev (list_ascii_of_string s)))).

(** [%d] of an integer *)
Definition FormatInt (z : Z) : string := NilZero.string_of_int (Z.to_int z).

Definition is_digit (c : ascii) : bool :=
  let n := byte_val c in (48 <=? n) && (n <=? 57).

Fixpoint digits_value (acc : Z) (l : list ascii) : option Z :=
  match l with
  | [] => Some acc
  | c :: rest =>
    if is_digit c then digits_value (acc * 10 + (byte_val c - 48)) rest
    else None
  end.

(** [parseInt64], that is [strconv.ParseInt(s, 10, 64)]: an optional sign,
    then one or more decimal digits, the value within [int64].  [None]
    stands for the error. *)
Definition parseInt64 (s : string) : option Z :=
  let parse (neg : bool) (l : list ascii) : option Z :=
    match l with
    | [] => None
    | _ =>
      match digits_value 0 l with
      | Some v =>
        if neg then (if v <=? 2 ^ 63 then Some (- v) else None)
        else (if v <? 2 ^ 63 then Some v else None)
      | None => None
      end
    end in
  match list_ascii_of_string s with
  | [] => None
  | c :: rest =>
    if Ascii.eqb c "+" then parse false rest
    else if Ascii.eqb c "-" then parse true rest
    else parse false (c :: rest)
  end.

(** ** Package [auth]: the whitelist store *)

Module auth.

(** A Go [error]: [None] is [nil], [Some msg] an error with that text. *)
Definition error : Type := option string.

(** A row of the [users] table without its key: [created_at] and
    [last_activity]. *)
Abbreviation row := (string * string)%type.

(** The SQLite database behind [*sql.DB].  [users] is the table, keyed by
    its primary key [telegram_id].  [faults] is what the environment does
    to the coming statements, in order: [Some e] makes the next statement
    fail with [e], [None] (or an empty list) lets it run. *)
Record DB : Type := mkDB {
  users : gmap Z row;
  faults : list error
}.

Definition next_fault (d : DB) : error * DB :=
  match faults d with
  | f :: rest => (f, mkDB (users d) rest)
  | [] => (None, d)
  end.

(** What [QueryRow(...).Scan(&exists)] gives for
    [SELECT 1 FROM users WHERE telegram_id = ?]. *)
Inductive scan_result : Type :=
| ScanOk
| ErrNoRows
| ScanErr (e : string).

Definition select_one (d : DB) (id : Z) : scan_result * DB :=
  match next_fault d with
  | (Some e, d') => (ScanErr e, d')
  | (None, d') =>
    (match users d' !! id with Some _ => ScanOk | None => ErrNoRows end, d')
  end.

(** [INSERT INTO users (telegram_id, created_at, last_activity)
     VALUES (?, ?, ?)
     ON CONFLICT(telegram_id) DO UPDATE
       SET last_activity = excluded.last_activity] *)
Definition upsert (d : DB) (id : Z) (created last : string) : error * DB :=
  match next_fault d with
  | (Some e, d') => (Some e, d')
  | (None, d') =>
    (None,
     mkDB (match users d' !! id with
           | Some (c, _) => <[id := (c, last)]> (users d')
           | None => <[id := (created, last)]> (users d')
           end)
          (faults d'))
  end.

(** [UPDATE users SET last_activity = ? WHERE telegram_id = ?] *)
Definition update_activity (d : DB) (last : string) (id : Z) : error * DB :=
  match next_fault d with
  | (Some e, d') => (Some e, d')
  | (None, d') =>
    (None,
     mkDB (match users d' !! id with
           | Some (c, _) => <[id := (c, last)]> (users d')
           | None => users d'
           end)
          (faults d'))
  end.

Record DBUser : Type := mkDBUser {
  TelegramID : Z;
  CreatedAt : string;
  LastActivity : string
}.

Definition row_before (a b : DBUser) : bool :=
  if String.eqb (CreatedAt a) (CreatedAt b)
  then TelegramID a <=? TelegramID b
  else String.leb (CreatedAt a) (CreatedAt b).

Fixpoint insert_sorted (u : DBUser) (l : list DBUser) : list DBUser :=
  match l with
  | [] => [u]
  | v :: rest => if row_before u v then u :: l else v :: insert_sorted u rest
  end.

(** [SELECT telegram_id, created_at, last_activity FROM users
     ORDER BY created_at ASC LIMIT ?].  SQL leaves the order of rows with
    equal [created_at] open; here they come by ascending key. *)
Definition select_all (d : DB) (limit : Z) : (list DBUser + string) * DB :=
  match next_fault d with
  | (Some e, d') => (inr e, d')
  | (None, d') =>
    let rows :=
      map (fun kv : Z * row => mkDBUser (fst kv) (fst (snd kv)) (snd (snd kv)))
          (map_to_list (users d')) in
    (inl (take (Z.to_nat limit) (fold_right insert_sorted [] rows)), d')
  end.

(** [type UserStore struct].  A [*UserStore] that may be [nil] is an
    [option UserStore].  [NewUserStore] leaves [db] unset in a disabled
    store, and no method reads the [db] of a disabled store. *)
Record UserStore : Type := mkUserStore {
  enabled : bool;
  adminID : Z;
  db : DB
}.

Definition set_db (s : UserStore) (d : DB) : UserStore :=
  mkUserStore (enabled s) (adminID s) d.

Definition IsEnabled (s : option UserStore) : bool :=
  match s with
  | Some u => enabled u
  | None => false
  end.

Definition IsAdmin (s : option UserStore) (id : Z) : bool :=
  match s with
  | Some u => enabled u && (id =? adminID u)
  | None => false
  end.

(** [IsAuthorized]: the pair [(bool, error)] and the store afterwards. *)
Definition IsAuthorized (s : option UserStore) (id : Z)
    : (bool * error) * option UserStore :=
  match s with
  | None => ((true, None), s)
  | Some u =>
    if negb (enabled u) then ((true, None), s)
    else if id =? adminID u then ((true, None), s)
    else
      match select_one (db u) id with
      | (ErrNoRows, d) => ((false, None), Some (set_db u d))
      | (ScanErr e, d) => ((false, Some e), Some (set_db u d))
      | (ScanOk, d) => ((true, None), Some (set_db u d))
      end
  end.

(** [AddUser]; [now] is [time.Now().UTC().Format(time.RFC3339)]. *)
Definition AddUser (s : option UserStore) (now : string) (id : Z)
    : error * option UserStore :=
  match s with
  | None => (None, s)
  | Some u =>
    if negb (enabled u) then (None, s)
    else
      let '(err, d) := upsert (db u) id now now in
      (err, Some (set_db u d))
  end.

(** [Touch] *)
Definition Touch (s : option UserStore) (now : string) (id : Z)
    : error * option UserStore :=
  match s with
  | None => (None, s)
  | Some u =>
    if negb (enabled u) then (None, s)
    else if id =? adminID u then (None, s)
    else
      let '(err, d) := update_activity (db u) now id in
      (err, Some (set_db u d))
  end.

(** [ListUsers] *)
Definition ListUsers (s : option UserStore) (limit : Z)
    : (list DBUser * error) * option UserStore :=
  match s with
  | None => (([], None), s)
  | Some u =>
    if negb (enabled u) then (([], None), s)
    else
      let limit := if limit <=? 0 then 100 else limit in
      match select_all (db u) limit with
      | (inr e, d) => (([], Some e), Some (set_db u d))
      | (inl rows, d) => ((rows, None), Some (set_db u d))
      end
  end.

(** The table of a store: what the whitelist holds. *)
Definition table (s : option UserStore) : gmap Z row :=
  match s with
  | Some u => users (db u)
  | None => ∅
  end.

End auth.

(** ** Package [bot] *)

(** ** What the bot does to the outside world *)

(** A [tgbotapi.Chattable] handed to [api.Send]: a text message with its
    [ParseMode] and [DisableWebPagePreview], or a chat action. *)
Inductive Chattable : Type :=
| MessageConfig (chatID : Z) (text : string) (parseMode : string)
    (disableWebPagePreview : bool)
| ChatActionConfig (chatID : Z) (action : string).

(** [tgbotapi.NewMessage] *)
Definition NewMessage (chatID : Z) (text : string) : Chattable :=
  MessageConfig chatID text "" false.

Definition ChatTyping : string := "typing".

(** [tgbotapi.NewChatAction] *)
Definition NewChatAction (chatID : Z) (action : string) : Chattable :=
  ChatActionConfig chatID action.

(** The arguments of the goroutine [go func(chatID, prompt, modelForCall)]
    that [Run] starts for a query. *)
Record QueryTask : Type := mkQueryTask {
  task_chatID : Z;
  task_prompt : string;
  task_modelForCall : string
}.

Inductive effect : Type :=
| Send (c : Chattable)
| Log (line : string)
| Go (task : QueryTask).

(** An update from the updates channel: [update.Message] may be [nil], and
    so may [Message.From]. *)
Record User : Type := mkUser { User_ID : Z }.

Record Message : Type := mkMessage {
  Chat_ID : Z;
  From : option User;
  Text : string
}.

Record Update : Type := mkUpdate { Update_Message : option Message }.

(** [type Bot struct]; [api] is the transport, seen through the effects. *)
Record Bot : Type := mkBot {
  userStore : option auth.UserStore;
  ollamaBaseURL : string;
  model : string
}.

Definition NewBot (userStore : option auth.UserStore)
    (ollamaBaseURL model : string) : Bot :=
  mkBot userStore (TrimRight_slash ollamaBaseURL) model.

Definition set_store (b : Bot) (s : option auth.UserStore) : Bot :=
  mkBot s (ollamaBaseURL b) (model b).

Definition set_model (b : Bot) (m : string) : Bot :=
  mkBot (userStore b) (ollamaBaseURL b) m.

(** ** The texts the bot sends *)

Definition LF : string := string_of_bytes [10].

(** The marks that open some texts, byte for byte as the source file has
    them. *)
Definition mark_warning : string :=
  string_of_bytes [0xC3; 0xA2; 0xC5; 0xA1; 0xC2; 0xA0; 0xC3; 0xAF; 0xC2; 0xB8].
Definition mark_denied : string :=
  string_of_bytes [0xC3; 0xB0; 0xC5; 0xB8; 0xC5; 0xA1; 0xC2; 0xAB].
Definition mark_done : string :=
  string_of_bytes [0xC3; 0xA2; 0xC5; 0x93; 0xE2; 0x80; 0xA6].

Definition text_auth_error : string :=
  mark_warning +:+ " Internal auth error, please try again later.".

Definition text_not_allowed : string :=
  mark_denied +:+ " You are not allowed to use this bot." +:+ LF
  +:+ "Ask the admin to add your Telegram ID.".

Definition text_greeting (model : string) : string :=
  "Hi! Send me any message and I'll forward it to Ollama (" +:+ model
  +:+ ")." +:+ LF +:+ LF
  +:+ "Code blocks with ``` will be rendered as code in Telegram.".

Definition text_model_changed (model : string) : string :=
  mark_done +:+ " Model changed to `" +:+ model +:+ "`".

Definition text_current_model (model : string) : string :=
  "Current model: `" +:+ model +:+ "`" +:+ LF
  +:+ "Usage: `/model llama3.1`".

Definition text_backend_error (err : string) : string :=
  mark_warning +:+ " Error from backend: " +:+ err.

(** ** The command handlers *)

(** [handleAddUser] *)
Definition handleAddUser (b : Bot) (now : string) (chatID : Z)
    (text : string) : Bot * list effect :=
  match Fields text with
  | _ :: arg :: _ =>
    match parseInt64 arg with
    | None =>
      (b, [Send (NewMessage chatID "Invalid user id (must be integer).")])
    | Some toAdd =>
      match auth.AddUser (userStore b) now toAdd with
      | (Some err, s) =>
        (set_store b s,
         [Log ("adduser error: " +:+ err);
          Send (NewMessage chatID
                  (mark_warning +:+ " Failed to add user: " +:+ err))])
      | (None, s) =>
        (set_store b s,
         [Send (NewMessage chatID
                  (mark_done +:+ " User " +:+ FormatInt toAdd
                   +:+ " has been added/updated."))])
      end
    end
  | _ => (b, [Send (NewMessage chatID "Usage: /adduser <telegram_id>")])
  end.

Definition text_user_row (u : auth.DBUser) : string :=
  "- ID: " +:+ FormatInt (auth.TelegramID u) +:+ LF
  +:+ "  created_at: " +:+ auth.CreatedAt u +:+ LF
  +:+ "  last_activity: " +:+ auth.LastActivity u +:+ LF.

(** [handleListUsers] *)
Definition handleListUsers (b : Bot) (chatID : Z) : Bot * list effect :=
  match auth.ListUsers (userStore b) 200 with
  | ((_, Some err), s) =>
    (set_store b s,
     [Log ("/listusers error: " +:+ err);
      Send (NewMessage chatID
              (mark_warning +:+ " Failed to list users: " +:+ err))])
  | (([], None), s) =>
    (set_store b s, [Send (NewMessage chatID "No users in DB yet.")])
  | ((users, None), s) =>
    (set_store b s,
     [Send (NewMessage chatID
              ("Registered users:" +:+ LF
               +:+ join (map text_user_row users)))])
  end.

(** [handleWhoAmI] *)
Definition handleWhoAmI (b : Bot) (chatID userID : Z) : Bot * list effect :=
  let head := "Your info:" +:+ LF
              +:+ "- Telegram ID: " +:+ FormatInt userID +:+ LF in
  if auth.IsEnabled (userStore b) then
    let role := if auth.IsAdmin (userStore b) userID
                then "- Role: admin" +:+ LF else "- Role: user" +:+ LF in
    let '((allowed, err), s) := auth.IsAuthorized (userStore b) userID in
    let verdict :=
      match err with
      | Some e => "- Allowed: ERROR (" +:+ e +:+ ")" +:+ LF
      | None => if allowed then "- Allowed: YES" +:+ LF
                else "- Allowed: NO" +:+ LF
      end in
    (set_store b s,
     [Send (NewMessage chatID
              (head +:+ "- Auth: ENABLED" +:+ LF +:+ role +:+ verdict))])
  else
    (b, [Send (NewMessage chatID
                 (head +:+ "- Auth: DISABLED (bot is open for everyone)"
                  +:+ LF))]).

(** [handleModelCommand] *)
Definition handleModelCommand (b : Bot) (chatID : Z) (text : string)
    : Bot * list effect :=
  match Fields text with
  | _ :: arg :: _ =>
    let b' := set_model b arg in
    (b', [Send (MessageConfig chatID (text_model_changed (model b'))
                  "Markdown" false)])
  | _ =>
    (b, [Send (MessageConfig chatID (text_current_model (model b))
                 "Markdown" false)])
  end.

(** ** The body of the loop of [Run] *)

(** Lines 107-129: the authorization check.  [inl] is a [continue] with the
    effects so far; [inr] lets the message through, with the effects of a
    failed [Touch]. *)
Definition authorize (b : Bot) (now : string) (chatID userID : Z)
    : (Bot * list effect) + (Bot * list effect) :=
  if auth.IsEnabled (userStore b) then
    match auth.IsAuthorized (userStore b) userID with
    | ((_, Some err), s) =>
      inl (set_store b s,
           [Log ("auth error for user " +:+ FormatInt userID +:+ ": "
                 +:+ err);
            Send (NewMessage chatID text_auth_error)])
    | ((false, None), s) =>
      inl (set_store b s, [Send (NewMessage chatID text_not_allowed)])
    | ((true, None), s) =>
      match auth.Touch s now userID with
      | (Some err, s') =>
        inr (set_store b s',
             [Log ("failed to update last_activity for "
                   +:+ FormatInt userID +:+ ": " +:+ err)])
      | (None, s') => inr (set_store b s', [])
      end
    end
  else inr (b, []).

(** Lines 131-181: [/start], [/model], or the query.  The query sends the
    first typing indicator, copies [b.model] into [currentModel] and starts
    the goroutine with it. *)
Definition dispatch (b : Bot) (chatID : Z) (text : string)
    : Bot * list effect :=
  if HasPrefix text "/start" then
    (b, [Send (MessageConfig chatID (text_greeting (model b))
                 "Markdown" false)])
  else if HasPrefix text "/model" then handleModelCommand b chatID text
  else
    let currentModel := model b in
    let prompt := text in
    (b, [Send (NewChatAction chatID ChatTyping);
         Go (mkQueryTask chatID prompt currentModel)]).

(** One turn of [for update := range updates]. *)
Definition handleUpdate (b : Bot) (now : string) (update : Update)
    : Bot * list effect :=
  match Update_Message update with
  | None => (b, [])
  | Some m =>
    match From m with
    | None => (b, [])
    | Some from =>
      let chatID := Chat_ID m in
      let userID := User_ID from in
      let text := TrimSpace (Text m) in
      if String.eqb text "" then (b, [])
      else if auth.IsEnabled (userStore b) && auth.IsAdmin (userStore b) userID
              && HasPrefix text "/adduser"
      then handleAddUser b now chatID text
      else if auth.IsEnabled (userStore b) && auth.IsAdmin (userStore b) userID
              && HasPrefix text "/listusers"
      then handleListUsers b chatID
      else if HasPrefix text "/whoami" then handleWhoAmI b chatID userID
      else
        match authorize b now chatID userID with
        | inl stop => stop
        | inr (b1, logged) =>
          let '(b2, effects) := dispatch b1 chatID text in
          (b2, logged ++ effects)
        end
    end
  end.

(** [Run] over the updates that arrive, each with the clock reading of its
    turn: the bot at the end and everything it did, in order. *)
Fixpoint Run (b : Bot) (updates : list (string * Update))
    : Bot * list effect :=
  match updates with
  | [] => (b, [])
  | (now, u) :: rest =>
    let '(b1, e1) := handleUpdate b now u in
    let '(b2, e2) := Run b1 rest in
    (b2, e1 ++ e2)
  end.

(** ** The query goroutine *)

Record OllamaMessage : Type := mkOllamaMessage {
  Role : string;
  Content : string
}.

Record OllamaChatRequest : Type := mkOllamaChatRequest {
  Request_Model : string;
  Request_Messages : list OllamaMessage;
  Request_Stream : bool
}.

Record OllamaChatResponse : Type := mkOllamaChatResponse {
  Response_Model : string;
  Response_Message : OllamaMessage;
  Response_Done : bool;
  Response_Error : string
}.

(** What [http.Post] and the JSON decoder give back: a transport error, or
    a response with its status, its body and what decoding the body
    yields (an error text or a value). *)
Inductive PostResult : Type :=
| PostFailed (err : string)
| PostResponse (StatusCode : Z) (body : string)
    (decoded : string + OllamaChatResponse).

(** The request [callOllama] posts: the URL and the JSON value. *)
Definition callOllama_request (b : Bot) (model prompt : string)
    : string * OllamaChatRequest :=
  (ollamaBaseURL b +:+ "/api/chat",
   mkOllamaChatRequest model
     [mkOllamaMessage "user"
        (prompt +:+ LF +:+ LF +:+
         "Please answer in Markdown. Use fenced code blocks (```lang ... ```).")]
     false).

(** The rest of [callOllama]: the answer or the error. *)
Definition callOllama_result (r : PostResult) : string * auth.error :=
  match r with
  | PostFailed err => ("", Some ("http post: " +:+ err))
  | PostResponse status body decoded =>
    if negb (status =? 200) then
      ("", Some ("ollama HTTP " +:+ FormatInt status +:+ ": " +:+ body))
    else
      match decoded with
      | inl err => ("", Some ("decode response: " +:+ err))
      | inr oresp =>
        if negb (String.eqb (Response_Error oresp) "") then
          ("", Some ("ollama error: " +:+ Response_Error oresp))
        else (TrimSpace (Content (Response_Message oresp)), None)
      end
  end.

(** What a query goroutine does, as events in order. *)
Inductive task_event : Type :=
| Post (url : string) (req : OllamaChatRequest)
| Typing (chatID : Z)
| Logged (line : string)
| Sent (c : Chattable)
| Sleep (milliseconds : Z).

(** The goroutine [func(chatID, prompt, modelForCall)], run against the
    bot [b] as it is when the goroutine runs.  [beats] is how many ticks
    [sendTypingUntilDone] served before [done] was closed; [reply] is what
    the backend did.  A chunker that does not return leaves the goroutine
    without further events. *)
Definition runQuery (b : Bot) (task : QueryTask) (beats : nat)
    (reply : PostResult) : list task_event :=
  let chatID := task_chatID task in
  let '(url, req) :=
    callOllama_request b (task_modelForCall task) (task_prompt task) in
  let called := Post url req :: repeat (Typing chatID) beats in
  match callOllama_result reply with
  | (_, Some err) =>
    called ++ [Logged ("ollama error: " +:+ err);
               Sent (NewMessage chatID (text_backend_error err))]
  | (answer, None) =>
    match splitTelegramMessage answer 4000 with
    | Returns chunks =>
      called ++
      flat_map (fun chunk =>
                  [Sent (MessageConfig chatID chunk "Markdown" true);
                   Sleep 300]) chunks
    | _ => called
    end
  end.

(** ** The loop and its goroutines together *)

(** The bot as [Run] holds it and the goroutines started and not yet
    run. *)
Record System : Type := mkSystem {
  sys_bot : Bot;
  sys_pending : list QueryTask
}.

(** The goroutines a turn of the loop starts. *)
Fixpoint spawned (effects : list effect) : list QueryTask :=
  match effects with
  | Go task :: rest => task :: spawned rest
  | _ :: rest => spawned rest
  | [] => []
  end.

Inductive step_label : Type :=
| LoopTurn (before : Bot) (now : string) (u : Update)
    (effects : list effect)
| TaskRun (at_call : Bot) (task : QueryTask) (events : list task_event).

(** Either the loop takes the next update, or any pending goroutine runs,
    whatever the loop has done to the bot in between. *)
Inductive step : System -> step_label -> System -> Prop :=
| step_loop (b b' : Bot) (pending : list QueryTask) (now : string)
    (u : Update) (effects : list effect) :
    handleUpdate b now u = (b', effects) ->
    step (mkSystem b pending) (LoopTurn b now u effects)
         (mkSystem b' (pending ++ spawned effects))
| step_task (b : Bot) (before after : list QueryTask) (task : QueryTask)
    (beats : nat) (reply : PostResult) :
    step (mkSystem b (before ++ task :: after))
         (TaskRun b task (runQuery b task beats reply))
         (mkSystem b (before ++ after)).

Inductive exec : System -> list step_label -> System -> Prop :=
| exec_nil (s : System) : exec s [] s
| exec_snoc (s s1 s2 : System) (trace : list step_label) (l : step_label) :
    exec s trace s1 -> step s1 l s2 -> exec s (trace ++ [l]) s2.

(** ** [net/http] as far as [callOllama] uses it, and [main]'s settings *)

Module http.

(** [http.Client]: [Timeout] is a duration, and zero means no timeout. *)
Record Client : Type := mkClient { Timeout : Z }.

(** [http.DefaultClient] is [&Client{}]. *)
Definition DefaultClient : Client := mkClient 0.

(** When a request made through [c] returns, for a server that answers
    after [latency] ([None]: never): at the answer, or when the timeout
    cuts it short. *)
Definition returns_at (c : Client) (latency : option Z) : option Z :=
  if Timeout c =? 0 then latency
  else
    match latency with
    | Some t => Some (Z.min t (Timeout c))
    | None => Some (Timeout c)
    end.

End http.

(** [callOllama] posts with [http.Post], which is [DefaultClient.Post]. *)
Definition callOllama_client (b : Bot) : http.Client := http.DefaultClient.

(** When [callOllama] returns, for a backend with that latency. *)
Definition callOllama_returns_at (b : Bot) (latency : option Z)
    : option Z :=
  http.returns_at (callOllama_client b) latency.

(** [os.Getenv]: the value, or the empty string. *)
Definition Environ : Type := string -> string.

(** What [main] reads before it builds the bot: [None] is [log.Fatal]. *)
Definition main_settings (getenv : Environ) : option (string * string * string) :=
  let telegramToken := getenv "TELEGRAM_BOT_TOKEN" in
  if String.eqb telegramToken "" then None
  else
    let ollamaBaseURL := getenv "OLLAMA_BASE_URL" in
    let ollamaBaseURL :=
      if String.eqb ollamaBaseURL "" then "http://ollama:11434"
      else ollamaBaseURL in
    let model := getenv "OLLAMA_MODEL" in
    Some (telegramToken, ollamaBaseURL, model).

(** The bot [main] runs, given the store it opened. *)
Definition main_bot (getenv : Environ) (store : option auth.UserStore)
    : option Bot :=
  match main_settings getenv with
  | Some (_, ollamaBaseURL, model) => Some (NewBot store ollamaBaseURL model)
  | None => None
  end.

(** ** How the spec reads the outcome of the gate *)

Inductive Decision : Type :=
| Allow
| Deny
| Error.

(** [Run] reads the pair [IsAuthorized] returns in this order: an error
    first, then the boolean. *)
Definition decide (s : option auth.UserStore) (userID : Z) : Decision :=
  match auth.IsAuthorized s userID with
  | ((_, Some _), _) => Error
  | ((true, None), _) => Allow
  | ((false, None), _) => Deny
  end.
(** The condition under which [Run] hands a text to a command handler:
    the [HasPrefix] tests of the loop body, in one place. *)
Definition command_prefix (b : Bot) (userID : Z) (text : string) : bool :=
  (auth.IsEnabled (userStore b) && auth.IsAdmin (userStore b) userID
   && (HasPrefix text "/adduser" || HasPrefix text "/listusers"))
  || HasPrefix text "/whoami"
  || HasPrefix text "/start"
  || HasPrefix text "/model".

(** The reading of the command table by first token: the first
    white-space-delimited token of the text is one of the five command
    words. *)
Definition first_token_is_command (text : string) : bool :=
  match Fields text with
  | tok :: _ =>
    String.eqb tok "/start" || String.eqb tok "/whoami"
    || String.eqb tok "/model" || String.eqb tok "/adduser"
    || String.eqb tok "/listusers"
  | [] => false
  end.

(** The updates that can set the model: those whose normalized text starts
    with [/model] and has a second field. *)
Definition sets_model (u : Update) : bool :=
  match Update_Message u with
  | Some m =>
    HasPrefix (TrimSpace (Text m)) "/model"
    && (2 <=? length (Fields (TrimSpace (Text m))))%nat
  | None => false
  end.

(** ** Stores and updates to try the definitions on *)

(** An enabled store with admin 100, the given table and the given
    faults to come. *)
Definition example_store (rows : gmap Z auth.row) (faults : list auth.error)
    : option auth.UserStore :=
  Some (auth.mkUserStore true 100 (auth.mkDB rows faults)).

(** A text message from user [userID] in chat 7. *)
Definition example_update (userID : Z) (text : string) : Update :=
  mkUpdate (Some (mkMessage 7 (Some (mkUser userID)) text)).

(** The open bot of the examples, a query it dispatches, and a backend
    answer. *)
Definition example_bot : Bot := NewBot None "http://ollama:11434" "llama3.1".

Definition example_task : QueryTask := mkQueryTask 7 "hello" "llama3.1".

Definition example_reply : PostResult :=
  PostResponse 200 "{...}"
    (inr (mkOllamaChatResponse "llama3.1"
            (mkOllamaMessage "assistant" " Hello! ") true "")).

(** A deployment that sets the documented [OLLAMA_TIMEOUT_SECONDS]. *)
Definition example_environ : Environ :=
  fun name =>
    if String.eqb name "TELEGRAM_BOT_TOKEN" then "123:abc"
    else if String.eqb name "OLLAMA_TIMEOUT_SECONDS" then "1"
    else "".

(** [getenv] with one variable set to another value. *)
Definition setenv (getenv : Environ) (name value : string) : Environ :=
  fun n => if String.eqb n name then value else getenv n.

(** ** Notions the further properties are stated with *)

(** [a] is no later than [b] by [created_at], as the table compares
    texts: byte by byte. *)
Definition created_le (a b : auth.DBUser) : Prop :=
  String.leb (auth.CreatedAt a) (auth.CreatedAt b) = true.

(** The settings of a store: whether it is there, enabled, and who the
    admin is. *)
Definition store_settings (s : option auth.UserStore) : option (bool * Z) :=
  match s with
  | Some u => Some (auth.enabled u, auth.adminID u)
  | None => None
  end.

(** A byte below 0x80 that is not white space. *)
Definition word_byte (b : Z) : Prop :=
  0 <= b < 128 /\ IsSpace b = false.

(** The string ends in a slash. *)
Definition ends_with_slash (s : string) : Prop :=
  exists t : string, s = t +:+ "/".

(** What the chunker appends after its loop: the runes left over, if
    any. *)
Definition last_piece (rest : list Z) : list string :=
  match rest with
  | [] => []
  | _ :: _ => [string_of_runes rest]
  end.

(** The chat an event of a goroutine is addressed to, if any. *)
Definition event_chat (e : task_event) : option Z :=
  match e with
  | Typing c => Some c
  | Sent (MessageConfig c _ _ _) => Some c
  | Sent (ChatActionConfig c _) => Some c
  | Post _ _ | Logged _ | Sleep _ => None
  end.

(** The requests a goroutine posts. *)
Fixpoint posts (events : list task_event)
    : list (string * OllamaChatRequest) :=
  match events with
  | Post url req :: rest => (url, req) :: posts rest
  | _ :: rest => posts rest
  | [] => []
  end.

(** The messages a goroutine sends. *)
Fixpoint sent (events : list task_event) : list Chattable :=
  match events with
  | Sent c :: rest => c :: sent rest
  | _ :: rest => sent rest
  | [] => []
  end.

(** ** Start-up: [readAuthConfigFromEnv], [NewUserStore] and [main] *)

(** The rune every rune of its simple-folding orbit is taken to, for the
    orbits that hold an ASCII letter: the upper-case letters, U+017F (long
    s) and U+212A (the Kelvin sign). *)
Definition fold_rune (r : Z) : Z :=
  if (65 <=? r) && (r <=? 90) then r + 32
  else if r =? 0x17F then 115
  else if r =? 0x212A then 107
  else r.

(** [strings.EqualFold(s, t)] for a [t] of ASCII bytes, as it is called
    here: the runes of [s] and of [t] are equal under simple case
    folding. *)
Definition EqualFold (s t : string) : bool :=
  bool_decide (map fold_rune (runes_of_string s)
               = map fold_rune (runes_of_string t)).

Module startup.

(** [auth.AuthConfig] *)
Record AuthConfig : Type := mkAuthConfig {
  Enabled : bool;
  AdminID : Z;
  DBPath : string
}.

(** [readAuthConfigFromEnv].  The text of the error for an admin id that
    does not parse is abridged: it leaves out the quoting of the value and
    the parser's own message. *)
Definition readAuthConfigFromEnv (getenv : Environ)
    : AuthConfig * auth.error :=
  let enabledStr := getenv "BOT_AUTH_ENABLED" in
  let enabled := EqualFold enabledStr "1" || EqualFold enabledStr "true"
                 || EqualFold enabledStr "yes" in
  if negb enabled then (mkAuthConfig false 0 "", None)
  else
    let adminStr := getenv "BOT_ADMIN_ID" in
    if String.eqb adminStr "" then
      (mkAuthConfig true 0 "",
       Some "auth enabled but BOT_ADMIN_ID is not set")
    else
      match parseInt64 adminStr with
      | None =>
        (mkAuthConfig true 0 "", Some ("invalid BOT_ADMIN_ID " +:+ adminStr))
      | Some adminID =>
        let dbPath := getenv "BOT_AUTH_DB_PATH" in
        let dbPath := if String.eqb dbPath ""
                      then "/var/lib/ollamabot/bot_users.db" else dbPath in
        (mkAuthConfig true adminID dbPath, None)
      end.

(** What opening the database file does: [sql.Open], [db.Ping] or the
    [CREATE TABLE IF NOT EXISTS] fails, or the database is there with the
    table it holds. *)
Inductive open_result : Type :=
| OpenFails (e : string)
| PingFails (e : string)
| CreateFails (e : string)
| Opened (d : auth.DB).

(** [NewUserStore]: the store or the error.  A disabled store has no
    database; its [db] is an empty one that no method reads. *)
Definition NewUserStore (cfg : AuthConfig) (sqlite : string -> open_result)
    : option auth.UserStore * auth.error :=
  if negb (Enabled cfg) then
    (Some (auth.mkUserStore false 0 (auth.mkDB ∅ [])), None)
  else if AdminID cfg =? 0 then
    (None, Some "auth enabled but AdminID is 0")
  else if String.eqb (DBPath cfg) "" then
    (None, Some "auth enabled but DBPath is empty")
  else
    match sqlite (DBPath cfg) with
    | OpenFails e => (None, Some ("open sqlite db: " +:+ e))
    | PingFails e => (None, Some ("ping db: " +:+ e))
    | CreateFails e => (None, Some ("create table users: " +:+ e))
    | Opened d => (Some (auth.mkUserStore true (AdminID cfg) d), None)
    end.

(** [main] of the bot with the store, up to [bot.Run()]: the bot it runs,
    or the text it dies with.  [telegram] is what [tgbotapi.NewBotAPI]
    returns for the token. *)
Definition main (getenv : Environ) (sqlite : string -> open_result)
    (telegram : string -> auth.error) : string + Bot :=
  let telegramToken := getenv "TELEGRAM_BOT_TOKEN" in
  if String.eqb telegramToken "" then inl "TELEGRAM_BOT_TOKEN is not set"
  else
    let ollamaBaseURL := getenv "OLLAMA_BASE_URL" in
    let ollamaBaseURL :=
      if String.eqb ollamaBaseURL "" then "http://ollama:11434"
      else ollamaBaseURL in
    let model := getenv "OLLAMA_MODEL" in
    match readAuthConfigFromEnv getenv with
    | (_, Some err) => inl ("failed to read auth config: " +:+ err)
    | (authCfg, None) =>
      match NewUserStore authCfg sqlite with
      | (_, Some err) => inl ("failed to init auth/user store: " +:+ err)
      | (userStore, None) =>
        match telegram telegramToken with
        | Some err => inl ("failed to create bot: " +:+ err)
        | None => inr (NewBot userStore ollamaBaseURL model)
        end
      end
    end.

End startup.

(** The rows of a table in the order [ListUsers] returns them. *)
Definition rows_in_order (t : gmap Z (string * string)) : list auth.DBUser :=
  fold_right auth.insert_sorted []
    (map (fun kv : Z * (string * string) =>
            auth.mkDBUser (fst kv) (fst (snd kv)) (snd (snd kv)))
         (map_to_list t)).

(** The text of the reply to [/listusers]. *)
Definition text_user_list (users : list auth.DBUser) : string :=
  match users with
  | [] => "No users in DB yet."
  | _ :: _ => "Registered users:" +:+ LF +:+ join (map text_user_row users)
  end.

(** The reply to [/whoami] with authorization enabled, given the role and
    the line of the verdict. *)
Definition text_whoami (userID : Z) (admin : bool) (verdict : string)
    : string :=
  "Your info:" +:+ LF +:+ "- Telegram ID: " +:+ FormatInt userID +:+ LF
  +:+ "- Auth: ENABLED" +:+ LF
  +:+ (if admin then "- Role: admin" +:+ LF else "- Role: user" +:+ LF)
  +:+ verdict +:+ LF.

(** The chat a message or a chat action is addressed to. *)
Definition chat_of (c : Chattable) : Z :=
  match c with
  | MessageConfig chatID _ _ _ => chatID
  | ChatActionConfig chatID _ => chatID
  end.

(** The chat an effect of the loop concerns: the one a [Send] is addressed
    to and the one a goroutine is started for. *)
Definition effect_chat (e : effect) : option Z :=
  match e with
  | Send c => Some (chat_of c)
  | Go task => Some (task_chatID task)
  | Log _ => None
  end.

(** The effects answer the chat [chatID]: something is sent, whatever is
    sent or started is for that chat, and at most one goroutine starts. *)
Definition answers (chatID : Z) (effects : list effect) : Prop :=
  (exists c : Chattable, In (Send c) effects)
  /\ Forall (fun e => forall c, effect_chat e = Some c -> c = chatID) effects
  /\ (length (spawned effects) <= 1)%nat.

(** ** The heartbeat: [sendTypingUntilDone] beside [callOllama] *)

Module heartbeat.

(** [4 * time.Second], in milliseconds. *)
Definition period : Z := 4000.

(** Where the query goroutine is (lines 154-163): inside [callOllama],
    back from it and before [close(done)], or past [close(done)]. *)
Inductive caller : Type :=
| InCall
| BackFromCall
| DoneClosed.

(** Where [sendTypingUntilDone] is: at its [select], or returned. *)
Inductive typer : Type :=
| AtSelect
| Gone.

Inductive event : Type :=
| Indicator       (* [api.Send(NewChatAction(chatID, ChatTyping))] *)
| CallReturned    (* [callOllama] is back, with a reply or an error *)
| Closed          (* [close(done)] *)
| TyperReturned.  (* [sendTypingUntilDone] is back *)

(** [clock] counts milliseconds from the start of the goroutine;
    [next_tick] is when the ticker fires next; [tick_waiting] says that
    [ticker.C] holds a tick nobody has received yet; [history] is what
    has happened so far, in order, each event with its time. *)
Record State : Type := mkState {
  clock : Z;
  query : caller;
  typing : typer;
  next_tick : Z;
  tick_waiting : bool;
  history : list (Z * event)
}.

(** The goroutine starts: [Run] has sent the first indicator (line 146),
    the call is on its way, the ticker is set and
    [sendTypingUntilDone] is at its [select]. *)
Definition init : State :=
  mkState 0 InCall AtSelect period false [(0, Indicator)].

(** One step of the two goroutines and the clock, for a backend call that
    lasts [latency] milliseconds.  Time does not pass a tick that is due
    or the return of the call.  A tick that comes due is put into
    [ticker.C], or dropped when one is waiting there.  The [select]
    takes either case that can proceed: Go chooses among the ready cases
    at random, so a waiting tick may be served when [done] is closed. *)
Inductive step (latency : Z) : State -> State -> Prop :=
| time_passes (s : State) (dt : Z) :
    0 < dt ->
    (typing s = AtSelect -> clock s + dt <= next_tick s) ->
    (query s = InCall -> clock s + dt <= latency) ->
    step latency s
      (mkState (clock s + dt) (query s) (typing s) (next_tick s)
         (tick_waiting s) (history s))
| ticker_fires (s : State) :
    typing s = AtSelect ->
    clock s = next_tick s ->
    step latency s
      (mkState (clock s) (query s) (typing s) (next_tick s + period)
         true (history s))
| call_returns (s : State) :
    query s = InCall ->
    clock s = latency ->
    step latency s
      (mkState (clock s) BackFromCall (typing s) (next_tick s)
         (tick_waiting s) (history s ++ [(clock s, CallReturned)]))
| close_done (s : State) :
    query s = BackFromCall ->
    step latency s
      (mkState (clock s) DoneClosed (typing s) (next_tick s)
         (tick_waiting s) (history s ++ [(clock s, Closed)]))
| select_done (s : State) :
    typing s = AtSelect ->
    query s = DoneClosed ->
    step latency s
      (mkState (clock s) (query s) Gone (next_tick s)
         (tick_waiting s) (history s ++ [(clock s, TyperReturned)]))
| select_tick (s : State) :
    typing s = AtSelect ->
    tick_waiting s = true ->
    step latency s
      (mkState (clock s) (query s) (typing s) (next_tick s)
         false (history s ++ [(clock s, Indicator)])).

Inductive exec (latency : Z) : State -> State -> Prop :=
| exec_stop (s : State) : exec latency s s
| exec_more (s s1 s2 : State) :
    exec latency s s1 -> step latency s1 s2 -> exec latency s s2.

(** How many indicators a history holds. *)
Fixpoint indicators (h : list (Z * event)) : Z :=
  match h with
  | (_, Indicator) :: rest => 1 + indicators rest
  | _ :: rest => indicators rest
  | [] => 0
  end.

(** The events of a history from the return of the call on. *)
Fixpoint after_return (h : list (Z * event)) : list (Z * event) :=
  match h with
  | (_, CallReturned) :: rest => rest
  | _ :: rest => after_return rest
  | [] => []
  end.

End heartbeat.

(** * Properties *)

(** ** Bit arithmetic of the UTF-8 encoder and decoder *)

Ltac zlia := Z.div_mod_to_equations; lia.

Lemma lor_high_low (a b n : Z) :
  0 <= n -> 0 <= b < 2 ^ n -> Z.lor (a * 2 ^ n) b = a * 2 ^ n + b.
Proof.
  intros Hn Hb. symmetry. apply Z.add_nocarry_lor.
  apply Z.bits_inj'. intros i Hi.
  rewrite Z.land_spec, Z.bits_0.
  destruct (Z.lt_ge_cases i n) as [Hlt | Hge].
  - rewrite Z.mul_pow2_bits_low by lia. reflexivity.
  - assert (Z.testbit b i = false) as ->; [| apply andb_false_r].
    destruct (Z.eq_dec b 0) as [-> | Hnz]; [apply Z.bits_0 |].
    apply Z.bits_above_log2; [lia |].
    apply Z.log2_lt_pow2; [lia |].
    apply Z.lt_le_trans with (2 ^ n); [lia |].
    apply Z.pow_le_mono_r; lia.
Qed.

Lemma lor_tag (tag k n b : Z) :
  tag = k * 2 ^ n -> 0 <= n -> 0 <= b < 2 ^ n -> Z.lor tag b = tag + b.
Proof. intros ->. apply lor_high_low. Qed.

Lemma land_mask (x n : Z) : 0 <= n -> Z.land x (2 ^ n - 1) = x mod 2 ^ n.
Proof.
  intros Hn. rewrite <- Z.land_ones by assumption.
  f_equal. rewrite Z.ones_equiv. lia.
Qed.

Import utf8.

Lemma encoderune1 r : 0 <= r <= 0x7F -> encoderune r = [r].
Proof.
  intros H. unfold encoderune, rune1Max.
  rewrite (Z.mod_small r (2 ^ 32)) by lia.
  rewrite (proj2 (Z.leb_le r 127)) by lia.
  rewrite Z.mod_small by lia. reflexivity.
Qed.

Lemma encoderune2 r :
  0x80 <= r <= 0x7FF -> encoderune r = [192 + r / 64; 128 + r mod 64].
Proof.
  intros H. unfold encoderune, rune1Max, rune2Max, t2, tx, maskx.
  rewrite (Z.mod_small r (2 ^ 32)) by lia.
  rewrite (proj2 (Z.leb_gt r 127)) by lia.
  rewrite (proj2 (Z.leb_le r 2047)) by lia.
  rewrite Z.shiftr_div_pow2 by lia.
  rewrite (land_mask _ 6) by lia.
  change (2 ^ 6) with 64.
  rewrite (lor_tag 192 6 5) by (try reflexivity; zlia).
  rewrite (lor_tag 128 2 6) by (try reflexivity; zlia).
  f_equal; [zlia | f_equal; zlia].
Qed.

Lemma encoderune3 r :
  0x800 <= r <= 0xFFFF -> ~ (0xD800 <= r <= 0xDFFF) ->
  encoderune r = [224 + r / 4096; 128 + (r / 64) mod 64; 128 + r mod 64].
Proof.
  intros H Hs.
  unfold encoderune, rune1Max, rune2Max, rune3Max, maxRune, surrogateMin,
    surrogateMax, t3, tx, maskx.
  rewrite (Z.mod_small r (2 ^ 32)) by lia.
  rewrite (proj2 (Z.leb_gt r 127)) by lia.
  rewrite (proj2 (Z.leb_gt r 2047)) by lia.
  rewrite (proj2 (Z.ltb_ge 1114111 r)) by lia.
  assert ((55296 <=? r) && (r <=? 57343) = false) as ->.
  { apply andb_false_iff. rewrite Z.leb_gt, Z.leb_gt. lia. }
  rewrite (proj2 (Z.leb_le r 65535)) by lia. cbn [orb].
  rewrite !Z.shiftr_div_pow2 by lia.
  rewrite !(land_mask _ 6) by lia.
  change (2 ^ 6) with 64. change (2 ^ 12) with 4096.
  rewrite (lor_tag 224 14 4) by (try reflexivity; zlia).
  rewrite !(lor_tag 128 2 6) by (try reflexivity; zlia).
  f_equal; [zlia | f_equal; [zlia | f_equal; zlia]].
Qed.

Lemma encoderune4 r :
  0x10000 <= r <= 0x10FFFF ->
  encoderune r =
    [240 + r / 262144; 128 + (r / 4096) mod 64; 128 + (r / 64) mod 64;
     128 + r mod 64].
Proof.
  intros H.
  unfold encoderune, rune1Max, rune2Max, rune3Max, maxRune, surrogateMin,
    surrogateMax, t4, tx, maskx.
  rewrite (Z.mod_small r (2 ^ 32)) by lia.
  rewrite (proj2 (Z.leb_gt r 127)) by lia.
  rewrite (proj2 (Z.leb_gt r 2047)) by lia.
  rewrite (proj2 (Z.ltb_ge 1114111 r)) by lia.
  rewrite (proj2 (Z.leb_gt r 57343)) by lia.
  rewrite (proj2 (Z.leb_gt r 65535)) by lia.
  rewrite andb_false_r. cbn [orb].
  rewrite !Z.shiftr_div_pow2 by lia.
  rewrite !(land_mask _ 6) by lia.
  change (2 ^ 6) with 64. change (2 ^ 12) with 4096.
  change (2 ^ 18) with 262144.
  rewrite (lor_tag 240 30 3) by (try reflexivity; zlia).
  rewrite !(lor_tag 128 2 6) by (try reflexivity; zlia).
  f_equal; [zlia | f_equal; [zlia | f_equal; [zlia | f_equal; zlia]]].
Qed.

Lemma cont_tx m : 0 <= m < 64 -> cont (128 + m) = true.
Proof.
  intros H. unfold cont, locb, hicb.
  apply andb_true_iff. rewrite !Z.leb_le. lia.
Qed.

Lemma low_tx m : 0 <= m < 64 -> Z.land (128 + m) maskx = m.
Proof.
  intros H. unfold maskx. rewrite (land_mask _ 6) by lia. zlia.
Qed.

Lemma join2 a b : 0 <= b < 64 -> Z.lor (Z.shiftl a 6) b = a * 64 + b.
Proof.
  intros Hb. rewrite Z.shiftl_mul_pow2 by lia.
  rewrite lor_high_low by (change (2 ^ 6) with 64; lia). reflexivity.
Qed.

Lemma join3 a b c :
  0 <= b < 64 -> 0 <= c < 64 ->
  Z.lor (Z.lor (Z.shiftl a 12) (Z.shiftl b 6)) c = a * 4096 + b * 64 + c.
Proof.
  intros Hb Hc. rewrite !Z.shiftl_mul_pow2 by lia.
  rewrite (lor_high_low a (b * 2 ^ 6) 12)
    by (change (2 ^ 6) with 64; change (2 ^ 12) with 4096; lia).
  replace (a * 2 ^ 12 + b * 2 ^ 6) with ((a * 64 + b) * 2 ^ 6)
    by (change (2 ^ 6) with 64; change (2 ^ 12) with 4096; ring).
  rewrite lor_high_low by (change (2 ^ 6) with 64; lia).
  change (2 ^ 6) with 64. ring.
Qed.

Lemma join4 a b c d :
  0 <= b < 64 -> 0 <= c < 64 -> 0 <= d < 64 ->
  Z.lor (Z.lor (Z.lor (Z.shiftl a 18) (Z.shiftl b 12)) (Z.shiftl c 6)) d
  = a * 262144 + b * 4096 + c * 64 + d.
Proof.
  intros Hb Hc Hd. rewrite (Z.shiftl_mul_pow2 a 18) by lia.
  rewrite (Z.shiftl_mul_pow2 b 12) by lia.
  rewrite (lor_high_low a (b * 2 ^ 12) 18)
    by (change (2 ^ 12) with 4096; change (2 ^ 18) with 262144; lia).
  replace (a * 2 ^ 18 + b * 2 ^ 12) with (Z.shiftl (a * 64 + b) 12)
    by (rewrite Z.shiftl_mul_pow2 by lia;
        change (2 ^ 12) with 4096; change (2 ^ 18) with 262144; ring).
  rewrite join3 by assumption. ring.
Qed.

Lemma decoderune2 q m rest :
  2 <= q < 32 -> 0 <= m < 64 ->
  decoderune (192 + q :: 128 + m :: rest) = (q * 64 + m, 2%nat).
Proof.
  intros Hq Hm. unfold decoderune.
  rewrite cont_tx, low_tx by assumption.
  unfold t2, t3, mask2, rune1Max.
  rewrite (proj2 (Z.leb_le 192 (192 + q))) by lia.
  rewrite (proj2 (Z.ltb_lt (192 + q) 224)) by lia. cbn [andb].
  rewrite (land_mask _ 5) by lia. change (2 ^ 5) with 32.
  replace ((192 + q) mod 32) with q by zlia.
  rewrite join2 by assumption.
  rewrite (proj2 (Z.ltb_lt 127 (q * 64 + m))) by lia. reflexivity.
Qed.

Lemma decoderune3 a b c rest :
  0 <= a < 16 -> 0 <= b < 64 -> 0 <= c < 64 ->
  0x800 <= a * 4096 + b * 64 + c ->
  ~ (0xD800 <= a * 4096 + b * 64 + c <= 0xDFFF) ->
  decoderune (224 + a :: 128 + b :: 128 + c :: rest)
  = (a * 4096 + b * 64 + c, 3%nat).
Proof.
  intros Ha Hb Hc Hlo Hs. unfold decoderune.
  rewrite !cont_tx, !low_tx by assumption.
  unfold t2, t3, t4, mask3, rune2Max, surrogateMin, surrogateMax.
  rewrite (proj2 (Z.ltb_ge (224 + a) 224)) by lia.
  rewrite andb_false_r.
  rewrite (proj2 (Z.leb_le 224 (224 + a))) by lia.
  rewrite (proj2 (Z.ltb_lt (224 + a) 240)) by lia. cbn [andb].
  rewrite (land_mask _ 4) by lia. change (2 ^ 4) with 16.
  replace ((224 + a) mod 16) with a by zlia.
  rewrite join3 by assumption.
  rewrite (proj2 (Z.ltb_lt 2047 _)) by lia.
  assert ((55296 <=? a * 4096 + b * 64 + c)
          && (a * 4096 + b * 64 + c <=? 57343) = false) as ->.
  { apply andb_false_iff. rewrite !Z.leb_gt. lia. }
  reflexivity.
Qed.

Lemma decoderune4 a b c d rest :
  0 <= a < 8 -> 0 <= b < 64 -> 0 <= c < 64 -> 0 <= d < 64 ->
  0x10000 <= a * 262144 + b * 4096 + c * 64 + d <= 0x10FFFF ->
  decoderune (240 + a :: 128 + b :: 128 + c :: 128 + d :: rest)
  = (a * 262144 + b * 4096 + c * 64 + d, 4%nat).
Proof.
  intros Ha Hb Hc Hd Hr. unfold decoderune.
  rewrite !cont_tx, !low_tx by assumption.
  unfold t2, t3, t4, t5, mask4, rune3Max, maxRune.
  rewrite (proj2 (Z.ltb_ge (240 + a) 224)) by lia.
  rewrite (proj2 (Z.ltb_ge (240 + a) 240)) by lia.
  rewrite !andb_false_r.
  rewrite (proj2 (Z.leb_le 240 (240 + a))) by lia.
  rewrite (proj2 (Z.ltb_lt (240 + a) 248)) by lia. cbn [andb].
  rewrite (land_mask _ 3) by lia. change (2 ^ 3) with 8.
  replace ((240 + a) mod 8) with a by zlia.
  rewrite join4 by assumption.
  rewrite (proj2 (Z.ltb_lt 65535 _)) by lia.
  rewrite (proj2 (Z.leb_le _ 1114111)) by lia.
  reflexivity.
Qed.

Lemma range_runes_encoderune r rest :
  scalar r ->
  range_runes 0 (encoderune r ++ rest) = r :: range_runes 0 rest.
Proof.
  unfold scalar, maxRune, surrogateMin, surrogateMax. intros [Hr Hs].
  destruct (Z_le_gt_dec r 0x7F) as [H1 | H1].
  { rewrite encoderune1 by lia. cbn [app range_runes range_step].
    unfold runeSelf. rewrite (proj2 (Z.ltb_lt r 128)) by lia. reflexivity. }
  destruct (Z_le_gt_dec r 0x7FF) as [H2 | H2].
  { rewrite encoderune2 by lia. cbn [app range_runes range_step].
    unfold runeSelf. rewrite (proj2 (Z.ltb_ge (192 + r / 64) 128)) by zlia.
    rewrite decoderune2 by zlia. cbn [Nat.pred].
    f_equal. zlia. }
  destruct (Z_le_gt_dec r 0xFFFF) as [H3 | H3].
  { rewrite encoderune3 by lia. cbn [app range_runes range_step].
    unfold runeSelf. rewrite (proj2 (Z.ltb_ge (224 + r / 4096) 128)) by zlia.
    assert (r / 4096 * 4096 + (r / 64) mod 64 * 64 + r mod 64 = r) as E
      by zlia.
    rewrite decoderune3 by (rewrite ?E; zlia). cbn [Nat.pred].
    f_equal. exact E. }
  rewrite encoderune4 by lia. cbn [app range_runes range_step].
  unfold runeSelf. rewrite (proj2 (Z.ltb_ge (240 + r / 262144) 128)) by zlia.
  assert (r / 262144 * 262144 + (r / 4096) mod 64 * 4096
          + (r / 64) mod 64 * 64 + r mod 64 = r) as E by zlia.
  rewrite decoderune4 by (rewrite ?E; zlia). cbn [Nat.pred].
  f_equal. exact E.
Qed.

Lemma encoderune_bytes r :
  scalar r -> Forall (fun b => 0 <= b < 256) (encoderune r).
Proof.
  unfold scalar, maxRune, surrogateMin, surrogateMax. intros [Hr Hs].
  destruct (Z_le_gt_dec r 0x7F) as [H1 | H1].
  { rewrite encoderune1 by lia. repeat constructor; lia. }
  destruct (Z_le_gt_dec r 0x7FF) as [H2 | H2].
  { rewrite encoderune2 by lia. repeat constructor; zlia. }
  destruct (Z_le_gt_dec r 0xFFFF) as [H3 | H3].
  { rewrite encoderune3 by lia. repeat constructor; zlia. }
  rewrite encoderune4 by lia. repeat constructor; zlia.
Qed.

Lemma encoderune_nonempty r : scalar r -> (1 <= length (encoderune r))%nat.
Proof.
  unfold scalar, maxRune, surrogateMin, surrogateMax. intros [Hr Hs].
  destruct (Z_le_gt_dec r 0x7F) as [H1 | H1].
  { rewrite encoderune1 by lia. cbn. lia. }
  destruct (Z_le_gt_dec r 0x7FF) as [H2 | H2].
  { rewrite encoderune2 by lia. cbn. lia. }
  destruct (Z_le_gt_dec r 0xFFFF) as [H3 | H3].
  { rewrite encoderune3 by lia. cbn. lia. }
  rewrite encoderune4 by lia. cbn. lia.
Qed.

Lemma range_runes_encode (text rest : list Z) :
  Forall scalar text ->
  range_runes 0 (concat (map encoderune text) ++ rest)
  = text ++ range_runes 0 rest.
Proof.
  induction 1 as [| r text Hr _ IH]; [reflexivity |].
  cbn [map concat]. rewrite <- app_assoc.
  rewrite range_runes_encoderune by assumption.
  rewrite IH. reflexivity.
Qed.

Lemma byte_val_of b : 0 <= b < 256 -> byte_val (byte_of b) = b.
Proof.
  intros H. unfold byte_val, byte_of.
  rewrite Z.mod_small by lia.
  rewrite N_ascii_embedding by lia. lia.
Qed.

Lemma byte_of_val c : byte_of (byte_val c) = c.
Proof.
  unfold byte_val, byte_of.
  pose proof (N_ascii_bounded c) as Hc.
  rewrite Z.mod_small by lia.
  rewrite N2Z.id. apply ascii_N_embedding.
Qed.

Lemma bytes_of_string_of_bytes l :
  Forall (fun b => 0 <= b < 256) l -> bytes_of_string (string_of_bytes l) = l.
Proof.
  intros H. unfold bytes_of_string, string_of_bytes.
  rewrite list_ascii_of_string_of_list_ascii.
  induction H as [| b l Hb _ IH]; [reflexivity |].
  cbn [map]. rewrite byte_val_of by assumption. f_equal. exact IH.
Qed.

Lemma string_of_bytes_of_string s : string_of_bytes (bytes_of_string s) = s.
Proof.
  unfold bytes_of_string, string_of_bytes.
  rewrite map_map.
  rewrite (map_ext _ (fun c => c) byte_of_val), map_id.
  apply string_of_list_ascii_of_string.
Qed.

Lemma string_of_bytes_app l1 l2 :
  string_of_bytes (l1 ++ l2) = string_of_bytes l1 +:+ string_of_bytes l2.
Proof.
  unfold string_of_bytes. rewrite map_app.
  induction (map byte_of l1) as [| c l IH]; [reflexivity |].
  cbn [app string_of_list_ascii String.append]. rewrite IH. reflexivity.
Qed.

Lemma length_string_of_bytes l :
  String.length (string_of_bytes l) = length l.
Proof.
  unfold string_of_bytes. induction l as [| b l IH]; [reflexivity |].
  cbn. f_equal. exact IH.
Qed.

Lemma runes_of_string_of_runes text :
  Forall scalar text -> runes_of_string (string_of_runes text) = text.
Proof.
  intros H. unfold runes_of_string, string_of_runes.
  rewrite bytes_of_string_of_bytes.
  - rewrite <- (app_nil_r (concat _)).
    rewrite range_runes_encode by assumption. apply app_nil_r.
  - apply Forall_concat, Forall_map.
    eapply Forall_impl; [exact H |]. apply encoderune_bytes.
Qed.

Lemma string_of_runes_app a b :
  string_of_runes (a ++ b) = string_of_runes a +:+ string_of_runes b.
Proof.
  unfold string_of_runes. rewrite map_app, concat_app.
  apply string_of_bytes_app.
Qed.

Lemma length_string_of_runes text :
  Forall scalar text ->
  (length text <= String.length (string_of_runes text))%nat.
Proof.
  intros H. unfold string_of_runes. rewrite length_string_of_bytes.
  induction H as [| r text Hr _ IH]; [reflexivity |].
  cbn [map concat]. rewrite length_app.
  pose proof (encoderune_nonempty r Hr). cbn [length]. lia.
Qed.

Lemma append_cons c (a b : string) : String c a +:+ b = String c (a +:+ b).
Proof. reflexivity. Qed.

Lemma append_nil_r s : s +:+ "" = s.
Proof.
  induction s as [| c s IH]; [reflexivity |].
  rewrite append_cons, IH. reflexivity.
Qed.

Lemma append_assoc (a b c : string) : (a +:+ b) +:+ c = a +:+ (b +:+ c).
Proof.
  induction a as [| x a IH]; [reflexivity |].
  rewrite !append_cons, IH. reflexivity.
Qed.

Lemma join_app l1 l2 : join (l1 ++ l2) = join l1 +:+ join l2.
Proof.
  induction l1 as [| a l1 IH]; [reflexivity |].
  cbn [app join fold_right]. fold (join (l1 ++ l2)). fold (join l1).
  rewrite IH. symmetry. apply append_assoc.
Qed.

Lemma join_string_of_runes parts :
  join (map string_of_runes parts) = string_of_runes (concat parts).
Proof.
  induction parts as [| p parts IH]; [reflexivity |].
  cbn [map join fold_right concat]. fold (join (map string_of_runes parts)).
  rewrite IH. symmetry. apply string_of_runes_app.
Qed.

(** What the loop of [splitTelegramMessage] computes for a positive
    [max]: consecutive parts of [runes], each of 1 to [max] runes. *)
Lemma split_loop_parts (max : Z) :
  0 < max ->
  forall (fuel : nat) (runes : list Z) (res : list string),
    (length runes < fuel)%nat ->
    exists parts : list (list Z),
      split_loop fuel runes max res
      = Returns (res ++ map string_of_runes parts)
      /\ concat parts = runes
      /\ Forall (fun p => (1 <= length p)%nat /\ Z.of_nat (length p) <= max)
           parts.
Proof.
  intros Hmax. induction fuel as [| fuel IH]; intros runes res Hfuel;
    [lia |].
  cbn [split_loop].
  destruct (Z.of_nat (length runes) >? max) eqn:Hgt.
  - apply Z.gtb_lt in Hgt.
    rewrite (proj2 (Z.ltb_ge max 0)) by lia.
    destruct (IH (drop (Z.to_nat max) runes)
                 (res ++ [string_of_runes (take (Z.to_nat max) runes)]))
      as (parts & Hrun & Hcat & Hall).
    { rewrite length_drop. lia. }
    exists (take (Z.to_nat max) runes :: parts). split; [| split].
    + rewrite Hrun, <- app_assoc. reflexivity.
    + cbn [concat]. rewrite Hcat. apply take_drop.
    + constructor; [| exact Hall]. rewrite length_take. lia.
  - assert (Z.of_nat (length runes) <= max) as Hle.
    { destruct (Z.gtb_spec (Z.of_nat (length runes)) max); [discriminate | lia]. }
    destruct (Z.of_nat (length runes) >? 0) eqn:Hpos.
    + apply Z.gtb_lt in Hpos.
      exists [runes]. split; [reflexivity | split].
      * cbn. apply app_nil_r.
      * repeat constructor; lia.
    + exists []. split; [cbn; rewrite app_nil_r; reflexivity | split].
      * destruct runes; [reflexivity | discriminate].
      * constructor.
Qed.

Lemma gtb_false a b : a <= b -> (a >? b) = false.
Proof. intros H. rewrite Z.gtb_ltb. apply Z.ltb_ge. exact H. Qed.

Lemma gtb_true a b : b < a -> (a >? b) = true.
Proof. intros H. rewrite Z.gtb_ltb. apply Z.ltb_lt. exact H. Qed.

(** C8: for every text (a sequence of code points, held by the Go string
    that encodes it) whose length in code points is at most [limit], the
    chunker returns the single-element sequence [[text]], also when the
    string has more than [limit] bytes. *)
Theorem split_short_single (text : list Z) (limit : Z) :
  Forall scalar text ->
  Z.of_nat (length text) <= limit ->
  splitTelegramMessage (string_of_runes text) limit
  = Returns [string_of_runes text].
Proof.
  intros Hs Hlen. unfold splitTelegramMessage.
  destruct (len (string_of_runes text) <=? limit) eqn:Hbytes;
    [reflexivity |].
  apply Z.leb_gt in Hbytes.
  rewrite runes_of_string_of_runes by assumption.
  cbn [split_loop]. rewrite gtb_false by assumption.
  destruct text as [| r text].
  - unfold len in Hbytes. cbn in Hbytes, Hlen. lia.
  - rewrite gtb_true by (cbn [length]; lia). reflexivity.
Qed.

Lemma split_short_single_witness :
  splitTelegramMessage (string_of_runes [104; 233; 8364; 128512]) 4
  = Returns [string_of_runes [104; 233; 8364; 128512]]
  /\ len (string_of_runes [104; 233; 8364; 128512]) = 10.
Proof.
  split; [| reflexivity].
  apply split_short_single.
  - repeat constructor; unfold maxRune, surrogateMin, surrogateMax; lia.
  - cbn. lia.
Defined.

(** C3: for every text and every positive [limit] the chunker returns;
    the pieces concatenated in order are the text; every piece has at most
    [limit] code points; the pieces are the encodings of consecutive runs
    of whole code points of the text, so none splits the bytes of a code
    point; and no piece is empty unless the text is. *)
Theorem split_concat_bounded (text : list Z) (limit : Z) :
  Forall scalar text ->
  0 < limit ->
  exists pieces : list string,
    splitTelegramMessage (string_of_runes text) limit = Returns pieces
    /\ join pieces = string_of_runes text
    /\ Forall (fun p => RuneCountInString p <= limit) pieces
    /\ (exists parts : list (list Z),
          concat parts = text /\ pieces = map string_of_runes parts)
    /\ (text <> [] -> Forall (fun p => p <> "") pieces).
Proof.
  intros Hs Hlimit. unfold splitTelegramMessage.
  destruct (len (string_of_runes text) <=? limit) eqn:Hbytes.
  - apply Z.leb_le in Hbytes. unfold len in Hbytes.
    pose proof (length_string_of_runes text Hs) as Hlen.
    exists [string_of_runes text]. split; [reflexivity |].
    split; [apply append_nil_r |]. split; [| split].
    + repeat constructor. unfold RuneCountInString.
      rewrite runes_of_string_of_runes by assumption. lia.
    + exists [text]. split; [apply app_nil_r | reflexivity].
    + intros Hne. repeat constructor. intros Hempty.
      rewrite Hempty in Hlen. destruct text; [congruence | cbn in Hlen; lia].
  - rewrite runes_of_string_of_runes by assumption.
    destruct (split_loop_parts limit Hlimit (S (length text)) text [])
      as (parts & Hrun & Hcat & Hall); [lia |].
    cbn [app] in Hrun.
    assert (Forall (Forall scalar) parts) as Hparts.
    { apply Forall_concat. rewrite Hcat. exact Hs. }
    exists (map string_of_runes parts). split; [exact Hrun |].
    split; [rewrite join_string_of_runes, Hcat; reflexivity |].
    split; [| split].
    + apply Forall_map. apply Forall_forall. intros p Hp.
      unfold RuneCountInString.
      rewrite runes_of_string_of_runes
        by (eapply Forall_forall in Hparts; eauto).
      eapply Forall_forall in Hall; [| exact Hp]. lia.
    + exists parts. split; [exact Hcat | reflexivity].
    + intros _. apply Forall_map. apply Forall_forall. intros p Hp Hempty.
      assert (Forall scalar p) as Hsp by (eapply Forall_forall in Hparts; eauto).
      pose proof (length_string_of_runes p Hsp) as Hlen.
      rewrite Hempty in Hlen.
      eapply Forall_forall in Hall; [| exact Hp]. cbn in Hlen. lia.
Qed.

Lemma split_concat_bounded_witness :
  exists pieces : list string,
    splitTelegramMessage (string_of_runes [104; 233; 8364; 128512; 33]) 2
    = Returns pieces
    /\ join pieces = string_of_runes [104; 233; 8364; 128512; 33]
    /\ Forall (fun p => RuneCountInString p <= 2) pieces
    /\ (exists parts : list (list Z),
          concat parts = [104; 233; 8364; 128512; 33]
          /\ pieces = map string_of_runes parts)
    /\ ([104; 233; 8364; 128512; 33] <> [] ->
        Forall (fun p => p <> "") pieces).
Proof.
  apply (split_concat_bounded [104; 233; 8364; 128512; 33] 2).
  - repeat constructor; unfold maxRune, surrogateMin, surrogateMax; lia.
  - lia.
Defined.

(** The pieces of that text, computed: two code points each, then one. *)
Example split_by_code_points :
  splitTelegramMessage (string_of_runes [104; 233; 8364; 128512; 33]) 2
  = Returns [string_of_runes [104; 233];
             string_of_runes [8364; 128512];
             string_of_runes [33]].
Proof. vm_compute. reflexivity. Qed.

(** A Go string need not be UTF-8.  On bytes that are not, [[]rune(s)]
    puts U+FFFD for each bad byte, and the pieces spell that instead: here
    three bytes, two runes, and five bytes come back.  The answers the bot
    chunks come out of the JSON decoder, which never yields such bytes. *)
Example split_bytes_not_utf8 :
  splitTelegramMessage (string_of_bytes [0xC3; 0xA9; 0xFF]) 2
  = Returns [string_of_bytes [0xC3; 0xA9; 0xEF; 0xBF; 0xBD]].
Proof. vm_compute. reflexivity. Qed.

(** With [max = 0] and a text that is not empty the loop makes no
    progress, and a negative [max] panics in the slice expression. *)
Example split_zero_limit : splitTelegramMessage "abc" 0 = OutOfFuel.
Proof. vm_compute. reflexivity. Qed.

Example split_negative_limit : splitTelegramMessage "abc" (-1) = Panics.
Proof. vm_compute. reflexivity. Qed.

(** With [max = 0] the loop of the chunker never ends on a text that is
    not empty: no amount of fuel is enough. *)
Lemma split_loop_zero_limit (fuel : nat) (runes : list Z)
    (res : list string) :
  runes <> [] -> split_loop fuel runes 0 res = OutOfFuel.
Proof.
  intros Hne. revert res.
  induction fuel as [| fuel IH]; intros res; [reflexivity |].
  cbn [split_loop].
  rewrite gtb_true by (destruct runes; [congruence | cbn [length]; lia]).
  cbn. apply IH.
Qed.

(** ** The authorization gate *)

Lemma select_one_table (d : auth.DB) (id : Z) :
  auth.users (snd (auth.select_one d id)) = auth.users d.
Proof.
  unfold auth.select_one, auth.next_fault.
  destruct (auth.faults d) as [| [e |] rest]; reflexivity.
Qed.

Lemma IsAuthorized_table (s : option auth.UserStore) (id : Z) :
  auth.table (snd (auth.IsAuthorized s id)) = auth.table s.
Proof.
  destruct s as [u |]; [| reflexivity]. unfold auth.IsAuthorized.
  destruct (negb (auth.enabled u)); [reflexivity |].
  destruct (id =? auth.adminID u); [reflexivity |].
  pose proof (select_one_table (auth.db u) id) as H.
  destruct (auth.select_one (auth.db u) id) as [[| | e] d]; exact H.
Qed.

(** C2: [decide] is [Allow] when authorization is disabled; when it is
    enabled, [Allow] for the admin whatever the store holds or does, and
    for anyone else what the store's query reports: [Allow] for a member,
    [Deny] for a non-member, and [Error], not [Deny], when the query
    fails. *)
Theorem decide_spec (s : option auth.UserStore) (userID : Z) :
  (auth.IsEnabled s = false -> decide s userID = Allow)
  /\ (forall u : auth.UserStore,
        s = Some u -> auth.enabled u = true ->
        (userID = auth.adminID u -> decide s userID = Allow)
        /\ (userID <> auth.adminID u ->
            match fst (auth.next_fault (auth.db u)) with
            | Some _ => decide s userID = Error
            | None =>
              match auth.users (auth.db u) !! userID with
              | Some _ => decide s userID = Allow
              | None => decide s userID = Deny
              end
            end)).
Proof.
  split.
  - unfold decide, auth.IsAuthorized, auth.IsEnabled.
    destruct s as [u |]; [| reflexivity].
    intros ->. reflexivity.
  - intros u -> Hen. unfold decide, auth.IsAuthorized. rewrite Hen.
    cbn [negb]. split.
    + intros ->. rewrite Z.eqb_refl. reflexivity.
    + intros Hne. rewrite (proj2 (Z.eqb_neq _ _) Hne).
      unfold auth.select_one, auth.next_fault.
      destruct (auth.faults (auth.db u)) as [| [e |] rest]; cbn.
      * destruct (auth.users (auth.db u) !! userID); reflexivity.
      * reflexivity.
      * destruct (auth.users (auth.db u) !! userID); reflexivity.
Qed.

Lemma decide_spec_witness :
  decide None 5 = Allow
  /\ decide (example_store ∅ [Some "disk I/O error"]) 100 = Allow
  /\ decide (example_store ∅ [Some "disk I/O error"]) 5 = Error
  /\ decide (example_store {[ 5 := ("c", "l") ]} []) 5 = Allow
  /\ decide (example_store {[ 5 := ("c", "l") ]} []) 6 = Deny.
Proof.
  assert (5 <> 100) as H5 by lia. assert (6 <> 100) as H6 by lia.
  split; [apply (decide_spec None 5); reflexivity |].
  split.
  { exact (proj1 (proj2 (decide_spec (example_store ∅ [Some "disk I/O error"])
                           100) _ eq_refl eq_refl) eq_refl). }
  split.
  { exact (proj2 (proj2 (decide_spec (example_store ∅ [Some "disk I/O error"])
                           5) _ eq_refl eq_refl) H5). }
  split.
  { exact (proj2 (proj2 (decide_spec (example_store {[ 5 := ("c", "l") ]} [])
                           5) _ eq_refl eq_refl) H5). }
  exact (proj2 (proj2 (decide_spec (example_store {[ 5 := ("c", "l") ]} [])
                         6) _ eq_refl eq_refl) H6).
Defined.

(** ** [AddUser] *)

(** C10: on an enabled store whose statement runs, [AddUser] of an id that
    has a row sets that row's [last_activity] and keeps its [created_at];
    of an id that has no row, inserts the row; and every other row is as
    it was. *)
Theorem AddUser_frame (u : auth.UserStore) (now : string) (id : Z) :
  auth.enabled u = true ->
  fst (auth.next_fault (auth.db u)) = None ->
  fst (auth.AddUser (Some u) now id) = None
  /\ (forall created last : string,
        auth.users (auth.db u) !! id = Some (created, last) ->
        auth.table (snd (auth.AddUser (Some u) now id)) !! id
        = Some (created, now))
  /\ (auth.users (auth.db u) !! id = None ->
      auth.table (snd (auth.AddUser (Some u) now id)) !! id
      = Some (now, now))
  /\ (forall other : Z,
        other <> id ->
        auth.table (snd (auth.AddUser (Some u) now id)) !! other
        = auth.users (auth.db u) !! other).
Proof.
  intros Hen Hfault. unfold auth.AddUser, auth.upsert. rewrite Hen.
  cbn [negb].
  assert (auth.users (snd (auth.next_fault (auth.db u)))
          = auth.users (auth.db u)) as Hsame.
  { unfold auth.next_fault. destruct (auth.faults (auth.db u)); reflexivity. }
  destruct (auth.next_fault (auth.db u)) as [f d] eqn:Hnext.
  cbn [fst snd] in Hfault, Hsame. subst f. cbn [fst snd auth.table auth.set_db
    auth.db auth.users]. rewrite Hsame.
  split; [reflexivity |]. split; [| split].
  - intros created last Hrow. rewrite Hrow. apply lookup_insert_eq.
  - intros Hrow. rewrite Hrow. apply lookup_insert_eq.
  - intros other Hne.
    destruct (auth.users (auth.db u) !! id) as [[c l] |];
      apply lookup_insert_ne; congruence.
Qed.

Lemma AddUser_frame_witness :
  fst (auth.AddUser (example_store {[ 5 := ("c5", "l5") ]} []) "t1" 5) = None
  /\ auth.table (snd (auth.AddUser (example_store {[ 5 := ("c5", "l5") ]} [])
                        "t1" 5)) !! 5 = Some ("c5", "t1")
  /\ auth.table (snd (auth.AddUser (example_store {[ 5 := ("c5", "l5") ]} [])
                        "t1" 6)) !! 6 = Some ("t1", "t1")
  /\ auth.table (snd (auth.AddUser (example_store {[ 5 := ("c5", "l5") ]} [])
                        "t1" 6)) !! 5 = Some ("c5", "l5").
Proof.
  pose proof (AddUser_frame
                (auth.mkUserStore true 100
                   (auth.mkDB {[ 5 := ("c5", "l5") ]} []))
                "t1" 5 eq_refl eq_refl) as (H1 & H2 & _ & _).
  pose proof (AddUser_frame
                (auth.mkUserStore true 100
                   (auth.mkDB {[ 5 := ("c5", "l5") ]} []))
                "t1" 6 eq_refl eq_refl) as (_ & _ & H3 & H4).
  split; [exact H1 |]. split; [exact (H2 "c5" "l5" eq_refl) |].
  split; [exact (H3 eq_refl) |].
  assert (5 <> 6) as Hne by lia. exact (H4 5 Hne).
Defined.

(** When the statement fails, or the store is disabled, nothing is
    written. *)
Lemma AddUser_table_on_error (s : option auth.UserStore) (now : string)
    (id : Z) (e : string) :
  fst (auth.AddUser s now id) = Some e ->
  auth.table (snd (auth.AddUser s now id)) = auth.table s.
Proof.
  destruct s as [u |]; [| discriminate]. unfold auth.AddUser, auth.upsert.
  destruct (negb (auth.enabled u)); [discriminate |].
  unfold auth.next_fault.
  destruct (auth.faults (auth.db u)) as [| [e' |] rest]; cbn;
    try discriminate.
  reflexivity.
Qed.

(** ** The loop body *)

Lemma spawned_app (e1 e2 : list effect) :
  spawned (e1 ++ e2) = spawned e1 ++ spawned e2.
Proof.
  induction e1 as [| [c | l | t] e1 IH]; cbn; [reflexivity | exact IH
    | exact IH | rewrite IH; reflexivity].
Qed.

Lemma handleAddUser_quiet (b : Bot) (now : string) (chatID : Z)
    (text : string) :
  model (fst (handleAddUser b now chatID text)) = model b
  /\ spawned (snd (handleAddUser b now chatID text)) = [].
Proof.
  unfold handleAddUser.
  destruct (Fields text) as [| cmd [| arg rest]]; [split; reflexivity .. |].
  destruct (parseInt64 arg) as [toAdd |]; [| split; reflexivity].
  destruct (auth.AddUser (userStore b) now toAdd) as [[err |] s];
    split; reflexivity.
Qed.

Lemma handleListUsers_quiet (b : Bot) (chatID : Z) :
  model (fst (handleListUsers b chatID)) = model b
  /\ spawned (snd (handleListUsers b chatID)) = [].
Proof.
  unfold handleListUsers.
  destruct (auth.ListUsers (userStore b) 200) as [[[| row rows] [err |]] s];
    split; reflexivity.
Qed.

Lemma handleWhoAmI_quiet (b : Bot) (chatID userID : Z) :
  model (fst (handleWhoAmI b chatID userID)) = model b
  /\ spawned (snd (handleWhoAmI b chatID userID)) = [].
Proof.
  unfold handleWhoAmI.
  destruct (auth.IsEnabled (userStore b)); [| split; reflexivity].
  destruct (auth.IsAuthorized (userStore b) userID) as [[allowed err] s].
  split; reflexivity.
Qed.

Lemma handleModelCommand_quiet (b : Bot) (chatID : Z) (text : string) :
  spawned (snd (handleModelCommand b chatID text)) = [].
Proof.
  unfold handleModelCommand.
  destruct (Fields text) as [| cmd [| arg rest]]; reflexivity.
Qed.

Lemma authorize_quiet (b : Bot) (now : string) (chatID userID : Z) :
  match authorize b now chatID userID with
  | inl (b', effects) | inr (b', effects) =>
    model b' = model b /\ spawned effects = []
  end.
Proof.
  unfold authorize.
  destruct (auth.IsEnabled (userStore b)); [| split; reflexivity].
  destruct (auth.IsAuthorized (userStore b) userID)
    as [[[|] [err |]] s]; try (split; reflexivity).
  destruct (auth.Touch s now userID) as [[err |] s']; split; reflexivity.
Qed.

Lemma dispatch_spawned (b : Bot) (chatID : Z) (text : string) :
  spawned (snd (dispatch b chatID text)) = []
  \/ spawned (snd (dispatch b chatID text))
     = [mkQueryTask chatID text (model b)].
Proof.
  unfold dispatch.
  destruct (HasPrefix text "/start"); [left; reflexivity |].
  destruct (HasPrefix text "/model");
    [left; apply handleModelCommand_quiet | right; reflexivity].
Qed.

(** A turn of the loop starts at most one goroutine, and hands it the
    model the bot has at that turn. *)
Lemma handleUpdate_snapshot (b : Bot) (now : string) (u : Update) :
  spawned (snd (handleUpdate b now u)) = []
  \/ exists (chatID : Z) (prompt : string),
       spawned (snd (handleUpdate b now u))
       = [mkQueryTask chatID prompt (model b)].
Proof.
  unfold handleUpdate.
  destruct (Update_Message u) as [m |]; [| left; reflexivity].
  destruct (From m) as [from |]; [| left; reflexivity].
  destruct (String.eqb (TrimSpace (Text m)) ""); [left; reflexivity |].
  destruct (_ && HasPrefix _ "/adduser");
    [left; apply handleAddUser_quiet |].
  destruct (_ && HasPrefix _ "/listusers");
    [left; apply handleListUsers_quiet |].
  destruct (HasPrefix _ "/whoami"); [left; apply handleWhoAmI_quiet |].
  pose proof (authorize_quiet b now (Chat_ID m) (User_ID from)) as Hq.
  destruct (authorize b now (Chat_ID m) (User_ID from))
    as [[b1 stop] | [b1 logged]]; destruct Hq as [Hm Hs].
  - left. exact Hs.
  - pose proof (dispatch_spawned b1 (Chat_ID m) (TrimSpace (Text m))) as Hd.
    destruct (dispatch b1 (Chat_ID m) (TrimSpace (Text m))) as [b2 effects].
    cbn [snd] in *. rewrite spawned_app, Hs. cbn [app].
    destruct Hd as [Hd | Hd]; [left; exact Hd |].
    right. exists (Chat_ID m), (TrimSpace (Text m)). rewrite Hd, Hm.
    reflexivity.
Qed.

(** ** Command recognition *)

Lemma start_prefixes (suffix : string) :
  HasPrefix ("/start" +:+ suffix) "/start" = true
  /\ HasPrefix ("/start" +:+ suffix) "/whoami" = false
  /\ HasPrefix ("/start" +:+ suffix) "/adduser" = false
  /\ HasPrefix ("/start" +:+ suffix) "/listusers" = false
  /\ String.eqb ("/start" +:+ suffix) "" = false.
Proof. repeat split; reflexivity. Qed.

Lemma model_prefixes (suffix : string) :
  HasPrefix ("/model" +:+ suffix) "/model" = true
  /\ HasPrefix ("/model" +:+ suffix) "/start" = false
  /\ HasPrefix ("/model" +:+ suffix) "/whoami" = false
  /\ HasPrefix ("/model" +:+ suffix) "/adduser" = false
  /\ HasPrefix ("/model" +:+ suffix) "/listusers" = false
  /\ String.eqb ("/model" +:+ suffix) "" = false.
Proof. repeat split; reflexivity. Qed.

Lemma whoami_prefixes (suffix : string) :
  HasPrefix ("/whoami" +:+ suffix) "/whoami" = true
  /\ HasPrefix ("/whoami" +:+ suffix) "/adduser" = false
  /\ HasPrefix ("/whoami" +:+ suffix) "/listusers" = false
  /\ String.eqb ("/whoami" +:+ suffix) "" = false.
Proof. repeat split; reflexivity. Qed.

(** C1, as the code has it: commands are recognised by [HasPrefix] on the
    normalized text.  A text that starts with [/start], [/model] or
    [/whoami] goes to that command's handler whatever follows the word
    ([/start] and [/model] once the authorization check has let the
    message through); a text is a free-form query, with its typing
    indicator and its goroutine, when [command_prefix] is false and the
    check lets it through; no text with [command_prefix] true starts a
    query, nor does a message the check stops; and an empty text is
    dropped. *)
Theorem commands_match_by_prefix (b : Bot) (now : string)
    (chatID userID : Z) (raw : string) :
  (forall (suffix : string) (b1 : Bot) (logged : list effect),
     TrimSpace raw = "/start" +:+ suffix ->
     authorize b now chatID userID = inr (b1, logged) ->
     handleUpdate b now
       (mkUpdate (Some (mkMessage chatID (Some (mkUser userID)) raw)))
     = (b1, logged ++ [Send (MessageConfig chatID (text_greeting (model b1))
                               "Markdown" false)]))
  /\ (forall (suffix : string) (b1 : Bot) (logged : list effect),
        TrimSpace raw = "/model" +:+ suffix ->
        authorize b now chatID userID = inr (b1, logged) ->
        handleUpdate b now
          (mkUpdate (Some (mkMessage chatID (Some (mkUser userID)) raw)))
        = (fst (handleModelCommand b1 chatID (TrimSpace raw)),
           logged ++ snd (handleModelCommand b1 chatID (TrimSpace raw))))
  /\ (forall suffix : string,
        TrimSpace raw = "/whoami" +:+ suffix ->
        handleUpdate b now
          (mkUpdate (Some (mkMessage chatID (Some (mkUser userID)) raw)))
        = handleWhoAmI b chatID userID)
  /\ (forall (b1 : Bot) (logged : list effect),
        TrimSpace raw <> "" ->
        command_prefix b userID (TrimSpace raw) = false ->
        authorize b now chatID userID = inr (b1, logged) ->
        handleUpdate b now
          (mkUpdate (Some (mkMessage chatID (Some (mkUser userID)) raw)))
        = (b1, logged ++ [Send (NewChatAction chatID ChatTyping);
                          Go (mkQueryTask chatID (TrimSpace raw)
                                (model b1))]))
  /\ (command_prefix b userID (TrimSpace raw) = true ->
      spawned (snd (handleUpdate b now
                      (mkUpdate (Some (mkMessage chatID (Some (mkUser userID))
                                         raw)))))
      = [])
  /\ (forall stop : Bot * list effect,
        authorize b now chatID userID = inl stop ->
        spawned (snd (handleUpdate b now
                        (mkUpdate (Some (mkMessage chatID
                                           (Some (mkUser userID)) raw)))))
        = [])
  /\ (TrimSpace raw = "" ->
      handleUpdate b now
        (mkUpdate (Some (mkMessage chatID (Some (mkUser userID)) raw)))
      = (b, [])).
Proof.
  unfold handleUpdate.
  cbn [Update_Message From Chat_ID User_ID Text].
  split; [| split; [| split; [| split; [| split; [| split]]]]].
  - intros suffix b1 logged Htext Hauth. rewrite Htext, Hauth.
    destruct (start_prefixes suffix) as (Hs & Hw & Ha & Hl & He).
    rewrite He, Ha, Hl, Hw, !andb_false_r. unfold dispatch. rewrite Hs.
    reflexivity.
  - intros suffix b1 logged Htext Hauth. rewrite Htext, Hauth.
    destruct (model_prefixes suffix) as (Hm & Hs & Hw & Ha & Hl & He).
    rewrite He, Ha, Hl, Hw, !andb_false_r. unfold dispatch.
    rewrite Hs, Hm.
    destruct (handleModelCommand b1 chatID ("/model" +:+ suffix));
      reflexivity.
  - intros suffix Htext. rewrite Htext.
    destruct (whoami_prefixes suffix) as (Hw & Ha & Hl & He).
    rewrite He, Ha, Hl, Hw, !andb_false_r. reflexivity.
  - intros b1 logged Hne Hcmd Hauth. unfold command_prefix in Hcmd.
    apply orb_false_elim in Hcmd as [Hcmd Hm].
    apply orb_false_elim in Hcmd as [Hcmd Hs].
    apply orb_false_elim in Hcmd as [Hadm Hw].
    assert (String.eqb (TrimSpace raw) "" = false) as ->
      by (apply String.eqb_neq; exact Hne).
    rewrite Hw, Hauth. unfold dispatch. rewrite Hs, Hm.
    destruct (auth.IsEnabled (userStore b) && auth.IsAdmin (userStore b) userID);
      [| reflexivity].
    cbn [andb] in Hadm |- *. apply orb_false_elim in Hadm as [-> ->].
    reflexivity.
  - intros Hcmd. unfold command_prefix in Hcmd.
    destruct (String.eqb (TrimSpace raw) ""); [reflexivity |].
    destruct (auth.IsEnabled (userStore b) && auth.IsAdmin (userStore b) userID)
      eqn:Hadm; cbn [andb orb] in Hcmd |- *.
    + destruct (HasPrefix (TrimSpace raw) "/adduser");
        [apply handleAddUser_quiet |].
      destruct (HasPrefix (TrimSpace raw) "/listusers");
        [apply handleListUsers_quiet |].
      cbn [orb] in Hcmd.
      destruct (HasPrefix (TrimSpace raw) "/whoami");
        [apply handleWhoAmI_quiet |].
      pose proof (authorize_quiet b now chatID userID) as Hq.
      destruct (authorize b now chatID userID) as [[b1 stop] | [b1 logged]];
        destruct Hq as [_ Hq]; [exact Hq |].
      unfold dispatch. cbn [orb] in Hcmd.
      destruct (HasPrefix (TrimSpace raw) "/start");
        [cbn; rewrite spawned_app, Hq; reflexivity |].
      cbn [orb] in Hcmd. rewrite Hcmd.
      pose proof (handleModelCommand_quiet b1 chatID (TrimSpace raw)) as Hh.
      destruct (handleModelCommand b1 chatID (TrimSpace raw)).
      cbn [snd] in *. rewrite spawned_app, Hq, Hh. reflexivity.
    + destruct (HasPrefix (TrimSpace raw) "/whoami");
        [apply handleWhoAmI_quiet |].
      pose proof (authorize_quiet b now chatID userID) as Hq.
      destruct (authorize b now chatID userID) as [[b1 stop] | [b1 logged]];
        destruct Hq as [_ Hq]; [exact Hq |].
      unfold dispatch. cbn [orb] in Hcmd.
      destruct (HasPrefix (TrimSpace raw) "/start");
        [cbn; rewrite spawned_app, Hq; reflexivity |].
      cbn [orb] in Hcmd. rewrite Hcmd.
      pose proof (handleModelCommand_quiet b1 chatID (TrimSpace raw)) as Hh.
      destruct (handleModelCommand b1 chatID (TrimSpace raw)).
      cbn [snd] in *. rewrite spawned_app, Hq, Hh. reflexivity.
  - intros stop Hauth.
    destruct (String.eqb (TrimSpace raw) ""); [reflexivity |].
    destruct (_ && HasPrefix _ "/adduser"); [apply handleAddUser_quiet |].
    destruct (_ && HasPrefix _ "/listusers");
      [apply handleListUsers_quiet |].
    destruct (HasPrefix _ "/whoami"); [apply handleWhoAmI_quiet |].
    pose proof (authorize_quiet b now chatID userID) as Hq.
    rewrite Hauth in Hq |- *. destruct stop as [b1 effects]. apply Hq.
  - intros ->. reflexivity.
Qed.

Lemma exact_token_counterexample :
  first_token_is_command "/startfoo" = false
  /\ handleUpdate (NewBot None "http://ollama:11434" "llama3.1") "t"
       (example_update 1 "/startfoo")
     = (NewBot None "http://ollama:11434" "llama3.1",
        [Send (MessageConfig 7 (text_greeting "llama3.1") "Markdown" false)])
  /\ first_token_is_command "/modelx mistral" = false
  /\ handleUpdate (NewBot None "http://ollama:11434" "llama3.1") "t"
       (example_update 1 "/modelx mistral")
     = (NewBot None "http://ollama:11434" "mistral",
        [Send (MessageConfig 7 (text_model_changed "mistral")
                 "Markdown" false)]).
Proof. repeat split; vm_compute; reflexivity. Qed.

Lemma commands_match_by_prefix_witness :
  handleUpdate (NewBot None "http://ollama:11434" "llama3.1") "t"
    (mkUpdate (Some (mkMessage 7 (Some (mkUser 1)) " /startfoo ")))
  = (NewBot None "http://ollama:11434" "llama3.1",
     [] ++ [Send (MessageConfig 7 (text_greeting "llama3.1")
                    "Markdown" false)])
  /\ handleUpdate (NewBot None "http://ollama:11434" "llama3.1") "t"
       (mkUpdate (Some (mkMessage 7 (Some (mkUser 1)) "start /model")))
     = (NewBot None "http://ollama:11434" "llama3.1",
        [] ++ [Send (NewChatAction 7 ChatTyping);
               Go (mkQueryTask 7 (TrimSpace "start /model") "llama3.1")]).
Proof.
  split.
  - exact (proj1 (commands_match_by_prefix
                    (NewBot None "http://ollama:11434" "llama3.1") "t" 7 1
                    " /startfoo ")
             "foo" (NewBot None "http://ollama:11434" "llama3.1") []
             eq_refl eq_refl).
  - refine (proj1 (proj2 (proj2 (proj2 (commands_match_by_prefix
                    (NewBot None "http://ollama:11434" "llama3.1") "t" 7 1
                    "start /model"))))
             (NewBot None "http://ollama:11434" "llama3.1") []
             _ eq_refl eq_refl).
    vm_compute. discriminate.
Defined.

(** ** Store failures and the activity timestamp *)

Lemma IsAdmin_decide (s : option auth.UserStore) (userID : Z) :
  auth.IsAdmin s userID = true -> decide s userID = Allow.
Proof.
  destruct s as [u |]; [| discriminate]. cbn [auth.IsAdmin].
  intros H. apply andb_true_iff in H as [Hen Hid].
  unfold decide, auth.IsAuthorized. rewrite Hen, Hid. reflexivity.
Qed.

Lemma ListUsers_table (s : option auth.UserStore) (limit : Z) :
  auth.table (snd (auth.ListUsers s limit)) = auth.table s.
Proof.
  destruct s as [u |]; [| reflexivity]. unfold auth.ListUsers.
  destruct (negb (auth.enabled u)); [reflexivity |].
  unfold auth.select_all, auth.next_fault.
  destruct (auth.faults (auth.db u)) as [| [e |] rest]; reflexivity.
Qed.

Lemma handleModelCommand_store (b : Bot) (chatID : Z) (text : string) :
  userStore (fst (handleModelCommand b chatID text)) = userStore b.
Proof.
  unfold handleModelCommand.
  destruct (Fields text) as [| cmd [| arg rest]]; reflexivity.
Qed.

Lemma dispatch_store (b : Bot) (chatID : Z) (text : string) :
  userStore (fst (dispatch b chatID text)) = userStore b.
Proof.
  unfold dispatch.
  destruct (HasPrefix text "/start"); [reflexivity |].
  destruct (HasPrefix text "/model");
    [apply handleModelCommand_store | reflexivity].
Qed.

Lemma handleWhoAmI_table (b : Bot) (chatID userID : Z) :
  auth.table (userStore (fst (handleWhoAmI b chatID userID)))
  = auth.table (userStore b).
Proof.
  unfold handleWhoAmI.
  destruct (auth.IsEnabled (userStore b)); [| reflexivity].
  pose proof (IsAuthorized_table (userStore b) userID) as H.
  destruct (auth.IsAuthorized (userStore b) userID) as [[allowed err] s].
  exact H.
Qed.

Lemma handleListUsers_table (b : Bot) (chatID : Z) :
  auth.table (userStore (fst (handleListUsers b chatID)))
  = auth.table (userStore b).
Proof.
  unfold handleListUsers.
  pose proof (ListUsers_table (userStore b) 200) as H.
  destruct (auth.ListUsers (userStore b) 200) as [[[| row rows] [err |]] s];
    exact H.
Qed.

(** The authorization check writes to the table only after an [Allow]. *)
Lemma authorize_table (b : Bot) (now : string) (chatID userID : Z) :
  match authorize b now chatID userID with
  | inl (b', _) => auth.table (userStore b') = auth.table (userStore b)
  | inr (b', _) =>
    auth.table (userStore b') = auth.table (userStore b)
    \/ decide (userStore b) userID = Allow
  end.
Proof.
  unfold authorize, decide.
  destruct (auth.IsEnabled (userStore b)); [| left; reflexivity].
  pose proof (IsAuthorized_table (userStore b) userID) as H.
  destruct (auth.IsAuthorized (userStore b) userID)
    as [[[|] [err |]] s]; cbn [snd] in H; try exact H.
  destruct (auth.Touch s now userID) as [[err |] s']; right; reflexivity.
Qed.

(** A turn of the loop leaves the table as it is unless the sender is
    allowed. *)
Lemma handleUpdate_table (b : Bot) (now : string) (chatID userID : Z)
    (raw : string) :
  auth.table (userStore (fst (handleUpdate b now
     (mkUpdate (Some (mkMessage chatID (Some (mkUser userID)) raw))))))
  = auth.table (userStore b)
  \/ decide (userStore b) userID = Allow.
Proof.
  unfold handleUpdate. cbn [Update_Message From Chat_ID User_ID Text].
  destruct (String.eqb (TrimSpace raw) ""); [left; reflexivity |].
  destruct (auth.IsAdmin (userStore b) userID) eqn:Hadm.
  { right. apply IsAdmin_decide. exact Hadm. }
  rewrite !andb_false_r. cbn [andb].
  destruct (HasPrefix (TrimSpace raw) "/whoami");
    [left; apply handleWhoAmI_table |].
  pose proof (authorize_table b now chatID userID) as Ha.
  destruct (authorize b now chatID userID) as [[b1 stop] | [b1 logged]];
    [left; exact Ha |].
  pose proof (dispatch_store b1 chatID (TrimSpace raw)) as Hd.
  destruct (dispatch b1 chatID (TrimSpace raw)) as [b2 effects].
  cbn [fst] in *. rewrite Hd. exact Ha.
Qed.

Lemma auth_error_text_differs : text_auth_error <> text_not_allowed.
Proof. intros H. vm_compute in H. discriminate H. Qed.

Lemma HasPrefix_nonempty (s pre : string) :
  pre <> "" -> HasPrefix s pre = true -> String.eqb s "" = false.
Proof.
  destruct pre as [| p pre]; [congruence |]. intros _.
  destruct s as [| c s]; [discriminate | reflexivity].
Qed.

(** Any turn of the loop leaves the table as it is unless the update
    carries a message whose sender is allowed. *)
Lemma handleUpdate_table_allow (b : Bot) (now : string) (upd : Update) :
  auth.table (userStore (fst (handleUpdate b now upd)))
  <> auth.table (userStore b) ->
  exists (m : Message) (from : User),
    Update_Message upd = Some m /\ From m = Some from
    /\ decide (userStore b) (User_ID from) = Allow.
Proof.
  destruct upd as [[[chatID [[userID] |] raw] |]];
    try (intros H; exfalso; apply H; reflexivity).
  intros Hchanged. eexists. eexists.
  split; [reflexivity |]. split; [reflexivity |].
  destruct (handleUpdate_table b now chatID userID raw) as [H | H];
    [contradiction | exact H].
Qed.

(** C7, as the code has it.  When the store's query fails for a sender who
    is not the admin: a text that is not blank and does not start with
    [/whoami] gets the try-again-later text and a log line, nothing is
    dispatched and the table is as it was; the try-again-later text is
    not the not-allowed text; a text that starts with [/whoami] is
    answered before the check, with the report whose last line is
    [Allowed: ERROR] and the store's error.  And in every turn, whatever
    the bot and the update, the table changes only for a sender whose
    outcome is [Allow]. *)
Theorem auth_error_stops :
  (forall (b : Bot) (u : auth.UserStore) (now : string) (chatID userID : Z)
          (raw e : string) (rest : list auth.error),
     userStore b = Some u ->
     auth.enabled u = true ->
     userID <> auth.adminID u ->
     auth.faults (auth.db u) = Some e :: rest ->
     TrimSpace raw <> "" ->
     HasPrefix (TrimSpace raw) "/whoami" = false ->
     handleUpdate b now
       (mkUpdate (Some (mkMessage chatID (Some (mkUser userID)) raw)))
     = (set_store b
          (Some (auth.set_db u (auth.mkDB (auth.users (auth.db u)) rest))),
        [Log ("auth error for user " +:+ FormatInt userID +:+ ": " +:+ e);
         Send (NewMessage chatID text_auth_error)])
     /\ auth.table (userStore (fst (handleUpdate b now
          (mkUpdate (Some (mkMessage chatID (Some (mkUser userID)) raw))))))
        = auth.table (userStore b))
  /\ text_auth_error <> text_not_allowed
  /\ (forall (b : Bot) (u : auth.UserStore) (now : string)
             (chatID userID : Z) (raw e : string) (rest : list auth.error),
        userStore b = Some u ->
        auth.enabled u = true ->
        userID <> auth.adminID u ->
        auth.faults (auth.db u) = Some e :: rest ->
        HasPrefix (TrimSpace raw) "/whoami" = true ->
        handleUpdate b now
          (mkUpdate (Some (mkMessage chatID (Some (mkUser userID)) raw)))
        = (set_store b
             (Some (auth.set_db u
                      (auth.mkDB (auth.users (auth.db u)) rest))),
           [Send (NewMessage chatID
                    (text_whoami userID false
                       ("- Allowed: ERROR (" +:+ e +:+ ")")))]))
  /\ (forall (b : Bot) (now : string) (upd : Update),
        auth.table (userStore (fst (handleUpdate b now upd)))
        <> auth.table (userStore b) ->
        exists (m : Message) (from : User),
          Update_Message upd = Some m /\ From m = Some from
          /\ decide (userStore b) (User_ID from) = Allow).
Proof.
  assert (forall (b : Bot) (u : auth.UserStore) (userID : Z) (e : string)
                 (rest : list auth.error),
            userStore b = Some u -> auth.enabled u = true ->
            userID <> auth.adminID u ->
            auth.faults (auth.db u) = Some e :: rest ->
            auth.IsEnabled (userStore b) = true
            /\ auth.IsAdmin (userStore b) userID = false
            /\ auth.IsAuthorized (userStore b) userID
               = ((false, Some e),
                  Some (auth.set_db u
                          (auth.mkDB (auth.users (auth.db u)) rest))))
    as Hstore.
  { intros b u userID e rest Hs Hen Hadm Hfault. rewrite Hs.
    unfold auth.IsEnabled, auth.IsAdmin, auth.IsAuthorized.
    rewrite Hen, (proj2 (Z.eqb_neq _ _) Hadm). cbn [negb andb].
    unfold auth.select_one, auth.next_fault. rewrite Hfault.
    repeat split; reflexivity. }
  split; [| split; [exact auth_error_text_differs | split]].
  - intros b u now chatID userID raw e rest Hs Hen Hadm Hfault Hne Hwho.
    destruct (Hstore b u userID e rest Hs Hen Hadm Hfault)
      as (Henabled & Hadmin & Hquery).
    assert (handleUpdate b now
              (mkUpdate (Some (mkMessage chatID (Some (mkUser userID)) raw)))
            = (set_store b
                 (Some (auth.set_db u
                          (auth.mkDB (auth.users (auth.db u)) rest))),
               [Log ("auth error for user " +:+ FormatInt userID +:+ ": "
                     +:+ e);
                Send (NewMessage chatID text_auth_error)])) as Hrun.
    { unfold handleUpdate. cbn [Update_Message From Chat_ID User_ID Text].
      destruct (String.eqb_spec (TrimSpace raw) "") as [| _];
        [contradiction |].
      rewrite Henabled, Hadmin, Hwho. cbn [andb].
      unfold authorize. rewrite Henabled, Hquery. reflexivity. }
    split; [exact Hrun |]. rewrite Hrun, Hs. reflexivity.
  - intros b u now chatID userID raw e rest Hs Hen Hadm Hfault Hwho.
    destruct (Hstore b u userID e rest Hs Hen Hadm Hfault)
      as (Henabled & Hadmin & Hquery).
    unfold handleUpdate. cbn [Update_Message From Chat_ID User_ID Text].
    rewrite (HasPrefix_nonempty _ "/whoami" ltac:(discriminate) Hwho).
    rewrite Henabled, Hadmin, Hwho. cbn [andb].
    unfold handleWhoAmI. rewrite Henabled, Hadmin, Hquery.
    unfold text_whoami. rewrite <- !append_assoc. reflexivity.
  - exact handleUpdate_table_allow.
Qed.

Lemma auth_error_stops_witness :
  handleUpdate
    (mkBot (example_store {[ 5 := ("c5", "l5") ]} [Some "disk I/O error"])
       "http://ollama:11434" "llama3.1")
    "t1" (example_update 5 "hello")
  = (mkBot (example_store {[ 5 := ("c5", "l5") ]} [])
       "http://ollama:11434" "llama3.1",
     [Log "auth error for user 5: disk I/O error";
      Send (NewMessage 7 text_auth_error)])
  /\ snd (handleUpdate
            (mkBot (example_store {[ 5 := ("c5", "l5") ]}
                      [Some "disk I/O error"])
               "http://ollama:11434" "llama3.1")
            "t1" (example_update 5 "/whoami"))
     = [Send (NewMessage 7
                (text_whoami 5 false "- Allowed: ERROR (disk I/O error)"))]
  /\ decide (example_store {[ 5 := ("c5", "l5") ]} []) 5 = Allow.
Proof.
  assert (5 <> 100) as Hadm by lia.
  assert (TrimSpace "hello" <> "") as Hne by (vm_compute; discriminate).
  destruct auth_error_stops as (Herror & _ & Hwhoami & Hchange).
  split.
  { exact (proj1 (Herror
                    (mkBot (example_store {[ 5 := ("c5", "l5") ]}
                              [Some "disk I/O error"])
                       "http://ollama:11434" "llama3.1")
                    (auth.mkUserStore true 100
                       (auth.mkDB {[ 5 := ("c5", "l5") ]}
                          [Some "disk I/O error"]))
                    "t1" 7 5 "hello" "disk I/O error" []
                    eq_refl eq_refl Hadm eq_refl Hne eq_refl)). }
  split.
  { rewrite (Hwhoami
               (mkBot (example_store {[ 5 := ("c5", "l5") ]}
                         [Some "disk I/O error"])
                  "http://ollama:11434" "llama3.1")
               (auth.mkUserStore true 100
                  (auth.mkDB {[ 5 := ("c5", "l5") ]}
                     [Some "disk I/O error"]))
               "t1" 7 5 "/whoami" "disk I/O error" []
               eq_refl eq_refl Hadm eq_refl eq_refl).
    reflexivity. }
  destruct (Hchange
              (mkBot (example_store {[ 5 := ("c5", "l5") ]} [])
                 "http://ollama:11434" "llama3.1")
              "t2" (example_update 5 "hello"))
    as (m & from & Hm & Hfrom & Hallow).
  { intros Hsame.
    apply (f_equal (fun t : gmap Z (string * string) => t !! 5)) in Hsame.
    vm_compute in Hsame. discriminate Hsame. }
  injection Hm as <-. injection Hfrom as <-. exact Hallow.
Defined.

Lemma whoami_on_store_failure :
  decide (example_store {[ 5 := ("c5", "l5") ]} [Some "disk I/O error"]) 5
  = Error
  /\ snd (handleUpdate
            (mkBot (example_store {[ 5 := ("c5", "l5") ]}
                      [Some "disk I/O error"])
               "http://ollama:11434" "llama3.1")
            "t1" (example_update 5 "/whoami"))
     = [Send (NewMessage 7
                ("Your info:" +:+ LF +:+ "- Telegram ID: 5" +:+ LF
                 +:+ "- Auth: ENABLED" +:+ LF +:+ "- Role: user" +:+ LF
                 +:+ "- Allowed: ERROR (disk I/O error)" +:+ LF))]
  /\ "Your info:" +:+ LF +:+ "- Telegram ID: 5" +:+ LF
     +:+ "- Auth: ENABLED" +:+ LF +:+ "- Role: user" +:+ LF
     +:+ "- Allowed: ERROR (disk I/O error)" +:+ LF
     <> text_auth_error.
Proof.
  split; [vm_compute; reflexivity |].
  split; [vm_compute; reflexivity |].
  intros H. vm_compute in H. discriminate H.
Qed.

(** ** The active model *)

(** A turn keeps the active model unless its text starts with [/model]
    and has an argument. *)
Lemma handleUpdate_model_kept (b : Bot) (now : string) (u : Update) :
  sets_model u = false ->
  model (fst (handleUpdate b now u)) = model b.
Proof.
  unfold sets_model, handleUpdate.
  destruct (Update_Message u) as [m |]; [| reflexivity].
  destruct (From m) as [from |]; [| reflexivity]. intros Hm.
  destruct (String.eqb (TrimSpace (Text m)) ""); [reflexivity |].
  destruct (_ && HasPrefix _ "/adduser"); [apply handleAddUser_quiet |].
  destruct (_ && HasPrefix _ "/listusers"); [apply handleListUsers_quiet |].
  destruct (HasPrefix _ "/whoami"); [apply handleWhoAmI_quiet |].
  pose proof (authorize_quiet b now (Chat_ID m) (User_ID from)) as Hq.
  destruct (authorize b now (Chat_ID m) (User_ID from))
    as [[b1 stop] | [b1 logged]]; destruct Hq as [Hq _]; [exact Hq |].
  assert (model (fst (dispatch b1 (Chat_ID m) (TrimSpace (Text m))))
          = model b1) as Hd.
  { unfold dispatch, handleModelCommand.
    destruct (HasPrefix _ "/start"); [reflexivity |].
    destruct (HasPrefix _ "/model"); [| reflexivity].
    destruct (Fields (TrimSpace (Text m))) as [| cmd [| arg more]];
      [reflexivity .. | discriminate Hm]. }
  destruct (dispatch b1 (Chat_ID m) (TrimSpace (Text m))) as [b2 effects].
  cbn [fst] in *. congruence.
Qed.

Lemma Run_model_kept (updates : list (string * Update)) :
  Forall (fun nu => sets_model (snd nu) = false) updates ->
  forall b : Bot, model (fst (Run b updates)) = model b.
Proof.
  induction 1 as [| [now u] updates Hu _ IH]; intros b; [reflexivity |].
  cbn [Run].
  pose proof (handleUpdate_model_kept b now u Hu) as Hmodel.
  destruct (handleUpdate b now u) as [b1 e1]. specialize (IH b1).
  destruct (Run b1 updates) as [b2 e2]. cbn [fst] in *. congruence.
Qed.

(** Every goroutine started while no message sets the model carries the
    model the bot had at the start. *)
Lemma Run_carries_model (updates : list (string * Update)) :
  Forall (fun nu => sets_model (snd nu) = false) updates ->
  forall (b : Bot) (task : QueryTask),
    In task (spawned (snd (Run b updates))) ->
    task_modelForCall task = model b.
Proof.
  induction 1 as [| [now u] updates Hu _ IH]; intros b task Hin;
    [contradiction |].
  cbn [Run] in Hin.
  pose proof (handleUpdate_snapshot b now u) as Hsnap.
  pose proof (handleUpdate_model_kept b now u Hu) as Hmodel.
  destruct (handleUpdate b now u) as [b1 e1].
  specialize (IH b1 task).
  destruct (Run b1 updates) as [b2 e2].
  cbn [fst snd] in *. rewrite spawned_app in Hin.
  apply in_app_or in Hin as [Hin | Hin].
  - destruct Hsnap as [Hsnap | (chatID & prompt & Hsnap)];
      rewrite Hsnap in Hin; [contradiction |].
    destruct Hin as [<- | []]. reflexivity.
  - rewrite (IH Hin). exact Hmodel.
Qed.

Lemma Run_app (l1 l2 : list (string * Update)) (b : Bot) :
  Run b (l1 ++ l2)
  = (fst (Run (fst (Run b l1)) l2),
     snd (Run b l1) ++ snd (Run (fst (Run b l1)) l2)).
Proof.
  revert b. induction l1 as [| [now u] l1 IH]; intros b.
  - cbn [app Run fst snd]. destruct (Run b l2); reflexivity.
  - cbn [app Run]. destruct (handleUpdate b now u) as [b1 e1].
    rewrite IH. destruct (Run b1 l1) as [b2 e2]. cbn [fst snd].
    rewrite app_assoc. reflexivity.
Qed.

(** A text that is not blank and not taken by a command, from a sender
    the gate lets through, starts one goroutine, with the trimmed text and
    the model the bot holds. *)
Lemma handleUpdate_query (b : Bot) (now : string) (chatID userID : Z)
    (raw : string) :
  TrimSpace raw <> "" ->
  command_prefix b userID (TrimSpace raw) = false ->
  decide (userStore b) userID = Allow ->
  spawned (snd (handleUpdate b now
     (mkUpdate (Some (mkMessage chatID (Some (mkUser userID)) raw)))))
  = [mkQueryTask chatID (TrimSpace raw) (model b)].
Proof.
  intros Htext Hcmd Hallow. unfold command_prefix in Hcmd.
  apply orb_false_elim in Hcmd as [Hcmd Hmodel].
  apply orb_false_elim in Hcmd as [Hcmd Hstart].
  apply orb_false_elim in Hcmd as [Hadmin Hwho].
  unfold handleUpdate. cbn [Update_Message From Chat_ID User_ID Text].
  destruct (String.eqb_spec (TrimSpace raw) "") as [| _]; [contradiction |].
  assert (auth.IsEnabled (userStore b) && auth.IsAdmin (userStore b) userID
          && HasPrefix (TrimSpace raw) "/adduser" = false) as ->.
  { destruct (auth.IsEnabled (userStore b) && auth.IsAdmin (userStore b) userID);
      [| reflexivity].
    cbn [andb] in *. apply orb_false_elim in Hadmin as [-> _]. reflexivity. }
  assert (auth.IsEnabled (userStore b) && auth.IsAdmin (userStore b) userID
          && HasPrefix (TrimSpace raw) "/listusers" = false) as ->.
  { destruct (auth.IsEnabled (userStore b) && auth.IsAdmin (userStore b) userID);
      [| reflexivity].
    cbn [andb] in *. apply orb_false_elim in Hadmin as [_ ->]. reflexivity. }
  rewrite Hwho.
  assert (exists (b1 : Bot) (logged : list effect),
            authorize b now chatID userID = inr (b1, logged)
            /\ model b1 = model b /\ spawned logged = [])
    as (b1 & logged & -> & Hm & Hquiet).
  { unfold authorize. unfold decide in Hallow.
    destruct (auth.IsEnabled (userStore b));
      [| exists b, []; repeat split; reflexivity].
    destruct (auth.IsAuthorized (userStore b) userID)
      as [[[|] [err |]] s]; try discriminate Hallow.
    destruct (auth.Touch s now userID) as [[err |] s'];
      eexists; eexists; repeat split; reflexivity. }
  unfold dispatch. rewrite Hstart, Hmodel. cbn [snd].
  rewrite spawned_app, Hquiet, Hm. reflexivity.
Qed.

(** C9: [/model] with no argument leaves the active model as it is;
    [/model] with an argument sets the active model to that argument, and
    every query dispatched from then on carries it, whatever arrives in
    between that does not set the model again: no goroutine started
    afterwards has another model, and a text that is handed on as a query
    starts a goroutine with the new model. *)
Theorem model_command_sets_snapshot (b : Bot) (chatID : Z) (text : string) :
  ((length (Fields text) < 2)%nat ->
   model (fst (handleModelCommand b chatID text)) = model b)
  /\ (forall (cmd arg : string) (more : list string),
        Fields text = cmd :: arg :: more ->
        model (fst (handleModelCommand b chatID text)) = arg
        /\ forall updates : list (string * Update),
             Forall (fun nu => sets_model (snd nu) = false) updates ->
             (forall task : QueryTask,
                In task (spawned (snd (Run (fst (handleModelCommand b chatID
                                                   text)) updates))) ->
                task_modelForCall task = arg)
             /\ forall (now : string) (chat userID : Z) (raw : string),
                  TrimSpace raw <> "" ->
                  command_prefix
                    (fst (Run (fst (handleModelCommand b chatID text))
                            updates))
                    userID (TrimSpace raw) = false ->
                  decide
                    (userStore
                       (fst (Run (fst (handleModelCommand b chatID text))
                               updates)))
                    userID = Allow ->
                  spawned
                    (snd (Run (fst (handleModelCommand b chatID text))
                            (updates
                             ++ [(now,
                                  mkUpdate
                                    (Some (mkMessage chat
                                             (Some (mkUser userID))
                                             raw)))])))
                  = spawned
                      (snd (Run (fst (handleModelCommand b chatID text))
                              updates))
                    ++ [mkQueryTask chat (TrimSpace raw) arg]).
Proof.
  split.
  - intros Hshort. unfold handleModelCommand.
    destruct (Fields text) as [| cmd [| arg more]]; [reflexivity .. |].
    cbn in Hshort. lia.
  - intros cmd arg more Hfields.
    assert (model (fst (handleModelCommand b chatID text)) = arg) as Hset.
    { unfold handleModelCommand. rewrite Hfields. reflexivity. }
    split; [exact Hset |]. intros updates Hquiet. split.
    + intros task Hin. rewrite <- Hset.
      exact (Run_carries_model updates Hquiet _ task Hin).
    + intros now chat userID raw Htext Hcmd Hallow.
      rewrite Run_app. cbn [snd Run].
      pose proof (handleUpdate_query _ now chat userID raw Htext Hcmd Hallow)
        as Hq.
      destruct (handleUpdate _ now _) as [b2 e2]. cbn [snd] in *.
      rewrite app_nil_r, spawned_app, Hq.
      rewrite (Run_model_kept updates Hquiet), Hset. reflexivity.
Qed.

Lemma model_command_sets_snapshot_witness :
  model (fst (handleModelCommand example_bot 7 "/model")) = "llama3.1"
  /\ model (fst (handleModelCommand example_bot 7 "/model mistral"))
     = "mistral"
  /\ spawned
       (snd (Run (fst (handleModelCommand example_bot 7 "/model mistral"))
               ([("t1", example_update 1 "/model");
                 ("t2", example_update 2 "/start")]
                ++ [("t3", example_update 3 " what is a monad? ")])))
     = [mkQueryTask 7 "what is a monad?" "mistral"].
Proof.
  split.
  - apply (proj1 (model_command_sets_snapshot example_bot 7 "/model")).
    vm_compute. lia.
  - pose proof (proj2 (model_command_sets_snapshot example_bot 7
                         "/model mistral")
                  "/model" "mistral" [] eq_refl) as [Hset Hafter].
    split; [exact Hset |].
    assert (Forall (fun nu => sets_model (snd nu) = false)
              [("t1", example_update 1 "/model");
               ("t2", example_update 2 "/start")]) as Hquiet.
    { repeat constructor. }
    assert (TrimSpace " what is a monad? " <> "") as Htext.
    { vm_compute. discriminate. }
    exact (proj2 (Hafter _ Hquiet) "t3" 7 3 " what is a monad? "
             Htext eq_refl eq_refl).
Defined.

(** ** Queries in flight *)

(** The request of a goroutine names the model it was handed, whatever
    the bot holds when it runs. *)
Lemma runQuery_request (b : Bot) (task : QueryTask) (beats : nat)
    (reply : PostResult) :
  exists more : list task_event,
    runQuery b task beats reply
    = Post (ollamaBaseURL b +:+ "/api/chat")
        (snd (callOllama_request b (task_modelForCall task)
                (task_prompt task)))
      :: more.
Proof.
  unfold runQuery. cbn [callOllama_request snd].
  destruct (callOllama_result reply) as [answer [err |]];
    [eexists; reflexivity |].
  destruct (splitTelegramMessage answer 4000); eexists; reflexivity.
Qed.

(** Every pending goroutine was started by a turn of the loop, with the
    model the bot had at that turn. *)
Lemma pending_dispatched (b0 : Bot) (trace : list step_label) (s : System) :
  exec (mkSystem b0 []) trace s ->
  forall task : QueryTask,
    In task (sys_pending s) ->
    exists (before : Bot) (now : string) (u : Update)
           (effects : list effect),
      In (LoopTurn before now u effects) trace
      /\ In task (spawned effects)
      /\ task_modelForCall task = model before.
Proof.
  remember (mkSystem b0 []) as s0 eqn:Hs0.
  induction 1 as [s | s s1 s2 trace l Hexec IH Hstep]; intros task Hin.
  - subst s. contradiction.
  - specialize (IH Hs0).
    assert (forall t : QueryTask,
              In t (sys_pending s1) ->
              exists before now u effects,
                In (LoopTurn before now u effects) (trace ++ [l])
                /\ In t (spawned effects)
                /\ task_modelForCall t = model before) as Hold.
    { intros t Ht. destruct (IH t Ht) as (before & now & u & effs & H1 & H2).
      exists before, now, u, effs. split; [| exact H2].
      apply in_or_app. left. exact H1. }
    destruct Hstep as [b b' pending now u effects Hrun
                      | b before after t beats reply]; cbn [sys_pending] in *.
    + apply in_app_or in Hin as [Hin | Hin]; [apply Hold; exact Hin |].
      exists b, now, u, effects. split; [| split; [exact Hin |]].
      * apply in_or_app. right. left. reflexivity.
      * pose proof (handleUpdate_snapshot b now u) as Hsnap.
        rewrite Hrun in Hsnap. cbn [snd] in Hsnap.
        destruct Hsnap as [Hsnap | (chatID & prompt & Hsnap)];
          rewrite Hsnap in Hin; [contradiction |].
        destruct Hin as [<- | []]. reflexivity.
    + apply Hold. apply in_app_or in Hin as [Hin | Hin];
        apply in_or_app; [left | right; right]; exact Hin.
Qed.

(** C4: in every run of the loop together with its goroutines, the model
    named in the backend request of a query is the active model of the
    turn that dispatched the query, whatever [/model] messages the loop
    has handled between that turn and the call. *)
Theorem query_uses_dispatch_model (b0 : Bot) (trace : list step_label)
    (s : System) :
  exec (mkSystem b0 []) trace s ->
  forall (earlier later : list step_label) (at_call : Bot)
         (task : QueryTask) (events : list task_event),
    trace = earlier ++ TaskRun at_call task events :: later ->
    exists (before : Bot) (now : string) (u : Update)
           (effects : list effect) (url : string) (req : OllamaChatRequest)
           (more : list task_event),
      In (LoopTurn before now u effects) earlier
      /\ In task (spawned effects)
      /\ events = Post url req :: more
      /\ Request_Model req = model before.
Proof.
  remember (mkSystem b0 []) as s0 eqn:Hs0.
  induction 1 as [s | s s1 s2 trace l Hexec IH Hstep];
    intros earlier later at_call task events Htrace.
  - destruct earlier; discriminate.
  - destruct later as [| l' later _] using rev_ind.
    + apply app_inj_tail in Htrace as [-> ->].
      inversion Hstep as [| b before after t beats reply Hs1 Hl Hs2];
        subst.
      destruct (pending_dispatched b0 earlier _ Hexec task)
        as (bot & now & u & effs & Hturn & Hspawn & Hmodel).
      { cbn. apply in_or_app. right. left. reflexivity. }
      destruct (runQuery_request at_call task beats reply) as [more Hq].
      exists bot, now, u, effs. eexists. eexists. exists more.
      split; [exact Hturn |]. split; [exact Hspawn |].
      split; [exact Hq |]. exact Hmodel.
    + rewrite app_comm_cons, app_assoc in Htrace.
      apply app_inj_tail in Htrace as [-> _].
      exact (IH Hs0 earlier later at_call task events eq_refl).
Qed.

(** A query dispatched under [llama3.1], a switch to [mistral], and only
    then the call: the request still names [llama3.1]. *)
Lemma example_exec :
  exec (mkSystem example_bot [])
    [LoopTurn example_bot "t1" (example_update 1 "hello")
       [Send (NewChatAction 7 ChatTyping); Go example_task];
     LoopTurn example_bot "t2" (example_update 1 "/model mistral")
       [Send (MessageConfig 7 (text_model_changed "mistral") "Markdown" false)];
     TaskRun (set_model example_bot "mistral") example_task
       (runQuery (set_model example_bot "mistral") example_task 1
          example_reply)]
    (mkSystem (set_model example_bot "mistral") []).
Proof.
  apply (exec_snoc _ (mkSystem (set_model example_bot "mistral")
                        ([] ++ example_task :: []))
           _ [_; _]).
  - apply (exec_snoc _ (mkSystem example_bot [example_task]) _ [_]).
    + apply (exec_snoc _ (mkSystem example_bot []) _ []);
        [apply exec_nil |].
      apply (step_loop example_bot example_bot [] "t1"
               (example_update 1 "hello")
               [Send (NewChatAction 7 ChatTyping); Go example_task]).
      vm_compute. reflexivity.
    + apply (step_loop example_bot (set_model example_bot "mistral")
               [example_task] "t2" (example_update 1 "/model mistral")
               [Send (MessageConfig 7 (text_model_changed "mistral")
                        "Markdown" false)]).
      vm_compute. reflexivity.
  - apply (step_task (set_model example_bot "mistral") [] [] example_task 1
             example_reply).
Qed.

Lemma query_uses_dispatch_model_witness :
  model (set_model example_bot "mistral") = "mistral"
  /\ exists (before : Bot) (now : string) (u : Update)
            (effects : list effect) (url : string) (req : OllamaChatRequest)
            (more : list task_event),
       In (LoopTurn before now u effects)
          [LoopTurn example_bot "t1" (example_update 1 "hello")
             [Send (NewChatAction 7 ChatTyping); Go example_task];
           LoopTurn example_bot "t2" (example_update 1 "/model mistral")
             [Send (MessageConfig 7 (text_model_changed "mistral")
                      "Markdown" false)]]
       /\ In example_task (spawned effects)
       /\ runQuery (set_model example_bot "mistral") example_task 1
            example_reply
          = Post url req :: more
       /\ Request_Model req = model before.
Proof.
  split; [reflexivity |].
  exact (query_uses_dispatch_model example_bot _ _ example_exec
           [_; _] [] (set_model example_bot "mistral") example_task _
           eq_refl).
Defined.

(** The same run, computed: the bot holds [mistral] when the goroutine
    calls the backend, and the request names [llama3.1]. *)
Example request_after_switch :
  hd_error (runQuery (set_model example_bot "mistral") example_task 1
              example_reply)
  = Some (Post "http://ollama:11434/api/chat"
            (mkOllamaChatRequest "llama3.1"
               [mkOllamaMessage "user"
                  ("hello" +:+ LF +:+ LF +:+
                   "Please answer in Markdown. Use fenced code blocks (```lang ... ```).")]
               false)).
Proof. vm_compute. reflexivity. Qed.

(** ** The backend call and time *)

(** [main] reads three variables, and the timeout the README documents is
    not one of them: setting it changes nothing. *)
Lemma main_settings_ignore_timeout (getenv : Environ) (value : string) :
  main_settings (setenv getenv "OLLAMA_TIMEOUT_SECONDS" value)
  = main_settings getenv.
Proof. reflexivity. Qed.

(** Whatever the settings, [callOllama] posts through a client without a
    timeout, so it returns when the backend answers and not before. *)
Lemma callOllama_returns_with_backend (b : Bot) (latency : option Z) :
  callOllama_returns_at b latency = latency.
Proof. reflexivity. Qed.

(** C5, on the code: with [OLLAMA_TIMEOUT_SECONDS=1] set and a backend
    that never answers, the bot [main] builds posts through a client whose
    timeout is zero, and the call never returns; a client with the
    one-second timeout would have returned after one second. *)
Lemma callOllama_waits_forever :
  exists b : Bot,
    main_bot example_environ None = Some b
    /\ http.Timeout (callOllama_client b) = 0
    /\ callOllama_returns_at b None = None
    /\ http.returns_at (http.mkClient 1) None = Some 1.
Proof.
  exists (NewBot None "http://ollama:11434" "").
  repeat split; reflexivity.
Qed.

(** ** The heartbeat of a query *)

Lemma indicators_app (h1 h2 : list (Z * heartbeat.event)) :
  heartbeat.indicators (h1 ++ h2)
  = heartbeat.indicators h1 + heartbeat.indicators h2.
Proof.
  induction h1 as [| [t [| | |]] h1 IH]; cbn [app heartbeat.indicators];
    lia.
Qed.

(** The ticker gives at most one indicator for each period that has
    elapsed: at any moment of any run, the indicators sent so far are at
    most one more than the periods gone by. *)
Lemma indicators_bounded (latency : Z) (s : heartbeat.State) :
  heartbeat.exec latency heartbeat.init s ->
  heartbeat.indicators (heartbeat.history s)
  <= heartbeat.clock s / heartbeat.period + 1.
Proof.
  intros Hexec.
  assert (exists k : Z,
            1 <= k
            /\ (heartbeat.typing s = heartbeat.AtSelect ->
                heartbeat.next_tick s = heartbeat.period * k
                /\ heartbeat.clock s <= heartbeat.next_tick s)
            /\ heartbeat.period * (k - 1) <= heartbeat.clock s
            /\ heartbeat.indicators (heartbeat.history s)
               + (if heartbeat.tick_waiting s then 1 else 0) <= k)
    as (k & Hk & _ & Hlow & Hcount).
  { remember heartbeat.init as s0 eqn:Hs0.
    induction Hexec as [s | s s1 s2 _ IH Hstep].
    - subst s. exists 1. cbn. unfold heartbeat.period. repeat split; lia.
    - specialize (IH Hs0). destruct IH as (k & Hk & Hnext & Hlow & Hcount).
      destruct Hstep as [s1 dt Hdt Htick Hcall | s1 Hat Hdue | s1 Hq Hret
                        | s1 Hq | s1 Hat Hq | s1 Hat Hw];
        cbn [heartbeat.clock heartbeat.typing heartbeat.next_tick
             heartbeat.tick_waiting heartbeat.history].
      + destruct (heartbeat.typing s1) eqn:Ht.
        * exists k. destruct (Hnext eq_refl) as [Hn Hle].
          specialize (Htick eq_refl).
          split; [exact Hk |]. split; [intros _; split; [exact Hn | lia] |].
          split; [lia | exact Hcount].
        * exists (Z.max k ((heartbeat.clock s1 + dt) / heartbeat.period + 1)).
          unfold heartbeat.period in *.
          split; [lia |]. split; [discriminate |].
          split; [| lia].
          destruct (Z.max_spec k ((heartbeat.clock s1 + dt) / 4000 + 1))
            as [[_ ->] | [Hge ->]]; [| lia].
          Z.div_mod_to_equations. lia.
      + exists (k + 1). destruct (Hnext Hat) as [Hn Hle].
        unfold heartbeat.period in *.
        split; [lia |]. split; [intros _; split; lia |].
        split; [lia |].
        destruct (heartbeat.tick_waiting s1); lia.
      + exists k. rewrite indicators_app. cbn [heartbeat.indicators].
        split; [exact Hk |]. split; [exact Hnext |].
        split; [exact Hlow | lia].
      + exists k. rewrite indicators_app. cbn [heartbeat.indicators].
        split; [exact Hk |]. split; [exact Hnext |].
        split; [exact Hlow | lia].
      + exists k. rewrite indicators_app. cbn [heartbeat.indicators].
        split; [exact Hk |]. split; [discriminate |].
        split; [exact Hlow | lia].
      + exists k. rewrite indicators_app. rewrite Hw in Hcount.
        cbn [heartbeat.indicators].
        split; [exact Hk |]. split; [exact Hnext |].
        split; [exact Hlow | lia]. }
  unfold heartbeat.period in *.
  destruct (heartbeat.tick_waiting s); Z.div_mod_to_equations; lia.
Qed.

(** C6, on the code: a backend call that lasts four seconds returns as
    the ticker fires.  The query goroutine closes [done], and the
    [select] of [sendTypingUntilDone], with both of its cases ready, takes
    the tick: an indicator is sent after [callOllama] has returned and
    after [done] is closed, and only then does the heartbeat stop. *)
Lemma indicator_after_call_returned :
  exists s : heartbeat.State,
    heartbeat.exec 4000 heartbeat.init s
    /\ heartbeat.query s = heartbeat.DoneClosed
    /\ heartbeat.typing s = heartbeat.Gone
    /\ heartbeat.history s
       = [(0, heartbeat.Indicator); (4000, heartbeat.CallReturned);
          (4000, heartbeat.Closed); (4000, heartbeat.Indicator);
          (4000, heartbeat.TyperReturned)]
    /\ heartbeat.after_return (heartbeat.history s)
       = [(4000, heartbeat.Closed); (4000, heartbeat.Indicator);
          (4000, heartbeat.TyperReturned)].
Proof.
  eexists. split.
  - eapply heartbeat.exec_more;
      [eapply heartbeat.exec_more;
         [eapply heartbeat.exec_more;
            [eapply heartbeat.exec_more;
               [eapply heartbeat.exec_more;
                  [eapply heartbeat.exec_more;
                     [apply heartbeat.exec_stop |] |] |] |] |] |].
    + apply (heartbeat.time_passes 4000 heartbeat.init 4000);
        cbn; unfold heartbeat.period; intros; lia.
    + apply heartbeat.ticker_fires; reflexivity.
    + apply heartbeat.call_returns; reflexivity.
    + apply heartbeat.close_done; reflexivity.
    + apply heartbeat.select_tick; reflexivity.
    + apply heartbeat.select_done; reflexivity.
  - cbn. repeat split; reflexivity.
Qed.

(** * Further properties of the code *)

(** ** The store: [Touch] *)

Lemma update_activity_users (d : auth.DB) (last : string) (id : Z) :
  auth.users (snd (auth.update_activity d last id))
  = match fst (auth.update_activity d last id), auth.users d !! id with
    | None, Some (c, _) => <[id := (c, last)]> (auth.users d)
    | _, _ => auth.users d
    end.
Proof.
  unfold auth.update_activity, auth.next_fault.
  destruct (auth.faults d) as [| [e |] rest]; cbn;
    try reflexivity;
    destruct (auth.users d !! id) as [[c l] |]; reflexivity.
Qed.

(** X1: [Touch] never adds or removes a row and never changes a
    [created_at]; it leaves every row but [id]'s as it is, leaves the whole
    table as it is for the admin and when the statement fails, and on
    success sets the [last_activity] of [id]'s row to [now]. *)
Theorem Touch_frame (s : option auth.UserStore) (now : string) (id : Z) :
  dom (auth.table (snd (auth.Touch s now id))) = dom (auth.table s)
  /\ (forall (j : Z) (c l : string),
        auth.table s !! j = Some (c, l) ->
        exists l' : string,
          auth.table (snd (auth.Touch s now id)) !! j = Some (c, l')
          /\ (j <> id -> l' = l))
  /\ (auth.IsAdmin s id = true ->
      auth.table (snd (auth.Touch s now id)) = auth.table s)
  /\ (forall e : string,
        fst (auth.Touch s now id) = Some e ->
        auth.table (snd (auth.Touch s now id)) = auth.table s)
  /\ (forall c l : string,
        auth.IsEnabled s = true -> auth.IsAdmin s id = false ->
        fst (auth.Touch s now id) = None ->
        auth.table s !! id = Some (c, l) ->
        auth.table (snd (auth.Touch s now id)) !! id = Some (c, now)).
Proof.
  assert (forall t : gmap Z (string * string),
            dom t = dom t
            /\ (forall (j : Z) (c l : string),
                  t !! j = Some (c, l) ->
                  exists l' : string,
                    t !! j = Some (c, l') /\ (j <> id -> l' = l))) as Hsame.
  { intros t. split; [reflexivity |]. intros j c l H. exists l.
    split; [exact H | reflexivity]. }
  destruct s as [u |].
  2:{ cbn. destruct (Hsame ∅) as [H1 H2].
      split; [exact H1 |]. split; [exact H2 |].
      split; [discriminate |]. split; discriminate. }
  unfold auth.Touch, auth.IsAdmin, auth.IsEnabled.
  destruct (auth.enabled u) eqn:Hen; cbn [negb andb].
  2:{ cbn. destruct (Hsame (auth.users (auth.db u))) as [H1 H2].
      split; [exact H1 |]. split; [exact H2 |].
      split; [discriminate |]. split; discriminate. }
  destruct (id =? auth.adminID u) eqn:Hadm.
  { cbn. destruct (Hsame (auth.users (auth.db u))) as [H1 H2].
    split; [exact H1 |]. split; [exact H2 |].
    split; [reflexivity |]. split; discriminate. }
  pose proof (update_activity_users (auth.db u) now id) as Hu.
  destruct (auth.update_activity (auth.db u) now id) as [err d].
  cbn [fst snd auth.table auth.set_db auth.db] in *. rewrite Hu. clear Hu.
  destruct err as [e |].
  { destruct (Hsame (auth.users (auth.db u))) as [H1 H2].
    split; [exact H1 |]. split; [exact H2 |].
    split; [discriminate |]. split; [reflexivity | discriminate]. }
  destruct (auth.users (auth.db u) !! id) as [[c0 l0] |] eqn:Hrow.
  2:{ destruct (Hsame (auth.users (auth.db u))) as [H1 H2].
      split; [exact H1 |]. split; [exact H2 |].
      split; [discriminate |]. split; discriminate. }
  split; [| split; [| split; [| split]]]; try discriminate.
  - apply dom_insert_lookup_L. eauto.
  - intros j c l H. destruct (Z.eq_dec id j) as [-> | Hne].
    + rewrite lookup_insert_eq. rewrite Hrow in H.
      injection H as -> ->. exists now. split; [reflexivity | congruence].
    + rewrite lookup_insert_ne by exact Hne. exists l.
      split; [exact H | reflexivity].
  - intros c l _ _ _ H. injection H as -> ->. apply lookup_insert_eq.
Qed.

(** ** The store: adding, then asking *)

Lemma next_fault_users (d : auth.DB) :
  auth.users (snd (auth.next_fault d)) = auth.users d.
Proof. unfold auth.next_fault. destruct (auth.faults d); reflexivity. Qed.

(** X2: after an [AddUser] that succeeded on an enabled store, the added
    user is let through by the gate as soon as the query runs, and every
    id that had a row still has one. *)
Theorem AddUser_then_authorized (s s' : option auth.UserStore)
    (now : string) (id : Z) :
  auth.IsEnabled s = true ->
  auth.AddUser s now id = (None, s') ->
  (forall u' : auth.UserStore,
     s' = Some u' -> fst (auth.next_fault (auth.db u')) = None) ->
  decide s' id = Allow
  /\ dom (auth.table s) ⊆ dom (auth.table s').
Proof.
  intros Hen Hadd Hhealthy.
  destruct s as [u |]; [| discriminate]. cbn [auth.IsEnabled] in Hen.
  unfold auth.AddUser, auth.upsert in Hadd. rewrite Hen in Hadd.
  cbn [negb] in Hadd.
  assert (auth.users (snd (auth.next_fault (auth.db u)))
          = auth.users (auth.db u)) as Hsame.
  { unfold auth.next_fault. destruct (auth.faults (auth.db u)); reflexivity. }
  destruct (auth.next_fault (auth.db u)) as [[e |] d]; [discriminate |].
  cbn [snd] in Hsame.
  injection Hadd as <-. specialize (Hhealthy _ eq_refl).
  cbn [auth.set_db auth.db] in Hhealthy.
  set (rows := match auth.users d !! id with
               | Some (c, _) => <[id:=(c, now)]> (auth.users d)
               | None => <[id:=(now, now)]> (auth.users d)
               end) in *.
  assert (is_Some (rows !! id)) as [r Hr].
  { subst rows. destruct (auth.users d !! id) as [[c l] |];
      rewrite lookup_insert_eq; eauto. }
  split.
  - unfold decide, auth.IsAuthorized. cbn [auth.set_db auth.enabled
      auth.adminID auth.db]. rewrite Hen. cbn [negb].
    destruct (id =? auth.adminID u); [reflexivity |].
    unfold auth.select_one.
    destruct (auth.next_fault (auth.mkDB rows (auth.faults d)))
      as [f d2] eqn:Hnext.
    cbn [fst] in Hhealthy. subst f.
    assert (auth.users d2 = rows) as ->.
    { pose proof (next_fault_users (auth.mkDB rows (auth.faults d))) as Hk.
      rewrite Hnext in Hk. exact Hk. }
    rewrite Hr. reflexivity.
  - cbn [auth.table auth.set_db auth.db auth.users]. rewrite <- Hsame.
    subst rows. destruct (auth.users d !! id) as [[c l] |];
      rewrite dom_insert_L; apply union_subseteq_r.
Qed.

Lemma AddUser_then_authorized_witness :
  decide (snd (auth.AddUser (example_store ∅ []) "t1" 6)) 6 = Allow
  /\ dom (auth.table (example_store ∅ []))
     ⊆ dom (auth.table (snd (auth.AddUser (example_store ∅ []) "t1" 6))).
Proof.
  apply (AddUser_then_authorized (example_store ∅ []) _ "t1" 6).
  - reflexivity.
  - reflexivity.
  - intros u' H. injection H as <-. reflexivity.
Defined.

(** ** The store: [ListUsers] *)

Lemma string_leb_refl (s : string) : String.leb s s = true.
Proof.
  destruct (String.leb_total s s) as [H | H]; exact H.
Qed.

Lemma row_before_created (a b : auth.DBUser) :
  auth.row_before a b = true -> created_le a b.
Proof.
  unfold auth.row_before, created_le.
  destruct (String.eqb_spec (auth.CreatedAt a) (auth.CreatedAt b)) as [-> | _].
  - intros _. apply string_leb_refl.
  - intros H. exact H.
Qed.

Lemma row_before_total (a b : auth.DBUser) :
  auth.row_before a b = false -> auth.row_before b a = true.
Proof.
  unfold auth.row_before.
  destruct (String.eqb_spec (auth.CreatedAt a) (auth.CreatedAt b))
    as [Heq | Hne].
  - rewrite Heq, String.eqb_refl. intros H. apply Z.leb_gt in H.
    apply Z.leb_le. lia.
  - assert (String.eqb (auth.CreatedAt b) (auth.CreatedAt a) = false) as ->.
    { apply String.eqb_neq. congruence. }
    intros H.
    destruct (String.leb_total (auth.CreatedAt a) (auth.CreatedAt b));
      congruence.
Qed.

Lemma insert_sorted_perm (u : auth.DBUser) (l : list auth.DBUser) :
  auth.insert_sorted u l ≡ₚ u :: l.
Proof.
  induction l as [| v l IH]; [reflexivity |]. cbn [auth.insert_sorted].
  destruct (auth.row_before u v); [reflexivity |].
  rewrite IH. apply Permutation_swap.
Qed.

Lemma insert_sorted_hd (u w : auth.DBUser) (l : list auth.DBUser) :
  created_le w u -> HdRel created_le w l ->
  HdRel created_le w (auth.insert_sorted u l).
Proof.
  intros Hwu Hl. destruct l as [| v l]; cbn [auth.insert_sorted].
  - constructor. exact Hwu.
  - destruct (auth.row_before u v); constructor; [exact Hwu |].
    inversion Hl. assumption.
Qed.

Lemma insert_sorted_sorted (u : auth.DBUser) (l : list auth.DBUser) :
  Sorted created_le l -> Sorted created_le (auth.insert_sorted u l).
Proof.
  induction 1 as [| v l Hs IH Hhd]; cbn [auth.insert_sorted].
  - repeat constructor.
  - destruct (auth.row_before u v) eqn:Hb.
    + constructor; [constructor; assumption |].
      constructor. apply row_before_created. exact Hb.
    + constructor; [exact IH |].
      apply insert_sorted_hd; [| exact Hhd].
      apply row_before_created, row_before_total. exact Hb.
Qed.

Lemma sort_rows_perm (rows : list auth.DBUser) :
  fold_right auth.insert_sorted [] rows ≡ₚ rows.
Proof.
  induction rows as [| u rows IH]; [reflexivity |]. cbn [fold_right].
  rewrite insert_sorted_perm, IH. reflexivity.
Qed.

Lemma sort_rows_sorted (rows : list auth.DBUser) :
  Sorted created_le (fold_right auth.insert_sorted [] rows).
Proof.
  induction rows as [| u rows IH]; [constructor |].
  cbn [fold_right]. apply insert_sorted_sorted. exact IH.
Qed.

Lemma Sorted_take (n : nat) (l : list auth.DBUser) :
  Sorted created_le l -> Sorted created_le (take n l).
Proof.
  intros H. revert n.
  induction H as [| v l Hs IH Hhd]; intros [| n]; cbn [take];
    try constructor.
  - apply IH.
  - destruct Hhd as [| w l Hvw]; destruct n; cbn [take]; constructor.
    exact Hvw.
Qed.

Lemma In_take {A : Type} (x : A) (n : nat) (l : list A) :
  In x (take n l) -> In x l.
Proof.
  revert n. induction l as [| y l IH]; intros [| n]; cbn; try tauto.
  intros [H | H]; [left; exact H | right; eapply IH; exact H].
Qed.

(** X3: on an enabled store whose query runs, [ListUsers] returns rows of
    the table and nothing else, each id once, in ascending order of
    [created_at], as many as the table has up to the limit (100 when the
    given limit is not positive), all of them when the table is within the
    limit, and leaves the table as it is. *)
Theorem ListUsers_sorted_bounded (u : auth.UserStore) (limit : Z) :
  auth.enabled u = true ->
  fst (auth.next_fault (auth.db u)) = None ->
  exists rows : list auth.DBUser,
    fst (auth.ListUsers (Some u) limit) = (rows, None)
    /\ auth.table (snd (auth.ListUsers (Some u) limit))
       = auth.users (auth.db u)
    /\ length rows
       = Nat.min (Z.to_nat (if limit <=? 0 then 100 else limit))
                 (size (auth.users (auth.db u)))
    /\ Sorted created_le rows
    /\ NoDup (map auth.TelegramID rows)
    /\ (forall r : auth.DBUser,
          In r rows ->
          auth.users (auth.db u) !! auth.TelegramID r
          = Some (auth.CreatedAt r, auth.LastActivity r))
    /\ ((size (auth.users (auth.db u))
         <= Z.to_nat (if (limit <=? 0)%Z then 100%Z else limit))%nat ->
        forall (id : Z) (c l : string),
          auth.users (auth.db u) !! id = Some (c, l) ->
          In (auth.mkDBUser id c l) rows).
Proof.
  intros Hen Hfault. unfold auth.ListUsers, auth.select_all.
  rewrite Hen. cbn [negb].
  pose proof (next_fault_users (auth.db u)) as Hsame.
  destruct (auth.next_fault (auth.db u)) as [f d].
  cbn [fst snd] in Hfault, Hsame. subst f. rewrite Hsame.
  set (n := Z.to_nat (if limit <=? 0 then 100 else limit)).
  set (mk := fun kv : Z * (string * string) =>
               auth.mkDBUser (fst kv) (fst (snd kv)) (snd (snd kv))).
  set (all := map mk (map_to_list (auth.users (auth.db u)))).
  set (sorted := fold_right auth.insert_sorted [] all).
  assert (sorted ≡ₚ all) as Hperm by apply sort_rows_perm.
  assert (map auth.TelegramID all
          = (map_to_list (auth.users (auth.db u))).*1) as Hids.
  { subst all. rewrite map_map. reflexivity. }
  assert (forall r, In r sorted ->
            auth.users (auth.db u) !! auth.TelegramID r
            = Some (auth.CreatedAt r, auth.LastActivity r)) as Hmem.
  { intros r Hr. apply list_elem_of_In in Hr. rewrite Hperm in Hr.
    apply list_elem_of_In, in_map_iff in Hr as ([k [c l]] & <- & Hkv).
    apply list_elem_of_In, elem_of_map_to_list in Hkv. exact Hkv. }
  exists (take n sorted). cbn [fst snd auth.table auth.set_db auth.db].
  split; [reflexivity |]. split; [exact Hsame |]. split; [| split; [| split; [| split]]].
  - rewrite length_take, Hperm. subst all. rewrite length_map.
    rewrite length_map_to_list. reflexivity.
  - apply Sorted_take, sort_rows_sorted.
  - apply (sublist_NoDup _ (auth.TelegramID <$> sorted)).
    + rewrite Hperm. change (auth.TelegramID <$> all)
        with (map auth.TelegramID all). rewrite Hids.
      apply NoDup_fst_map_to_list.
    + apply (fmap_sublist auth.TelegramID), sublist_take.
  - intros r Hr. apply Hmem. eapply In_take. exact Hr.
  - intros Hsize id c l Hrow.
    assert (length sorted <= n)%nat as Hlen.
    { rewrite Hperm. subst all. rewrite length_map, length_map_to_list.
      exact Hsize. }
    rewrite take_ge by exact Hlen.
    apply list_elem_of_In. rewrite Hperm. apply list_elem_of_In.
    apply in_map_iff. exists (id, (c, l)). split; [reflexivity |].
    apply list_elem_of_In, elem_of_map_to_list. exact Hrow.
Qed.

Lemma ListUsers_sorted_bounded_witness :
  exists rows : list auth.DBUser,
    fst (auth.ListUsers
           (example_store {[ 5 := ("2024-02-01", "l5");
                             6 := ("2024-01-01", "l6") ]} []) 1)
    = (rows, None)
    /\ length rows = 1%nat
    /\ Sorted created_le rows
    /\ (forall r : auth.DBUser, In r rows -> auth.TelegramID r = 6).
Proof.
  destruct (ListUsers_sorted_bounded
              (auth.mkUserStore true 100
                 (auth.mkDB {[ 5 := ("2024-02-01", "l5");
                               6 := ("2024-01-01", "l6") ]} []))
              1 eq_refl eq_refl)
    as (rows & Hrun & _ & Hlen & Hsorted & _ & _ & _).
  exists rows. split; [exact Hrun |]. split; [exact Hlen |].
  split; [exact Hsorted |].
  intros r Hr. vm_compute in Hrun. injection Hrun as <-.
  destruct Hr as [<- | []]. reflexivity.
Defined.

(** X4: the store's queries only read: neither [IsAuthorized] nor
    [ListUsers] changes the table, whatever the store is and whether or not
    the query fails. *)
Theorem store_queries_keep_table (s : option auth.UserStore) (id limit : Z) :
  auth.table (snd (auth.IsAuthorized s id)) = auth.table s
  /\ auth.table (snd (auth.ListUsers s limit)) = auth.table s.
Proof.
  split; [apply IsAuthorized_table | apply ListUsers_table].
Qed.

(** ** What a turn of the loop keeps *)

Lemma IsAuthorized_settings (s : option auth.UserStore) (id : Z) :
  store_settings (snd (auth.IsAuthorized s id)) = store_settings s.
Proof.
  destruct s as [u |]; [| reflexivity]. unfold auth.IsAuthorized.
  destruct (negb (auth.enabled u)); [reflexivity |].
  destruct (id =? auth.adminID u); [reflexivity |].
  destruct (auth.select_one (auth.db u) id) as [[| | e] d]; reflexivity.
Qed.

Lemma AddUser_settings (s : option auth.UserStore) (now : string) (id : Z) :
  store_settings (snd (auth.AddUser s now id)) = store_settings s.
Proof.
  destruct s as [u |]; [| reflexivity]. unfold auth.AddUser.
  destruct (negb (auth.enabled u)); [reflexivity |].
  destruct (auth.upsert (auth.db u) id now now); reflexivity.
Qed.

Lemma Touch_settings (s : option auth.UserStore) (now : string) (id : Z) :
  store_settings (snd (auth.Touch s now id)) = store_settings s.
Proof.
  destruct s as [u |]; [| reflexivity]. unfold auth.Touch.
  destruct (negb (auth.enabled u)); [reflexivity |].
  destruct (id =? auth.adminID u); [reflexivity |].
  destruct (auth.update_activity (auth.db u) now id); reflexivity.
Qed.

Lemma ListUsers_settings (s : option auth.UserStore) (limit : Z) :
  store_settings (snd (auth.ListUsers s limit)) = store_settings s.
Proof.
  destruct s as [u |]; [| reflexivity]. unfold auth.ListUsers.
  destruct (negb (auth.enabled u)); [reflexivity |].
  destruct (auth.select_all (auth.db u) _) as [[rows | e] d]; reflexivity.
Qed.

Lemma settings_IsEnabled (s s' : option auth.UserStore) :
  store_settings s' = store_settings s ->
  auth.IsEnabled s' = auth.IsEnabled s
  /\ forall id : Z, auth.IsAdmin s' id = auth.IsAdmin s id.
Proof.
  destruct s as [u |], s' as [u' |]; cbn; try discriminate;
    [| split; reflexivity].
  intros H. injection H as -> ->. split; reflexivity.
Qed.

(** One turn keeps the backend address and the settings of the store. *)
Lemma handleUpdate_settings (b : Bot) (now : string) (u : Update) :
  ollamaBaseURL (fst (handleUpdate b now u)) = ollamaBaseURL b
  /\ store_settings (userStore (fst (handleUpdate b now u)))
     = store_settings (userStore b).
Proof.
  unfold handleUpdate.
  destruct (Update_Message u) as [m |]; [| split; reflexivity].
  destruct (From m) as [from |]; [| split; reflexivity].
  destruct (String.eqb (TrimSpace (Text m)) ""); [split; reflexivity |].
  destruct (_ && HasPrefix _ "/adduser").
  { unfold handleAddUser.
    destruct (Fields _) as [| cmd [| arg rest]]; [split; reflexivity .. |].
    destruct (parseInt64 arg) as [toAdd |]; [| split; reflexivity].
    pose proof (AddUser_settings (userStore b) now toAdd) as H.
    destruct (auth.AddUser (userStore b) now toAdd) as [[err |] s];
      split; try reflexivity; exact H. }
  destruct (_ && HasPrefix _ "/listusers").
  { unfold handleListUsers.
    pose proof (ListUsers_settings (userStore b) 200) as H.
    destruct (auth.ListUsers (userStore b) 200)
      as [[[| row rows] [err |]] s]; split; try reflexivity; exact H. }
  destruct (HasPrefix _ "/whoami").
  { unfold handleWhoAmI.
    destruct (auth.IsEnabled (userStore b)); [| split; reflexivity].
    pose proof (IsAuthorized_settings (userStore b) (User_ID from)) as H.
    destruct (auth.IsAuthorized (userStore b) (User_ID from))
      as [[allowed err] s]. split; [reflexivity | exact H]. }
  assert (match authorize b now (Chat_ID m) (User_ID from) with
          | inl (b', _) | inr (b', _) =>
            ollamaBaseURL b' = ollamaBaseURL b
            /\ store_settings (userStore b') = store_settings (userStore b)
          end) as Ha.
  { unfold authorize.
    destruct (auth.IsEnabled (userStore b)); [| split; reflexivity].
    pose proof (IsAuthorized_settings (userStore b) (User_ID from)) as H.
    destruct (auth.IsAuthorized (userStore b) (User_ID from))
      as [[[|] [err |]] s]; cbn [snd] in H;
      try (split; [reflexivity | exact H]).
    pose proof (Touch_settings s now (User_ID from)) as Ht.
    destruct (auth.Touch s now (User_ID from)) as [[err |] s'];
      cbn [snd] in Ht;
      (split; [reflexivity | cbn [userStore set_store]; congruence]). }
  destruct (authorize b now (Chat_ID m) (User_ID from))
    as [[b1 stop] | [b1 logged]]; [exact Ha |].
  assert (ollamaBaseURL (fst (dispatch b1 (Chat_ID m) (TrimSpace (Text m))))
          = ollamaBaseURL b1
          /\ userStore (fst (dispatch b1 (Chat_ID m) (TrimSpace (Text m))))
             = userStore b1) as Hd.
  { unfold dispatch. destruct (HasPrefix _ "/start"); [split; reflexivity |].
    destruct (HasPrefix _ "/model"); [| split; reflexivity].
    unfold handleModelCommand.
    destruct (Fields _) as [| cmd [| arg rest]]; split; reflexivity. }
  destruct (dispatch b1 (Chat_ID m) (TrimSpace (Text m))) as [b2 effects].
  cbn [fst] in *. destruct Ha as [Ha1 Ha2], Hd as [Hd1 Hd2].
  split; congruence.
Qed.

(** X5: whatever messages arrive, [Run] never changes the backend address,
    whether authorization is enabled, or who the admin is. *)
Theorem Run_keeps_settings (b : Bot) (updates : list (string * Update)) :
  ollamaBaseURL (fst (Run b updates)) = ollamaBaseURL b
  /\ auth.IsEnabled (userStore (fst (Run b updates)))
     = auth.IsEnabled (userStore b)
  /\ forall id : Z,
       auth.IsAdmin (userStore (fst (Run b updates))) id
       = auth.IsAdmin (userStore b) id.
Proof.
  assert (ollamaBaseURL (fst (Run b updates)) = ollamaBaseURL b
          /\ store_settings (userStore (fst (Run b updates)))
             = store_settings (userStore b)) as [H1 H2].
  { revert b. induction updates as [| [now u] updates IH]; intros b;
      [split; reflexivity |].
    cbn [Run].
    pose proof (handleUpdate_settings b now u) as [Hu1 Hu2].
    destruct (handleUpdate b now u) as [b1 e1].
    specialize (IH b1). destruct (Run b1 updates) as [b2 e2].
    cbn [fst] in *. destruct IH as [IH1 IH2]. split; congruence. }
  split; [exact H1 |]. apply settings_IsEnabled. exact H2.
Qed.

(** ** What a turn of the loop writes *)

Lemma AddUser_table_cases (s : option auth.UserStore) (now : string)
    (id : Z) :
  auth.table (snd (auth.AddUser s now id)) = auth.table s
  \/ auth.table (snd (auth.AddUser s now id))
     = <[id := (match auth.table s !! id with
                | Some (c, _) => c
                | None => now
                end, now)]> (auth.table s).
Proof.
  destruct s as [u |]; [| left; reflexivity]. unfold auth.AddUser, auth.upsert.
  destruct (negb (auth.enabled u)); [left; reflexivity |].
  pose proof (next_fault_users (auth.db u)) as Hsame.
  destruct (auth.next_fault (auth.db u)) as [[e |] d]; cbn [snd] in Hsame;
    cbn [snd auth.table auth.set_db auth.db auth.users]; rewrite Hsame;
    [left; reflexivity |].
  right. destruct (auth.users (auth.db u) !! id) as [[c l] |]; reflexivity.
Qed.

Lemma Touch_table_cases (s : option auth.UserStore) (now : string) (id : Z) :
  auth.table (snd (auth.Touch s now id)) = auth.table s
  \/ (auth.IsAdmin s id = false
      /\ exists c l : string,
           auth.table s !! id = Some (c, l)
           /\ auth.table (snd (auth.Touch s now id))
              = <[id := (c, now)]> (auth.table s)).
Proof.
  destruct s as [u |]; [| left; reflexivity].
  unfold auth.Touch, auth.IsAdmin.
  destruct (auth.enabled u); cbn [negb andb]; [| left; reflexivity].
  destruct (id =? auth.adminID u); [left; reflexivity |].
  pose proof (update_activity_users (auth.db u) now id) as Hu.
  destruct (auth.update_activity (auth.db u) now id) as [err d].
  cbn [fst snd auth.table auth.set_db auth.db] in *. rewrite Hu.
  destruct err as [e |]; [left; reflexivity |].
  destruct (auth.users (auth.db u) !! id) as [[c l] |];
    [| left; reflexivity].
  right. split; [reflexivity |]. exists c, l. split; reflexivity.
Qed.

(** The authorization check writes at most the sender's own
    [last_activity]. *)
Lemma authorize_touch_table (b : Bot) (now : string) (chatID userID : Z) :
  match authorize b now chatID userID with
  | inl (b', _) => auth.table (userStore b') = auth.table (userStore b)
  | inr (b', _) =>
    auth.table (userStore b') = auth.table (userStore b)
    \/ exists c l : string,
         auth.table (userStore b) !! userID = Some (c, l)
         /\ auth.table (userStore b')
            = <[userID := (c, now)]> (auth.table (userStore b))
  end.
Proof.
  unfold authorize.
  destruct (auth.IsEnabled (userStore b)); [| left; reflexivity].
  pose proof (IsAuthorized_table (userStore b) userID) as H.
  destruct (auth.IsAuthorized (userStore b) userID)
    as [[[|] [err |]] s]; cbn [snd] in H; try exact H.
  pose proof (Touch_table_cases s now userID) as Ht.
  destruct (auth.Touch s now userID) as [[err |] s'];
    cbn [snd set_store userStore] in *; rewrite H in Ht;
    (destruct Ht as [Ht | [_ Ht]]; [left; exact Ht | right; exact Ht]).
Qed.

Lemma authorize_admin_table (b : Bot) (now : string) (chatID userID : Z) :
  auth.IsAdmin (userStore b) userID = true ->
  match authorize b now chatID userID with
  | inl (b', _) | inr (b', _) =>
    auth.table (userStore b') = auth.table (userStore b)
  end.
Proof.
  intros Hadm. destruct (userStore b) as [u |] eqn:Hs; [| discriminate].
  cbn [auth.IsAdmin] in Hadm. apply andb_true_iff in Hadm as [Hen Hid].
  unfold authorize. rewrite Hs. cbn [auth.IsEnabled]. rewrite Hen.
  unfold auth.IsAuthorized. rewrite Hen, Hid. cbn [negb].
  unfold auth.Touch. rewrite Hen, Hid. cbn [negb].
  cbn [set_store userStore]. reflexivity.
Qed.

(** What a turn can do to the table: nothing; or set the sender's own
    [last_activity] (a sender who is not the admin); or, for the admin,
    add one row or refresh one [last_activity]. *)
Lemma handleUpdate_table_cases (b : Bot) (now : string) (chatID userID : Z)
    (raw : string) :
  let t := auth.table (userStore b) in
  let t' := auth.table (userStore (fst (handleUpdate b now
              (mkUpdate (Some (mkMessage chatID (Some (mkUser userID))
                                 raw)))))) in
  t' = t
  \/ (auth.IsAdmin (userStore b) userID = false
      /\ exists c l : string,
           t !! userID = Some (c, l) /\ t' = <[userID := (c, now)]> t)
  \/ (auth.IsAdmin (userStore b) userID = true
      /\ exists id : Z,
           t' = <[id := (match t !! id with
                         | Some (c, _) => c
                         | None => now
                         end, now)]> t).
Proof.
  cbv zeta. unfold handleUpdate.
  cbn [Update_Message From Chat_ID User_ID Text].
  destruct (String.eqb (TrimSpace raw) ""); [left; reflexivity |].
  destruct (auth.IsAdmin (userStore b) userID) eqn:Hadm.
  - destruct (auth.IsEnabled (userStore b)) eqn:Hen; cbn [andb].
    + destruct (HasPrefix (TrimSpace raw) "/adduser").
      { unfold handleAddUser.
        destruct (Fields _) as [| cmd [| arg rest]]; [left; reflexivity .. |].
        destruct (parseInt64 arg) as [toAdd |]; [| left; reflexivity].
        pose proof (AddUser_table_cases (userStore b) now toAdd) as H.
        destruct (auth.AddUser (userStore b) now toAdd) as [[err |] s];
          cbn [fst snd set_store userStore] in *;
          (destruct H as [H | H]; [left; exact H |]);
          right; right; (split; [reflexivity |]); exists toAdd; exact H. }
      destruct (HasPrefix (TrimSpace raw) "/listusers");
        [left; apply handleListUsers_table |].
      destruct (HasPrefix (TrimSpace raw) "/whoami");
        [left; apply handleWhoAmI_table |].
      pose proof (authorize_admin_table b now chatID userID Hadm) as Ha.
      destruct (authorize b now chatID userID) as [[b1 stop] | [b1 logged]];
        [left; exact Ha |].
      pose proof (dispatch_store b1 chatID (TrimSpace raw)) as Hd.
      destruct (dispatch b1 chatID (TrimSpace raw)) as [b2 effects].
      cbn [fst] in *. left. rewrite Hd. exact Ha.
    + destruct (userStore b) as [u |]; [| discriminate].
      cbn in Hadm, Hen. rewrite Hen in Hadm. discriminate.
  - rewrite !andb_false_r. cbn [andb].
    destruct (HasPrefix (TrimSpace raw) "/whoami");
      [left; apply handleWhoAmI_table |].
    pose proof (authorize_touch_table b now chatID userID) as Ha.
    destruct (authorize b now chatID userID) as [[b1 stop] | [b1 logged]];
      [left; exact Ha |].
    pose proof (dispatch_store b1 chatID (TrimSpace raw)) as Hd.
    destruct (dispatch b1 chatID (TrimSpace raw)) as [b2 effects].
    cbn [fst] in *. rewrite Hd.
    destruct Ha as [Ha | Ha]; [left; exact Ha | right; left].
    split; [reflexivity | exact Ha].
Qed.

Lemma handleUpdate_rows_kept (b : Bot) (now : string) (u : Update)
    (id : Z) (c l : string) :
  auth.table (userStore b) !! id = Some (c, l) ->
  exists l' : string,
    auth.table (userStore (fst (handleUpdate b now u))) !! id = Some (c, l').
Proof.
  intros Hrow. destruct u as [[[chatID [[userID] |] raw] |]];
    [| exists l; exact Hrow | exists l; exact Hrow].
  pose proof (handleUpdate_table_cases b now chatID userID raw) as H.
  cbv zeta in H.
  destruct H as [-> | [(_ & c0 & l0 & Hsender & ->) | (_ & k & ->)]].
  - exists l. exact Hrow.
  - destruct (Z.eq_dec userID id) as [-> | Hne].
    + rewrite lookup_insert_eq. rewrite Hrow in Hsender.
      injection Hsender as <- <-. exists now. reflexivity.
    + rewrite lookup_insert_ne by exact Hne. exists l. exact Hrow.
  - destruct (Z.eq_dec k id) as [-> | Hne].
    + rewrite lookup_insert_eq, Hrow. exists now. reflexivity.
    + rewrite lookup_insert_ne by exact Hne. exists l. exact Hrow.
Qed.

(** X6: the bot never removes a whitelist row and never changes a
    [created_at]: a row that is in the table before [Run] takes any
    sequence of updates is there afterwards, with the same
    [created_at]. *)
Theorem Run_keeps_rows (b : Bot) (updates : list (string * Update))
    (id : Z) (c l : string) :
  auth.table (userStore b) !! id = Some (c, l) ->
  exists l' : string,
    auth.table (userStore (fst (Run b updates))) !! id = Some (c, l').
Proof.
  revert b l. induction updates as [| [now u] updates IH]; intros b l Hrow.
  - exists l. exact Hrow.
  - cbn [Run].
    destruct (handleUpdate_rows_kept b now u id c l Hrow) as [l1 H1].
    destruct (handleUpdate b now u) as [b1 e1]. cbn [fst] in H1.
    destruct (IH b1 l1 H1) as [l2 H2].
    destruct (Run b1 updates) as [b2 e2]. exists l2. exact H2.
Qed.

Lemma Run_keeps_rows_witness :
  exists l' : string,
    auth.table (userStore (fst (Run
      (mkBot (example_store {[ 5 := ("c5", "l5") ]} []) "http://x" "m")
      [("t1", example_update 100 "/adduser 6");
       ("t2", example_update 5 "hello");
       ("t3", example_update 100 "/adduser 5")]))) !! 5
    = Some ("c5", l').
Proof.
  apply (Run_keeps_rows
           (mkBot (example_store {[ 5 := ("c5", "l5") ]} []) "http://x" "m")
           _ 5 "c5" "l5").
  reflexivity.
Defined.

(** X7: a message from a sender who is not the admin changes at most the
    sender's own [last_activity], and that only to the time of the turn:
    the set of ids in the table, every other row, and the sender's
    [created_at] stay as they are. *)
Theorem non_admin_turn_frame (b : Bot) (now : string) (chatID userID : Z)
    (raw : string) :
  auth.IsAdmin (userStore b) userID = false ->
  dom (auth.table (userStore (fst (handleUpdate b now
         (mkUpdate (Some (mkMessage chatID (Some (mkUser userID)) raw)))))))
  = dom (auth.table (userStore b))
  /\ (forall j : Z,
        j <> userID ->
        auth.table (userStore (fst (handleUpdate b now
           (mkUpdate (Some (mkMessage chatID (Some (mkUser userID)) raw))))))
        !! j
        = auth.table (userStore b) !! j)
  /\ (forall c l : string,
        auth.table (userStore b) !! userID = Some (c, l) ->
        exists l' : string,
          auth.table (userStore (fst (handleUpdate b now
             (mkUpdate (Some (mkMessage chatID (Some (mkUser userID))
                                raw))))))
          !! userID
          = Some (c, l')
          /\ (l' = l \/ l' = now)).
Proof.
  intros Hadm.
  pose proof (handleUpdate_table_cases b now chatID userID raw) as H.
  cbv zeta in H.
  destruct H as [-> | [(_ & c0 & l0 & Hsender & ->) | (Hadm' & _)]];
    [| | congruence].
  - split; [reflexivity |]. split; [reflexivity |].
    intros c l Hrow. exists l. split; [exact Hrow | left; reflexivity].
  - split; [apply dom_insert_lookup_L; eauto |]. split.
    + intros j Hne. apply lookup_insert_ne. congruence.
    + intros c l Hrow. rewrite Hrow in Hsender. injection Hsender as <- <-.
      exists now. split; [apply lookup_insert_eq | right; reflexivity].
Qed.

Lemma non_admin_turn_frame_witness :
  dom (auth.table (userStore (fst (handleUpdate
         (mkBot (example_store {[ 5 := ("c5", "l5") ]} []) "http://x" "m")
         "t1" (mkUpdate (Some (mkMessage 7 (Some (mkUser 5))
                                 "/adduser 6")))))))
  = dom (auth.table (example_store {[ 5 := ("c5", "l5") ]} [])).
Proof.
  apply (non_admin_turn_frame
           (mkBot (example_store {[ 5 := ("c5", "l5") ]} []) "http://x" "m")
           "t1" 7 5 "/adduser 6").
  reflexivity.
Defined.

(** ** Who reaches what *)

(** X8: with authorization enabled and the store answering, a sender who
    is neither the admin nor in the table gets the not-allowed text for
    every message that does not start with [/whoami], and nothing else
    happens: no greeting, no model switch, no query, no write. *)
Theorem denied_user_stopped (b : Bot) (u : auth.UserStore) (now : string)
    (chatID userID : Z) (raw : string) :
  userStore b = Some u ->
  auth.enabled u = true ->
  userID <> auth.adminID u ->
  fst (auth.next_fault (auth.db u)) = None ->
  auth.users (auth.db u) !! userID = None ->
  TrimSpace raw <> "" ->
  HasPrefix (TrimSpace raw) "/whoami" = false ->
  handleUpdate b now
    (mkUpdate (Some (mkMessage chatID (Some (mkUser userID)) raw)))
  = (set_store b (Some (auth.set_db u (snd (auth.next_fault (auth.db u))))),
     [Send (NewMessage chatID text_not_allowed)]).
Proof.
  intros Hs Hen Hadm Hfault Hrow Hne Hwho.
  unfold handleUpdate. cbn [Update_Message From Chat_ID User_ID Text].
  assert (String.eqb (TrimSpace raw) "" = false) as ->
    by (apply String.eqb_neq; exact Hne).
  assert (auth.IsAdmin (userStore b) userID = false) as ->.
  { rewrite Hs. cbn [auth.IsAdmin]. rewrite Hen.
    apply Z.eqb_neq. exact Hadm. }
  rewrite !andb_false_r, Hwho. cbn [andb].
  unfold authorize. rewrite Hs. cbn [auth.IsEnabled]. rewrite Hen.
  unfold auth.IsAuthorized. rewrite Hen. cbn [negb].
  rewrite (proj2 (Z.eqb_neq _ _) Hadm).
  unfold auth.select_one.
  pose proof (next_fault_users (auth.db u)) as Hsame.
  destruct (auth.next_fault (auth.db u)) as [f d].
  cbn [fst snd] in *. subst f. rewrite Hsame, Hrow. reflexivity.
Qed.

Lemma denied_user_stopped_witness :
  handleUpdate (mkBot (example_store ∅ []) "http://x" "llama3.1") "t1"
    (mkUpdate (Some (mkMessage 7 (Some (mkUser 5)) "/model mistral")))
  = (mkBot (example_store ∅ []) "http://x" "llama3.1",
     [Send (NewMessage 7 text_not_allowed)]).
Proof.
  assert (5 <> 100) as Hadm by lia.
  assert (TrimSpace "/model mistral" <> "") as Hne
    by (vm_compute; discriminate).
  exact (denied_user_stopped
           (mkBot (example_store ∅ []) "http://x" "llama3.1")
           (auth.mkUserStore true 100 (auth.mkDB ∅ []))
           "t1" 7 5 "/model mistral"
           eq_refl eq_refl Hadm eq_refl eq_refl Hne eq_refl).
Defined.

(** X9: an [/adduser] of the admin whose argument is missing or is not an
    integer is answered with the usage or the invalid-id text and leaves
    the bot exactly as it was: no statement reaches the database. *)
Theorem adduser_bad_argument (b : Bot) (now : string) (chatID userID : Z)
    (raw : string) :
  auth.IsAdmin (userStore b) userID = true ->
  HasPrefix (TrimSpace raw) "/adduser" = true ->
  ((length (Fields (TrimSpace raw)) < 2)%nat ->
   handleUpdate b now
     (mkUpdate (Some (mkMessage chatID (Some (mkUser userID)) raw)))
   = (b, [Send (NewMessage chatID "Usage: /adduser <telegram_id>")]))
  /\ (forall (cmd arg : string) (more : list string),
        Fields (TrimSpace raw) = cmd :: arg :: more ->
        parseInt64 arg = None ->
        handleUpdate b now
          (mkUpdate (Some (mkMessage chatID (Some (mkUser userID)) raw)))
        = (b, [Send (NewMessage chatID
                       "Invalid user id (must be integer).")])).
Proof.
  intros Hadm Hpre.
  assert (auth.IsEnabled (userStore b) = true) as Hen.
  { destruct (userStore b) as [u |]; [| discriminate].
    cbn in Hadm |- *. apply andb_true_iff in Hadm. tauto. }
  unfold handleUpdate. cbn [Update_Message From Chat_ID User_ID Text].
  rewrite (HasPrefix_nonempty _ "/adduser") by (discriminate || exact Hpre).
  rewrite Hen, Hadm, Hpre. cbn [andb]. unfold handleAddUser. split.
  - intros Hlen.
    destruct (Fields (TrimSpace raw)) as [| cmd [| arg more]];
      [reflexivity | reflexivity | cbn in Hlen; lia].
  - intros cmd arg more -> ->. reflexivity.
Qed.

Lemma adduser_bad_argument_witness :
  handleUpdate (mkBot (example_store ∅ [Some "disk I/O error"])
                  "http://x" "m") "t1"
    (mkUpdate (Some (mkMessage 7 (Some (mkUser 100)) "/adduser 12ab")))
  = (mkBot (example_store ∅ [Some "disk I/O error"]) "http://x" "m",
     [Send (NewMessage 7 "Invalid user id (must be integer).")]).
Proof.
  exact (proj2 (adduser_bad_argument
                  (mkBot (example_store ∅ [Some "disk I/O error"])
                     "http://x" "m")
                  "t1" 7 100 "/adduser 12ab" eq_refl eq_refl)
           "/adduser" "12ab" [] eq_refl eq_refl).
Defined.

(** X10: the admin's commands are the admin's only: from anyone else, and
    from everyone when authorization is disabled, a text that starts with
    [/adduser] or [/listusers] is an ordinary query once the authorization
    check lets it through, forwarded to the model as it is. *)
Theorem admin_words_from_others_are_queries (b b1 : Bot) (now : string)
    (chatID userID : Z) (raw suffix : string) (logged : list effect) :
  auth.IsAdmin (userStore b) userID = false ->
  TrimSpace raw = "/adduser" +:+ suffix
  \/ TrimSpace raw = "/listusers" +:+ suffix ->
  authorize b now chatID userID = inr (b1, logged) ->
  handleUpdate b now
    (mkUpdate (Some (mkMessage chatID (Some (mkUser userID)) raw)))
  = (b1, logged ++ [Send (NewChatAction chatID ChatTyping);
                    Go (mkQueryTask chatID (TrimSpace raw) (model b1))]).
Proof.
  intros Hadm Htext Hauth.
  unfold handleUpdate. cbn [Update_Message From Chat_ID User_ID Text].
  rewrite Hadm, Hauth, !andb_false_r. cbn [andb]. unfold dispatch.
  destruct Htext as [-> | ->]; reflexivity.
Qed.

Lemma admin_words_from_others_are_queries_witness :
  handleUpdate example_bot "t1"
    (mkUpdate (Some (mkMessage 7 (Some (mkUser 5)) "/adduser 6")))
  = (example_bot,
     [] ++ [Send (NewChatAction 7 ChatTyping);
            Go (mkQueryTask 7 (TrimSpace "/adduser 6") (model example_bot))]).
Proof.
  apply (admin_words_from_others_are_queries example_bot example_bot "t1"
           7 5 "/adduser 6" " 6" []).
  - reflexivity.
  - left. reflexivity.
  - reflexivity.
Defined.

(** ** Integers in and out of text *)

Lemma digits_value_acc (d : Decimal.uint) (acc : positive) :
  digits_value (Z.pos acc)
    (list_ascii_of_string (NilEmpty.string_of_uint d))
  = Some (Z.pos (Pos.of_uint_acc d acc)).
Proof.
  revert acc. induction d as [| d IH | d IH | d IH | d IH | d IH | d IH
                              | d IH | d IH | d IH | d IH]; intros acc;
    [reflexivity | ..];
    cbn [NilEmpty.string_of_uint list_ascii_of_string digits_value
         Pos.of_uint_acc];
    match goal with
    | |- context [is_digit ?c] =>
      change (is_digit c) with true; cbv iota
    end;
    rewrite <- IH; f_equal; vm_compute (byte_val _); lia.
Qed.

Lemma digits_value_zero (d : Decimal.uint) :
  digits_value 0 (list_ascii_of_string (NilEmpty.string_of_uint d))
  = Some (Z.of_N (Pos.of_uint d)).
Proof.
  induction d as [| d IH | d IH | d IH | d IH | d IH | d IH
                  | d IH | d IH | d IH | d IH];
    [reflexivity | exact IH | ..];
    cbn [NilEmpty.string_of_uint list_ascii_of_string digits_value
         Pos.of_uint];
    match goal with
    | |- context [is_digit ?c] =>
      change (is_digit c) with true; cbv iota
    end;
    vm_compute (0 * 10 + _); apply digits_value_acc.
Qed.

Lemma digits_value_nonneg (l : list ascii) (acc v : Z) :
  0 <= acc -> digits_value acc l = Some v -> 0 <= v.
Proof.
  revert acc. induction l as [| c l IH]; intros acc Hacc H; cbn in H.
  - injection H as <-. exact Hacc.
  - destruct (is_digit c) eqn:Hd; [| discriminate].
    apply (IH (acc * 10 + (byte_val c - 48))); [| exact H].
    unfold is_digit in Hd. apply andb_true_iff in Hd as [Hlo _].
    apply Z.leb_le in Hlo. lia.
Qed.

Lemma parse_unsigned (d : Decimal.uint) :
  d <> Decimal.Nil ->
  parseInt64 (NilEmpty.string_of_uint d)
  = if Z.of_N (Pos.of_uint d) <? 2 ^ 63
    then Some (Z.of_N (Pos.of_uint d)) else None.
Proof.
  intros Hd. pose proof (digits_value_zero d) as Hv.
  destruct d; [congruence | ..];
    unfold parseInt64;
    cbn [NilEmpty.string_of_uint list_ascii_of_string] in Hv |- *;
    cbn [Ascii.eqb Bool.eqb]; rewrite Hv; reflexivity.
Qed.

Lemma parse_negative (d : Decimal.uint) :
  d <> Decimal.Nil ->
  parseInt64 (String "-" (NilEmpty.string_of_uint d))
  = if Z.of_N (Pos.of_uint d) <=? 2 ^ 63
    then Some (- Z.of_N (Pos.of_uint d)) else None.
Proof.
  intros Hd. pose proof (digits_value_zero d) as Hv.
  unfold parseInt64. cbn [list_ascii_of_string Ascii.eqb Bool.eqb].
  destruct d; [congruence | ..];
    cbn [NilEmpty.string_of_uint list_ascii_of_string] in Hv |- *;
    rewrite Hv; reflexivity.
Qed.

Lemma parseInt64_FormatInt (z : Z) :
  - 2 ^ 63 <= z < 2 ^ 63 -> parseInt64 (FormatInt z) = Some z.
Proof.
  intros Hr. unfold FormatInt. destruct z as [| p | p].
  - reflexivity.
  - cbn [Z.to_int NilZero.string_of_int]. unfold NilZero.string_of_uint.
    pose proof (DecimalPos.Unsigned.to_uint_nonnil p) as Hnn.
    pose proof (DecimalPos.Unsigned.of_to p) as Hof.
    destruct (Pos.to_uint p) eqn:Hd; [congruence | ..];
      rewrite <- Hd in *; rewrite parse_unsigned by exact Hnn;
      rewrite Hof; cbn [Z.of_N];
      rewrite (proj2 (Z.ltb_lt _ _)) by lia; reflexivity.
  - cbn [Z.to_int NilZero.string_of_int]. unfold NilZero.string_of_uint.
    pose proof (DecimalPos.Unsigned.to_uint_nonnil p) as Hnn.
    pose proof (DecimalPos.Unsigned.of_to p) as Hof.
    destruct (Pos.to_uint p) eqn:Hd; [congruence | ..];
      rewrite <- Hd in *; rewrite parse_negative by exact Hnn;
      rewrite Hof; cbn [Z.of_N];
      rewrite (proj2 (Z.leb_le _ _)) by lia; reflexivity.
Qed.

(** X11: [parseInt64] returns only integers of the [int64] range, and reads
    back every [int64] as [%d] prints it. *)
Theorem parseInt64_int64 (s : string) (z : Z) :
  (parseInt64 s = Some z -> - 2 ^ 63 <= z < 2 ^ 63)
  /\ (- 2 ^ 63 <= z < 2 ^ 63 -> parseInt64 (FormatInt z) = Some z).
Proof.
  split; [| apply parseInt64_FormatInt].
  unfold parseInt64.
  assert (forall (neg : bool) (l : list ascii),
            match l with
            | [] => None
            | _ :: _ =>
              match digits_value 0 l with
              | Some v =>
                if neg then if v <=? 2 ^ 63 then Some (- v) else None
                else if v <? 2 ^ 63 then Some v else None
              | None => None
              end
            end = Some z -> - 2 ^ 63 <= z < 2 ^ 63) as Hparse.
  { intros neg l H. destruct l as [| c l]; [discriminate |].
    destruct (digits_value 0 (c :: l)) as [v |] eqn:Hv; [| discriminate].
    apply digits_value_nonneg in Hv; [| lia].
    destruct neg.
    - destruct (v <=? 2 ^ 63) eqn:Hr; [| discriminate].
      apply Z.leb_le in Hr. injection H as <-. lia.
    - destruct (v <? 2 ^ 63) eqn:Hr; [| discriminate].
      apply Z.ltb_lt in Hr. injection H as <-. lia. }
  destruct (list_ascii_of_string s) as [| c rest]; [discriminate |].
  destruct (Ascii.eqb c "+"); [exact (Hparse false rest) |].
  destruct (Ascii.eqb c "-");
    [exact (Hparse true rest) | exact (Hparse false (c :: rest))].
Qed.

Lemma parseInt64_int64_witness :
  parseInt64 (FormatInt (- 9223372036854775808))
  = Some (- 9223372036854775808)
  /\ parseInt64 "9223372036854775808" = None.
Proof.
  split.
  - apply (proj2 (parseInt64_int64 "" (- 9223372036854775808))). lia.
  - reflexivity.
Defined.

(** ** Fields of plain ASCII words *)

Lemma fields_from_word (l : list Z) :
  Forall word_byte l ->
  forall cur : list Z,
    fields_from 0 (Some cur) l = [cur ++ l].
Proof.
  induction 1 as [| b l [Hb Hs] _ IH]; intros cur.
  - cbn. rewrite app_nil_r. reflexivity.
  - cbn [fields_from utf8.range_step]. unfold utf8.runeSelf.
    rewrite (proj2 (Z.ltb_lt b 128)) by lia. rewrite Hs. cbn [Nat.pred].
    rewrite IH, <- app_assoc. reflexivity.
Qed.

Lemma uint_word_bytes (d : Decimal.uint) :
  Forall word_byte (bytes_of_string (NilEmpty.string_of_uint d)).
Proof.
  induction d; cbn [NilEmpty.string_of_uint]; [constructor | ..];
    (constructor; [split; [vm_compute; split; [discriminate | reflexivity]
                          | reflexivity]
                  | exact IHd]).
Qed.

Lemma string_of_uint_nonnil (d : Decimal.uint) :
  d <> Decimal.Nil ->
  NilZero.string_of_uint d = NilEmpty.string_of_uint d
  /\ NilEmpty.string_of_uint d <> "".
Proof.
  destruct d; [congruence | ..]; intros _;
    (split; [reflexivity | discriminate]).
Qed.

Lemma FormatInt_word (z : Z) :
  Forall word_byte (bytes_of_string (FormatInt z))
  /\ FormatInt z <> "".
Proof.
  assert (word_byte 48 /\ word_byte 45) as [H0 Hminus].
  { split; (split; [lia | reflexivity]). }
  unfold FormatInt. destruct z as [| p | p].
  - split; [| discriminate]. repeat constructor; apply H0.
  - cbn [Z.to_int NilZero.string_of_int].
    destruct (string_of_uint_nonnil _ (DecimalPos.Unsigned.to_uint_nonnil p))
      as [-> Hne].
    split; [apply uint_word_bytes | exact Hne].
  - cbn [Z.to_int NilZero.string_of_int].
    destruct (string_of_uint_nonnil _ (DecimalPos.Unsigned.to_uint_nonnil p))
      as [-> Hne].
    split; [| discriminate].
    change (Forall word_byte
              (45 :: bytes_of_string
                       (NilEmpty.string_of_uint (Pos.to_uint p)))).
    constructor; [exact Hminus | apply uint_word_bytes].
Qed.

Lemma bytes_of_string_append (a b : string) :
  bytes_of_string (a +:+ b) = bytes_of_string a ++ bytes_of_string b.
Proof.
  unfold bytes_of_string.
  induction a as [| c a IH]; [reflexivity |].
  cbn [list_ascii_of_string map app]. rewrite <- IH. reflexivity.
Qed.

Lemma Fields_adduser_word (w : string) :
  Forall word_byte (bytes_of_string w) -> w <> "" ->
  Fields ("/adduser " +:+ w) = ["/adduser"; w].
Proof.
  intros Hw Hne. unfold Fields. rewrite bytes_of_string_append.
  destruct (bytes_of_string w) as [| b bs] eqn:Hbytes.
  { destruct w; [congruence | discriminate]. }
  inversion Hw as [| b' bs' [Hb Hs] Hrest]; subst.
  change (bytes_of_string "/adduser ")
    with [47; 97; 100; 100; 117; 115; 101; 114; 32].
  cbn [app fields_from utf8.range_step Nat.pred].
  change (47 <? utf8.runeSelf) with true.
  change (97 <? utf8.runeSelf) with true.
  change (100 <? utf8.runeSelf) with true.
  change (117 <? utf8.runeSelf) with true.
  change (115 <? utf8.runeSelf) with true.
  change (101 <? utf8.runeSelf) with true.
  change (114 <? utf8.runeSelf) with true.
  change (32 <? utf8.runeSelf) with true.
  cbv iota.
  change (IsSpace 47) with false. change (IsSpace 97) with false.
  change (IsSpace 100) with false. change (IsSpace 117) with false.
  change (IsSpace 115) with false. change (IsSpace 101) with false.
  change (IsSpace 114) with false. change (IsSpace 32) with true.
  cbv iota. cbn [app Nat.pred].
  unfold utf8.runeSelf. rewrite (proj2 (Z.ltb_lt b 128)) by lia.
  rewrite Hs. cbn [Nat.pred].
  rewrite (fields_from_word bs Hrest [b]). cbn [map app].
  rewrite <- Hbytes, string_of_bytes_of_string. reflexivity.
Qed.

(** X12: when the admin sends [/adduser] followed by an [int64] in decimal
    and the statement runs, exactly that id is in the table afterwards,
    keeping its [created_at] if it had a row and created at the time of
    the turn if not, with [last_activity] the time of the turn; the reply
    names the id, the model is untouched and no query starts. *)
Theorem admin_adds_user (b : Bot) (u : auth.UserStore) (now : string)
    (chatID userID : Z) (raw : string) (id : Z) :
  userStore b = Some u ->
  auth.enabled u = true ->
  userID = auth.adminID u ->
  fst (auth.next_fault (auth.db u)) = None ->
  - 2 ^ 63 <= id < 2 ^ 63 ->
  TrimSpace raw = "/adduser " +:+ FormatInt id ->
  exists b' : Bot,
    handleUpdate b now
      (mkUpdate (Some (mkMessage chatID (Some (mkUser userID)) raw)))
    = (b', [Send (NewMessage chatID
                    (mark_done +:+ " User " +:+ FormatInt id
                     +:+ " has been added/updated."))])
    /\ auth.table (userStore b') !! id
       = Some (match auth.users (auth.db u) !! id with
               | Some (c, _) => c
               | None => now
               end, now)
    /\ (forall other : Z,
          other <> id ->
          auth.table (userStore b') !! other
          = auth.users (auth.db u) !! other)
    /\ model b' = model b.
Proof.
  intros Hs Hen Hadm Hfault Hrange Htext.
  destruct (FormatInt_word id) as [Hword Hne].
  unfold handleUpdate. cbn [Update_Message From Chat_ID User_ID Text].
  rewrite Htext, Hs. cbn [auth.IsEnabled auth.IsAdmin]. rewrite Hen, Hadm.
  rewrite Z.eqb_refl.
  change (String.eqb ("/adduser " +:+ FormatInt id) "") with false.
  change (HasPrefix ("/adduser " +:+ FormatInt id) "/adduser") with true.
  cbn [andb]. unfold handleAddUser.
  rewrite (Fields_adduser_word _ Hword Hne).
  rewrite (parseInt64_FormatInt id Hrange).
  rewrite Hs. unfold auth.AddUser, auth.upsert. rewrite Hen. cbn [negb].
  pose proof (next_fault_users (auth.db u)) as Hsame.
  destruct (auth.next_fault (auth.db u)) as [f d].
  cbn [fst snd] in Hfault, Hsame. subst f. eexists. split; [reflexivity |].
  cbn [set_store userStore model auth.table auth.set_db auth.db auth.users].
  rewrite Hsame. split; [| split; [| reflexivity]].
  - destruct (auth.users (auth.db u) !! id) as [[c l] |];
      apply lookup_insert_eq.
  - intros other Hother.
    destruct (auth.users (auth.db u) !! id) as [[c l] |];
      apply lookup_insert_ne; congruence.
Qed.

Lemma admin_adds_user_witness :
  exists b' : Bot,
    handleUpdate (mkBot (example_store {[ 5 := ("c5", "l5") ]} [])
                    "http://x" "m") "t1"
      (mkUpdate (Some (mkMessage 7 (Some (mkUser 100)) "  /adduser -42 ")))
    = (b', [Send (NewMessage 7
                    (mark_done +:+ " User " +:+ FormatInt (- 42)
                     +:+ " has been added/updated."))])
    /\ auth.table (userStore b') !! (- 42) = Some ("t1", "t1").
Proof.
  destruct (admin_adds_user
              (mkBot (example_store {[ 5 := ("c5", "l5") ]} [])
                 "http://x" "m")
              (auth.mkUserStore true 100
                 (auth.mkDB {[ 5 := ("c5", "l5") ]} []))
              "t1" 7 100 "  /adduser -42 " (- 42)
              eq_refl eq_refl eq_refl eq_refl ltac:(lia) eq_refl)
    as (b' & Hrun & Hrow & _).
  exists b'. split; [exact Hrun | exact Hrow].
Defined.

(** ** Fields are never empty *)

Lemma fields_from_nonempty (s : list Z) :
  forall (skip : nat) (cur : option (list Z)),
    (forall f : list Z, cur = Some f -> f <> []) ->
    Forall (fun f => f <> []) (fields_from skip cur s).
Proof.
  induction s as [| b s IH]; intros skip cur Hcur.
  - cbn. destruct cur as [f |]; [| constructor].
    constructor; [apply Hcur; reflexivity | constructor].
  - cbn [fields_from]. destruct skip as [| k].
    + destruct (utf8.range_step (b :: s)) as [r w].
      destruct (IsSpace r).
      * destruct cur as [f |].
        -- constructor; [apply Hcur; reflexivity |].
           apply IH. discriminate.
        -- apply IH. discriminate.
      * apply IH. intros f Hf. injection Hf as <-.
        destruct cur as [g |]; [| discriminate].
        intros Happ. apply app_eq_nil in Happ as [_ Hnil]. discriminate.
    + apply IH. intros f Hf. destruct cur as [g |]; [| discriminate].
      cbn in Hf. injection Hf as <-.
      intros Happ. apply app_eq_nil in Happ as [_ Hnil]. discriminate.
Qed.

(** X13: [Fields] never returns an empty string, so [/model] never sets an
    empty model: after [handleModelCommand] the model is the one before or
    a name that is not empty. *)
Theorem Fields_never_empty (b : Bot) (chatID : Z) (text : string) :
  (forall f : string, In f (Fields text) -> f <> "")
  /\ (model (fst (handleModelCommand b chatID text)) = model b
      \/ model (fst (handleModelCommand b chatID text)) <> "").
Proof.
  assert (forall f : string, In f (Fields text) -> f <> "") as Hfields.
  { intros f Hin. unfold Fields in Hin.
    apply in_map_iff in Hin as (l & <- & Hl).
    pose proof (fields_from_nonempty (bytes_of_string text) 0 None) as Hall.
    rewrite Forall_forall in Hall.
    assert (l <> []) as Hne
      by (apply Hall; [discriminate | apply list_elem_of_In; exact Hl]).
    destruct l as [| x l]; [congruence | discriminate]. }
  split; [exact Hfields |].
  unfold handleModelCommand.
  destruct (Fields text) as [| cmd [| arg more]];
    [left; reflexivity | left; reflexivity |].
  right. cbn. apply Hfields. right. left. reflexivity.
Qed.

(** ** The backend address *)

Lemma trim_go_spec (l : list ascii) :
  let fix go (l : list ascii) : list ascii :=
    match l with
    | c :: rest => if Ascii.eqb c "/" then go rest else l
    | [] => []
    end in
  exists k : nat,
    l = repeat "/"%char k ++ go l
    /\ match go l with c :: _ => c <> "/"%char | [] => True end.
Proof.
  cbv zeta. induction l as [| c l IH].
  - exists 0%nat. split; [reflexivity | exact I].
  - destruct (Ascii.eqb_spec c "/") as [-> | Hne].
    + destruct IH as (k & Hl & Hhd). exists (S k). split; [| exact Hhd].
      cbn [repeat app]. f_equal. exact Hl.
    + exists 0%nat. split; [reflexivity | exact Hne].
Qed.

Lemma string_of_list_ascii_app (a b : list ascii) :
  string_of_list_ascii (a ++ b)
  = string_of_list_ascii a +:+ string_of_list_ascii b.
Proof.
  induction a as [| c a IH]; [reflexivity |].
  cbn [app string_of_list_ascii]. rewrite IH. reflexivity.
Qed.

Lemma list_ascii_of_string_app (a b : string) :
  list_ascii_of_string (a +:+ b)
  = list_ascii_of_string a ++ list_ascii_of_string b.
Proof.
  induction a as [| c a IH]; [reflexivity |].
  cbn [list_ascii_of_string app]. rewrite <- IH. reflexivity.
Qed.

Lemma rev_repeat {A : Type} (x : A) (k : nat) :
  rev (repeat x k) = repeat x k.
Proof.
  induction k as [| k IH]; [reflexivity |].
  cbn [repeat rev]. rewrite IH. symmetry. apply repeat_cons.
Qed.

(** X14: [NewBot] keeps the backend address without its trailing slashes
    and takes away nothing else, so the stored address never ends in a
    slash and the URL of a request is that address followed by
    [/api/chat]. *)
Theorem NewBot_address (store : option auth.UserStore) (url m : string) :
  (exists k : nat,
     url = ollamaBaseURL (NewBot store url m)
           +:+ string_of_list_ascii (repeat "/"%char k))
  /\ ~ ends_with_slash (ollamaBaseURL (NewBot store url m))
  /\ forall model prompt : string,
       fst (callOllama_request (NewBot store url m) model prompt)
       = ollamaBaseURL (NewBot store url m) +:+ "/api/chat".
Proof.
  cbn [NewBot ollamaBaseURL callOllama_request fst].
  unfold TrimRight_slash.
  destruct (trim_go_spec (rev (list_ascii_of_string url)))
    as (k & Hrev & Hhd).
  cbv zeta in Hrev, Hhd.
  set (kept := (fix go (l : list ascii) : list ascii :=
                  match l with
                  | [] => []
                  | c :: rest => if Ascii.eqb c "/" then go rest else l
                  end) (rev (list_ascii_of_string url))) in *.
  split; [| split; [| reflexivity]].
  - exists k. rewrite <- string_of_list_ascii_app.
    rewrite <- (string_of_list_ascii_of_string url) at 1. f_equal.
    rewrite <- (rev_involutive (list_ascii_of_string url)), Hrev.
    rewrite rev_app_distr, rev_repeat. reflexivity.
  - intros [t Ht].
    apply (f_equal list_ascii_of_string) in Ht.
    rewrite list_ascii_of_string_of_list_ascii, list_ascii_of_string_app in Ht.
    apply (f_equal (@rev ascii)) in Ht.
    rewrite rev_involutive, rev_app_distr in Ht. cbn in Ht.
    rewrite Ht in Hhd. congruence.
Qed.

(** ** Decoding any bytes *)

Lemma runeError_scalar : scalar runeError.
Proof. unfold scalar, runeError, maxRune, surrogateMin, surrogateMax. lia. Qed.

Lemma low6 (x : Z) : 0 <= Z.land x maskx < 64.
Proof. unfold maskx. rewrite (land_mask _ 6) by lia. zlia. Qed.

Lemma decoderune_scalar (s : list Z) : scalar (fst (decoderune s)).
Proof.
  unfold decoderune.
  destruct s as [| s0 [| s1 rest]]; try apply runeError_scalar.
  destruct ((t2 <=? s0) && (s0 <? t3)).
  { destruct (cont s1); [| apply runeError_scalar].
    rewrite join2 by apply low6.
    destruct (rune1Max <? _) eqn:Hlo; [| apply runeError_scalar].
    cbn [fst]. pose proof (low6 s1) as H1.
    assert (0 <= Z.land s0 mask2 < 32) as H0.
    { unfold mask2. rewrite (land_mask _ 5) by lia. zlia. }
    unfold scalar, maxRune, surrogateMin, surrogateMax. lia. }
  destruct ((t3 <=? s0) && (s0 <? t4)).
  { destruct rest as [| s2 rest]; [apply runeError_scalar |].
    destruct (cont s1 && cont s2); [| apply runeError_scalar].
    rewrite join3 by apply low6.
    destruct ((rune2Max <? _) && negb _) eqn:Hok; [| apply runeError_scalar].
    cbn [fst]. apply andb_true_iff in Hok as [Hlo Hsur].
    apply negb_true_iff, andb_false_iff in Hsur.
    rewrite !Z.leb_gt in Hsur.
    pose proof (low6 s1) as H1. pose proof (low6 s2) as H2.
    assert (0 <= Z.land s0 mask3 < 16) as H0.
    { unfold mask3. rewrite (land_mask _ 4) by lia. zlia. }
    unfold scalar, maxRune. unfold surrogateMin, surrogateMax in *. lia. }
  destruct ((t4 <=? s0) && (s0 <? t5)); [| apply runeError_scalar].
  destruct rest as [| s2 [| s3 rest]]; try apply runeError_scalar.
  destruct (cont s1 && cont s2 && cont s3); [| apply runeError_scalar].
  rewrite join4 by apply low6.
  destruct ((rune3Max <? _) && (_ <=? maxRune)) eqn:Hok;
    [| apply runeError_scalar].
  cbn [fst]. apply andb_true_iff in Hok as [Hlo Hhi].
  apply Z.ltb_lt in Hlo. apply Z.leb_le in Hhi.
  unfold scalar. unfold rune3Max, maxRune, surrogateMin, surrogateMax in *.
  lia.
Qed.

Lemma range_runes_scalar (s : list Z) :
  Forall (fun b => 0 <= b) s ->
  forall skip : nat, Forall scalar (range_runes skip s).
Proof.
  induction 1 as [| b s Hb _ IH]; intros skip; [constructor |].
  cbn [range_runes]. destruct skip as [| k]; [| apply IH].
  unfold range_step.
  destruct (b <? runeSelf) eqn:Hlow.
  - constructor; [| apply IH]. apply Z.ltb_lt in Hlow.
    unfold scalar, runeSelf, maxRune, surrogateMin, surrogateMax in *. lia.
  - pose proof (decoderune_scalar (b :: s)) as Hd.
    destruct (decoderune (b :: s)) as [r w].
    constructor; [exact Hd | apply IH].
Qed.

Lemma bytes_of_string_nonneg (s : string) :
  Forall (fun b => 0 <= b) (bytes_of_string s).
Proof.
  unfold bytes_of_string. apply Forall_map, Forall_forall.
  intros c _. unfold byte_val. lia.
Qed.

Lemma runes_of_string_scalar (s : string) :
  Forall scalar (runes_of_string s).
Proof. apply range_runes_scalar, bytes_of_string_nonneg. Qed.

Lemma length_range_runes (s : list Z) (skip : nat) :
  (length (range_runes skip s) <= length s)%nat.
Proof.
  revert skip. induction s as [| b s IH]; intros skip; [reflexivity |].
  cbn [range_runes]. destruct skip as [| k].
  - destruct (range_step (b :: s)) as [r w]. cbn [length].
    specialize (IH (Nat.pred w)). lia.
  - specialize (IH k). cbn [length]. lia.
Qed.

Lemma RuneCount_le_len (s : string) : RuneCountInString s <= len s.
Proof.
  unfold RuneCountInString, runes_of_string, len.
  pose proof (length_range_runes (bytes_of_string s) 0) as H.
  unfold bytes_of_string in H. rewrite length_map in H.
  assert (length (list_ascii_of_string s) = String.length s) as Hl.
  { clear H. induction s as [| c s IH]; [reflexivity |]. cbn. f_equal.
    exact IH. }
  unfold bytes_of_string. lia.
Qed.

(** ** The exact shape of the pieces *)

(** The loop of the chunker cuts off full parts of exactly [max] runes and
    ends with what is left, if anything. *)
Lemma split_loop_exact (max : Z) :
  0 < max ->
  forall (fuel : nat) (runes : list Z) (res : list string),
    (length runes < fuel)%nat ->
    exists (full : list (list Z)) (rest : list Z),
      runes = concat full ++ rest
      /\ Forall (fun p => Z.of_nat (length p) = max) full
      /\ Z.of_nat (length rest) <= max
      /\ (runes <> [] -> rest <> [])
      /\ split_loop fuel runes max res
         = Returns (res ++ map string_of_runes full ++ last_piece rest).
Proof.
  intros Hmax. induction fuel as [| fuel IH]; intros runes res Hfuel;
    [lia |].
  cbn [split_loop].
  destruct (Z.of_nat (length runes) >? max) eqn:Hgt.
  - apply Z.gtb_lt in Hgt.
    rewrite (proj2 (Z.ltb_ge max 0)) by lia.
    destruct (IH (drop (Z.to_nat max) runes)
                 (res ++ [string_of_runes (take (Z.to_nat max) runes)]))
      as (full & rest & Hcat & Hfull & Hrest & Hne & Hrun).
    { rewrite length_drop. lia. }
    exists (take (Z.to_nat max) runes :: full), rest.
    split; [| split; [| split; [| split]]].
    + cbn [concat]. rewrite <- app_assoc, <- Hcat. symmetry.
      apply take_drop.
    + constructor; [| exact Hfull]. rewrite length_take. lia.
    + exact Hrest.
    + intros _. apply Hne. intros Hnil.
      apply (f_equal (@length Z)) in Hnil. rewrite length_drop in Hnil.
      cbn in Hnil. lia.
    + rewrite Hrun, <- app_assoc. reflexivity.
  - assert (Z.of_nat (length runes) <= max) as Hle.
    { destruct (Z.gtb_spec (Z.of_nat (length runes)) max);
        [discriminate | lia]. }
    exists [], runes. split; [reflexivity |]. split; [constructor |].
    split; [exact Hle |]. split; [tauto |].
    destruct runes as [| r runes];
      [cbn; rewrite app_nil_r; reflexivity |].
    rewrite gtb_true by (cbn [length]; lia). reflexivity.
Qed.

Lemma length_concat_full (full : list (list Z)) (max : Z) :
  Forall (fun p => Z.of_nat (length p) = max) full ->
  Z.of_nat (length (concat full)) = Z.of_nat (length full) * max.
Proof.
  induction 1 as [| p full Hp _ IH]; [reflexivity |].
  cbn [concat length]. rewrite length_app. lia.
Qed.

Lemma range_runes_nonempty (s : list Z) :
  s <> [] -> range_runes 0 s <> [].
Proof.
  destruct s as [| b s]; [congruence |]. intros _. cbn [range_runes].
  destruct (range_step (b :: s)). discriminate.
Qed.

Lemma runes_of_string_nonempty (s : string) :
  s <> "" -> runes_of_string s <> [].
Proof.
  intros Hne. apply range_runes_nonempty.
  destruct s; [congruence | discriminate].
Qed.

(** X15: for every Go string, valid UTF-8 or not, and every positive limit
    the chunker returns at least one piece, every piece has at most
    [limit] code points, and the pieces put together are the string itself
    when it has at most [limit] bytes and [string([]rune(s))] otherwise
    (the string with U+FFFD for each byte that is not UTF-8). *)
Theorem split_any_string (s : string) (limit : Z) :
  0 < limit ->
  exists pieces : list string,
    splitTelegramMessage s limit = Returns pieces
    /\ pieces <> []
    /\ Forall (fun p => RuneCountInString p <= limit) pieces
    /\ join pieces
       = if len s <=? limit then s
         else string_of_runes (runes_of_string s).
Proof.
  intros Hlimit. unfold splitTelegramMessage.
  destruct (len s <=? limit) eqn:Hbytes.
  - apply Z.leb_le in Hbytes. exists [s].
    split; [reflexivity |]. split; [discriminate |].
    split; [| apply append_nil_r].
    repeat constructor. pose proof (RuneCount_le_len s). lia.
  - apply Z.leb_gt in Hbytes.
    assert (s <> "") as Hne.
    { intros ->. unfold len in Hbytes. cbn in Hbytes. lia. }
    pose proof (runes_of_string_scalar s) as Hscalar.
    pose proof (runes_of_string_nonempty s Hne) as Hrunes.
    destruct (split_loop_exact limit Hlimit
                (S (length (runes_of_string s))) (runes_of_string s) [])
      as (full & rest & Hcat & Hfull & Hrest & Hlast & Hrun); [lia |].
    specialize (Hlast Hrunes). cbn [app] in Hrun.
    rewrite Hcat in Hscalar. apply Forall_app in Hscalar as [Hsf Hsr].
    apply Forall_concat in Hsf.
    exists (map string_of_runes full ++ last_piece rest).
    split; [exact Hrun |].
    destruct rest as [| r rest]; [congruence |]. cbn [last_piece].
    split; [intros H; apply app_eq_nil in H as [_ H]; discriminate |].
    split.
    + apply Forall_app. split.
      * apply Forall_map. apply Forall_forall. intros p Hp.
        unfold RuneCountInString.
        rewrite runes_of_string_of_runes
          by (eapply Forall_forall in Hsf; eauto).
        eapply Forall_forall in Hfull; [| exact Hp]. lia.
      * repeat constructor. unfold RuneCountInString.
        rewrite runes_of_string_of_runes by exact Hsr. exact Hrest.
    + rewrite join_app, join_string_of_runes. cbn [join fold_right].
      rewrite append_nil_r, <- string_of_runes_app, <- Hcat. reflexivity.
Qed.

Lemma split_any_string_witness :
  exists pieces : list string,
    splitTelegramMessage (string_of_bytes [0xC3; 0xA9; 0xFF; 104]) 2
    = Returns pieces
    /\ pieces <> []
    /\ Forall (fun p => RuneCountInString p <= 2) pieces
    /\ join pieces
       = string_of_runes (runes_of_string
                            (string_of_bytes [0xC3; 0xA9; 0xFF; 104])).
Proof.
  apply (split_any_string (string_of_bytes [0xC3; 0xA9; 0xFF; 104]) 2).
  lia.
Defined.

(** X16: a text that is not empty comes back in the smallest number of
    pieces its limit allows, [ceil(n / limit)] for [n] code points: every
    piece but the last has exactly [limit] code points and the last has
    between 1 and [limit]. *)
Theorem split_piece_count (text : list Z) (limit : Z) :
  Forall scalar text ->
  text <> [] ->
  0 < limit ->
  exists (full : list (list Z)) (last : list Z),
    splitTelegramMessage (string_of_runes text) limit
    = Returns (map string_of_runes (full ++ [last]))
    /\ text = concat full ++ last
    /\ Forall (fun p => Z.of_nat (length p) = limit) full
    /\ 1 <= Z.of_nat (length last) <= limit
    /\ Z.of_nat (length (full ++ [last]))
       = (Z.of_nat (length text) + limit - 1) / limit.
Proof.
  intros Hs Hne Hlimit.
  assert (forall (full : list (list Z)) (last : list Z),
            text = concat full ++ last ->
            Forall (fun p => Z.of_nat (length p) = limit) full ->
            1 <= Z.of_nat (length last) <= limit ->
            Z.of_nat (length (full ++ [last]))
            = (Z.of_nat (length text) + limit - 1) / limit) as Hcount.
  { intros full last Hcat Hfull Hlast.
    pose proof (length_concat_full full limit Hfull) as Hk.
    rewrite Hcat, !length_app, !Nat2Z.inj_add, Hk. cbn [length].
    apply Z.div_unique with (Z.of_nat (length last) - 1); lia. }
  unfold splitTelegramMessage.
  destruct (len (string_of_runes text) <=? limit) eqn:Hbytes.
  - apply Z.leb_le in Hbytes. unfold len in Hbytes.
    pose proof (length_string_of_runes text Hs) as Hlen.
    assert (1 <= Z.of_nat (length text) <= limit) as Hlast.
    { destruct text; [congruence | cbn [length] in *; lia]. }
    exists [], text. split; [reflexivity |]. split; [reflexivity |].
    split; [constructor |]. split; [exact Hlast |].
    apply Hcount; [reflexivity | constructor | exact Hlast].
  - rewrite runes_of_string_of_runes by exact Hs.
    destruct (split_loop_exact limit Hlimit (S (length text)) text [])
      as (full & rest & Hcat & Hfull & Hrest & Hlast & Hrun); [lia |].
    specialize (Hlast Hne). cbn [app] in Hrun.
    assert (1 <= Z.of_nat (length rest) <= limit) as Hsize.
    { destruct rest; [congruence | cbn [length] in *; lia]. }
    exists full, rest. split.
    { rewrite Hrun, map_app. destruct rest; [congruence | reflexivity]. }
    split; [exact Hcat |]. split; [exact Hfull |]. split; [exact Hsize |].
    apply Hcount; assumption.
Qed.

Lemma split_piece_count_witness :
  exists (full : list (list Z)) (last : list Z),
    splitTelegramMessage (string_of_runes [104; 233; 8364; 128512; 33]) 2
    = Returns (map string_of_runes (full ++ [last]))
    /\ [104; 233; 8364; 128512; 33] = concat full ++ last
    /\ Forall (fun p => Z.of_nat (length p) = 2) full
    /\ 1 <= Z.of_nat (length last) <= 2
    /\ Z.of_nat (length (full ++ [last])) = 3.
Proof.
  apply (split_piece_count [104; 233; 8364; 128512; 33] 2).
  - repeat constructor; unfold maxRune, surrogateMin, surrogateMax; lia.
  - discriminate.
  - lia.
Defined.

(** ** What a query goroutine delivers *)

Lemma split_4000_returns (answer : string) :
  exists pieces : list string,
    splitTelegramMessage answer 4000 = Returns pieces /\ pieces <> [].
Proof.
  unfold splitTelegramMessage.
  destruct (len answer <=? 4000) eqn:Hbytes.
  - exists [answer]. split; [reflexivity | discriminate].
  - apply Z.leb_gt in Hbytes.
    assert (answer <> "") as Hne.
    { intros ->. unfold len in Hbytes. cbn in Hbytes. lia. }
    destruct (split_loop_exact 4000 ltac:(lia)
                (S (length (runes_of_string answer)))
                (runes_of_string answer) [])
      as (full & rest & _ & _ & _ & Hlast & Hrun); [lia |].
    specialize (Hlast (runes_of_string_nonempty answer Hne)).
    eexists. split; [exact Hrun |].
    destruct rest; [congruence |]. cbn [app last_piece].
    intros H. apply app_eq_nil in H as [_ H]. discriminate.
Qed.

Lemma posts_app (e1 e2 : list task_event) :
  posts (e1 ++ e2) = posts e1 ++ posts e2.
Proof.
  induction e1 as [| [] e1 IH]; cbn; try exact IH; [reflexivity |].
  rewrite IH. reflexivity.
Qed.

Lemma sent_app (e1 e2 : list task_event) :
  sent (e1 ++ e2) = sent e1 ++ sent e2.
Proof.
  induction e1 as [| [] e1 IH]; cbn; try exact IH; [reflexivity |].
  rewrite IH. reflexivity.
Qed.

Lemma typing_quiet (chatID : Z) (beats : nat) :
  posts (repeat (Typing chatID) beats) = []
  /\ sent (repeat (Typing chatID) beats) = []
  /\ Forall (fun e => event_chat e = Some chatID)
       (repeat (Typing chatID) beats).
Proof.
  induction beats as [| n (IH1 & IH2 & IH3)];
    [repeat split; constructor |].
  cbn [repeat posts sent]. repeat split; try assumption.
  constructor; [reflexivity | exact IH3].
Qed.

Lemma chunks_events (chatID : Z) (pieces : list string) :
  posts (flat_map (fun chunk =>
                     [Sent (MessageConfig chatID chunk "Markdown" true);
                      Sleep 300]) pieces) = []
  /\ sent (flat_map (fun chunk =>
                       [Sent (MessageConfig chatID chunk "Markdown" true);
                        Sleep 300]) pieces)
     = map (fun chunk => MessageConfig chatID chunk "Markdown" true) pieces
  /\ Forall (fun e => forall c, event_chat e = Some c -> c = chatID)
       (flat_map (fun chunk =>
                    [Sent (MessageConfig chatID chunk "Markdown" true);
                     Sleep 300]) pieces).
Proof.
  induction pieces as [| p pieces (IH1 & IH2 & IH3)];
    [repeat split; constructor |].
  cbn [flat_map app posts sent map]. rewrite IH2.
  repeat split; try assumption.
  constructor; [intros c H; injection H as <-; reflexivity |].
  constructor; [discriminate | exact IH3].
Qed.

(** X17: a query goroutine posts exactly one request, to the bot's address,
    with the model and the prompt it was handed and the Markdown
    instruction after the prompt; everything it sends goes to the chat
    that asked; when the backend call fails it sends one message, the
    error text, and when it succeeds it always gets as far as sending:
    the pieces of the answer, in order and none left out, as Markdown
    without link previews. *)
Theorem runQuery_delivery (b : Bot) (task : QueryTask) (beats : nat)
    (reply : PostResult) :
  posts (runQuery b task beats reply)
  = [callOllama_request b (task_modelForCall task) (task_prompt task)]
  /\ (forall (e : task_event) (c : Z),
        In e (runQuery b task beats reply) ->
        event_chat e = Some c -> c = task_chatID task)
  /\ match callOllama_result reply with
     | (_, Some err) =>
       sent (runQuery b task beats reply)
       = [NewMessage (task_chatID task) (text_backend_error err)]
     | (answer, None) =>
       exists pieces : list string,
         splitTelegramMessage answer 4000 = Returns pieces
         /\ pieces <> []
         /\ sent (runQuery b task beats reply)
            = map (fun chunk =>
                     MessageConfig (task_chatID task) chunk "Markdown" true)
                  pieces
     end.
Proof.
  unfold runQuery.
  destruct (callOllama_request b (task_modelForCall task) (task_prompt task))
    as [url req] eqn:Hreq.
  destruct (typing_quiet (task_chatID task) beats) as (Hp & Hs & Hc).
  destruct (callOllama_result reply) as [answer [err |]].
  - split; [| split].
    + cbn [app posts]. rewrite posts_app, Hp. reflexivity.
    + intros e c [<- | Hin] Hchat; [discriminate |].
      apply in_app_or in Hin as [Hin | [<- | [<- | []]]].
      * rewrite Forall_forall in Hc.
        apply list_elem_of_In, Hc in Hin. congruence.
      * discriminate.
      * injection Hchat as <-. reflexivity.
    + cbn [app sent]. rewrite sent_app, Hs. reflexivity.
  - destruct (split_4000_returns answer) as (pieces & Hsplit & Hne).
    rewrite Hsplit.
    destruct (chunks_events (task_chatID task) pieces) as (Cp & Cs & Cc).
    split; [| split].
    + cbn [app posts]. rewrite !posts_app, Hp, Cp. reflexivity.
    + intros e c [<- | Hin] Hchat; [discriminate |].
      apply in_app_or in Hin as [Hin | Hin].
      * rewrite Forall_forall in Hc.
        apply list_elem_of_In, Hc in Hin. congruence.
      * rewrite Forall_forall in Cc.
        apply list_elem_of_In in Hin. exact (Cc e Hin c Hchat).
    + exists pieces. split; [reflexivity |]. split; [exact Hne |].
      cbn [app sent]. rewrite !sent_app, Hs, Cs. reflexivity.
Qed.

(** ** Start-up *)

(** X18: when [main] gets as far as running the bot, the token is set and
    the model is [OLLAMA_MODEL]; authorization is enabled exactly when
    [BOT_AUTH_ENABLED] is [1], [true] or [yes] up to case; if it is
    enabled, the admin is the integer [BOT_ADMIN_ID] spells, which is not
    zero, nobody else is admin, and the table is the one of the opened
    database; if it is not, everybody is allowed. *)
Theorem main_runs_with (getenv : Environ)
    (sqlite : string -> startup.open_result)
    (telegram : string -> auth.error) (b : Bot) :
  startup.main getenv sqlite telegram = inr b ->
  getenv "TELEGRAM_BOT_TOKEN" <> ""
  /\ model b = getenv "OLLAMA_MODEL"
  /\ auth.IsEnabled (userStore b)
     = (EqualFold (getenv "BOT_AUTH_ENABLED") "1"
        || EqualFold (getenv "BOT_AUTH_ENABLED") "true"
        || EqualFold (getenv "BOT_AUTH_ENABLED") "yes")
  /\ (auth.IsEnabled (userStore b) = true ->
      exists (id : Z) (path : string) (d : auth.DB),
        parseInt64 (getenv "BOT_ADMIN_ID") = Some id
        /\ id <> 0
        /\ (forall j : Z, auth.IsAdmin (userStore b) j = (j =? id))
        /\ sqlite path = startup.Opened d
        /\ auth.table (userStore b) = auth.users d)
  /\ (auth.IsEnabled (userStore b) = false ->
      forall j : Z, decide (userStore b) j = Allow).
Proof.
  unfold startup.main, startup.readAuthConfigFromEnv.
  destruct (String.eqb_spec (getenv "TELEGRAM_BOT_TOKEN") "") as [| Htoken];
    [discriminate |].
  set (flag := EqualFold (getenv "BOT_AUTH_ENABLED") "1"
               || EqualFold (getenv "BOT_AUTH_ENABLED") "true"
               || EqualFold (getenv "BOT_AUTH_ENABLED") "yes").
  destruct flag; cbn [negb].
  - destruct (String.eqb (getenv "BOT_ADMIN_ID") ""); [discriminate |].
    destruct (parseInt64 (getenv "BOT_ADMIN_ID")) as [id |] eqn:Hid;
      [| discriminate].
    unfold startup.NewUserStore. cbn [startup.Enabled startup.AdminID
      startup.DBPath negb].
    destruct (id =? 0) eqn:Hz; [discriminate |].
    set (path := if String.eqb (getenv "BOT_AUTH_DB_PATH") ""
                 then "/var/lib/ollamabot/bot_users.db"
                 else getenv "BOT_AUTH_DB_PATH").
    destruct (String.eqb path ""); [discriminate |].
    destruct (sqlite path) as [e | e | e | d] eqn:Hopen; try discriminate.
    destruct (telegram (getenv "TELEGRAM_BOT_TOKEN")); [discriminate |].
    intros H. injection H as <-. cbn.
    split; [exact Htoken |]. split; [reflexivity |]. split; [reflexivity |].
    split; [| discriminate].
    intros _. exists id, path, d. apply Z.eqb_neq in Hz.
    repeat split; try assumption; reflexivity.
  - unfold startup.NewUserStore. cbn [startup.Enabled negb].
    destruct (telegram (getenv "TELEGRAM_BOT_TOKEN")); [discriminate |].
    intros H. injection H as <-. cbn.
    split; [exact Htoken |]. split; [reflexivity |]. split; [reflexivity |].
    split; [discriminate | reflexivity].
Qed.

Lemma main_runs_with_witness :
  exists (id : Z) (path : string) (d : auth.DB),
    parseInt64 "100" = Some id
    /\ id <> 0
    /\ (forall j : Z,
          auth.IsAdmin
            (userStore
               (NewBot (example_store {[ 5 := ("c5", "l5") ]} [])
                  "http://ollama:11434" "llama3.1")) j
          = (j =? id))
    /\ startup.Opened (auth.mkDB {[ 5 := ("c5", "l5") ]} [])
       = startup.Opened d
    /\ auth.table
         (userStore
            (NewBot (example_store {[ 5 := ("c5", "l5") ]} [])
               "http://ollama:11434" "llama3.1"))
       = auth.users d.
Proof.
  apply (main_runs_with
           (fun name =>
              if String.eqb name "TELEGRAM_BOT_TOKEN" then "123:abc"
              else if String.eqb name "BOT_AUTH_ENABLED" then "True"
              else if String.eqb name "BOT_ADMIN_ID" then "100"
              else if String.eqb name "OLLAMA_MODEL" then "llama3.1"
              else "")
           (fun _ => startup.Opened (auth.mkDB {[ 5 := ("c5", "l5") ]} []))
           (fun _ => None)
           (NewBot (example_store {[ 5 := ("c5", "l5") ]} [])
              "http://ollama:11434" "llama3.1")).
  - reflexivity.
  - reflexivity.
Defined.

(** ** What the admin is told *)

Lemma length_rows_in_order (t : gmap Z (string * string)) :
  length (rows_in_order t) = size t.
Proof.
  unfold rows_in_order. rewrite sort_rows_perm, length_map.
  apply length_map_to_list.
Qed.

(** X19: the admin's [/listusers], when the query runs, is answered with
    one message and changes nothing in the table: the no-users text exactly
    when the table is empty, and otherwise the list of the first 200 rows
    in ascending order of [created_at]. *)
Theorem listusers_reply (b : Bot) (u : auth.UserStore) (now : string)
    (chatID userID : Z) (raw suffix : string) :
  userStore b = Some u ->
  auth.enabled u = true ->
  userID = auth.adminID u ->
  fst (auth.next_fault (auth.db u)) = None ->
  TrimSpace raw = "/listusers" +:+ suffix ->
  exists rows : list auth.DBUser,
    handleUpdate b now
      (mkUpdate (Some (mkMessage chatID (Some (mkUser userID)) raw)))
    = (set_store b
         (Some (auth.set_db u (snd (auth.next_fault (auth.db u))))),
       [Send (NewMessage chatID (text_user_list rows))])
    /\ rows = take 200 (rows_in_order (auth.users (auth.db u)))
    /\ length rows = Nat.min 200 (size (auth.users (auth.db u)))
    /\ (rows = [] <-> auth.users (auth.db u) = ∅)
    /\ Sorted created_le rows
    /\ auth.users (snd (auth.next_fault (auth.db u)))
       = auth.users (auth.db u).
Proof.
  intros Hs Hen Hadm Hfault Htext.
  exists (take 200 (rows_in_order (auth.users (auth.db u)))).
  assert (length (take 200 (rows_in_order (auth.users (auth.db u))))
          = Nat.min 200 (size (auth.users (auth.db u)))) as Hlen.
  { rewrite length_take, length_rows_in_order. reflexivity. }
  split; [| split; [reflexivity | split; [exact Hlen | split; [| split]]]].
  - unfold handleUpdate. cbn [Update_Message From Chat_ID User_ID Text].
    rewrite Htext, Hs. cbn [auth.IsEnabled auth.IsAdmin].
    rewrite Hen, Hadm, Z.eqb_refl.
    change (String.eqb ("/listusers" +:+ suffix) "") with false.
    change (HasPrefix ("/listusers" +:+ suffix) "/adduser") with false.
    change (HasPrefix ("/listusers" +:+ suffix) "/listusers") with true.
    cbn [andb]. unfold handleListUsers. rewrite Hs.
    unfold auth.ListUsers, auth.select_all. rewrite Hen. cbn [negb].
    pose proof (next_fault_users (auth.db u)) as Hsame.
    destruct (auth.next_fault (auth.db u)) as [f d].
    cbn [fst snd] in Hfault, Hsame |- *. subst f. rewrite Hsame.
    change (Z.to_nat (if 200 <=? 0 then 100 else 200)) with 200%nat.
    fold (rows_in_order (auth.users (auth.db u))).
    destruct (take 200 (rows_in_order (auth.users (auth.db u))));
      reflexivity.
  - split.
    + intros Hnil. rewrite Hnil in Hlen. cbn [length] in Hlen.
      apply map_size_empty_iff. lia.
    + intros Hempty. apply length_zero_iff_nil. rewrite Hlen, Hempty.
      rewrite map_size_empty. reflexivity.
  - apply Sorted_take, sort_rows_sorted.
  - apply next_fault_users.
Qed.

Lemma listusers_reply_witness :
  exists rows : list auth.DBUser,
    handleUpdate (mkBot (example_store ∅ []) "http://x" "m") "t1"
      (mkUpdate (Some (mkMessage 7 (Some (mkUser 100)) "/listusers")))
    = (mkBot (example_store ∅ []) "http://x" "m",
       [Send (NewMessage 7 (text_user_list rows))])
    /\ rows = [].
Proof.
  destruct (listusers_reply
              (mkBot (example_store ∅ []) "http://x" "m")
              (auth.mkUserStore true 100 (auth.mkDB ∅ []))
              "t1" 7 100 "/listusers" ""
              eq_refl eq_refl eq_refl eq_refl eq_refl)
    as (rows & Hrun & _ & _ & Hempty & _).
  exists rows. split; [exact Hrun | apply Hempty; reflexivity].
Defined.

(** ** What [/whoami] tells *)

(** X20: with authorization enabled, every sender, allowed or not, gets one
    reply to [/whoami] whose last line is the outcome of the gate for that
    sender ([YES] for [Allow], [NO] for [Deny], the store's error for
    [Error]) and whose role line says whether the sender is the admin;
    nothing is dispatched, the model stays, and no row is written, not
    even the sender's [last_activity]. *)
Theorem whoami_reply (b : Bot) (now : string) (chatID userID : Z)
    (raw suffix : string) :
  auth.IsEnabled (userStore b) = true ->
  TrimSpace raw = "/whoami" +:+ suffix ->
  exists (b' : Bot) (verdict : string),
    handleUpdate b now
      (mkUpdate (Some (mkMessage chatID (Some (mkUser userID)) raw)))
    = (b', [Send (NewMessage chatID
                    (text_whoami userID (auth.IsAdmin (userStore b) userID)
                       verdict))])
    /\ match decide (userStore b) userID with
       | Allow => verdict = "- Allowed: YES"
       | Deny => verdict = "- Allowed: NO"
       | Error => exists e : string,
                    snd (fst (auth.IsAuthorized (userStore b) userID))
                    = Some e
                    /\ verdict = "- Allowed: ERROR (" +:+ e +:+ ")"
       end
    /\ auth.table (userStore b') = auth.table (userStore b)
    /\ model b' = model b.
Proof.
  intros Hen Htext.
  unfold handleUpdate. cbn [Update_Message From Chat_ID User_ID Text].
  rewrite Htext.
  change (String.eqb ("/whoami" +:+ suffix) "") with false.
  change (HasPrefix ("/whoami" +:+ suffix) "/adduser") with false.
  change (HasPrefix ("/whoami" +:+ suffix) "/listusers") with false.
  change (HasPrefix ("/whoami" +:+ suffix) "/whoami") with true.
  rewrite !andb_false_r. cbn [andb].
  unfold handleWhoAmI, decide. rewrite Hen.
  pose proof (IsAuthorized_table (userStore b) userID) as Htable.
  destruct (auth.IsAuthorized (userStore b) userID)
    as [[allowed [e |]] s]; cbn [fst snd] in *.
  - exists (set_store b s), ("- Allowed: ERROR (" +:+ e +:+ ")").
    split; [| split; [| split; [exact Htable | reflexivity]]].
    + unfold text_whoami. rewrite !append_assoc. reflexivity.
    + destruct allowed; exists e; split; reflexivity.
  - destruct allowed.
    + exists (set_store b s), "- Allowed: YES".
      split; [| split; [reflexivity | split; [exact Htable | reflexivity]]].
      unfold text_whoami.
      destruct (auth.IsAdmin (userStore b) userID);
        rewrite !append_assoc; reflexivity.
    + exists (set_store b s), "- Allowed: NO".
      split; [| split; [reflexivity | split; [exact Htable | reflexivity]]].
      unfold text_whoami.
      destruct (auth.IsAdmin (userStore b) userID);
        rewrite !append_assoc; reflexivity.
Qed.

Lemma whoami_reply_witness :
  exists (b' : Bot) (verdict : string),
    handleUpdate (mkBot (example_store ∅ []) "http://x" "m") "t1"
      (mkUpdate (Some (mkMessage 7 (Some (mkUser 5)) "/whoami")))
    = (b', [Send (NewMessage 7 (text_whoami 5 false verdict))])
    /\ verdict = "- Allowed: NO".
Proof.
  destruct (whoami_reply (mkBot (example_store ∅ []) "http://x" "m") "t1"
              7 5 "/whoami" "" eq_refl eq_refl)
    as (b' & verdict & Hrun & Hverdict & _).
  exists b', verdict. split; [exact Hrun | exact Hverdict].
Defined.

(** ** Every turn answers, and answers the chat that wrote *)

Ltac answers_here :=
  unfold answers; cbn;
  split; [eexists; eauto |];
  split; [repeat (apply List.Forall_cons;
                  [cbv [effect_chat chat_of NewMessage NewChatAction
                        task_chatID];
                   intros ? ?; congruence |]);
          apply List.Forall_nil
         | lia].

Lemma handleAddUser_answers (b : Bot) (now : string) (chatID : Z)
    (text : string) :
  answers chatID (snd (handleAddUser b now chatID text)).
Proof.
  unfold handleAddUser.
  destruct (Fields text) as [| cmd [| arg rest]]; [answers_here .. |].
  destruct (parseInt64 arg) as [toAdd |]; [| answers_here].
  destruct (auth.AddUser (userStore b) now toAdd) as [[err |] s];
    answers_here.
Qed.

Lemma handleListUsers_answers (b : Bot) (chatID : Z) :
  answers chatID (snd (handleListUsers b chatID)).
Proof.
  unfold handleListUsers.
  destruct (auth.ListUsers (userStore b) 200) as [[[| row rows] [err |]] s];
    answers_here.
Qed.

Lemma handleWhoAmI_answers (b : Bot) (chatID userID : Z) :
  answers chatID (snd (handleWhoAmI b chatID userID)).
Proof.
  unfold handleWhoAmI.
  destruct (auth.IsEnabled (userStore b)); [| answers_here].
  destruct (auth.IsAuthorized (userStore b) userID) as [[allowed err] s].
  answers_here.
Qed.

Lemma dispatch_answers (b : Bot) (chatID : Z) (text : string) :
  answers chatID (snd (dispatch b chatID text)).
Proof.
  unfold dispatch, handleModelCommand.
  destruct (HasPrefix text "/start"); [answers_here |].
  destruct (HasPrefix text "/model"); [| answers_here].
  destruct (Fields text) as [| cmd [| arg rest]]; answers_here.
Qed.

(** The authorization check either stops the turn with an answer or goes
    on having written to the log at most. *)
Lemma authorize_answers (b : Bot) (now : string) (chatID userID : Z) :
  match authorize b now chatID userID with
  | inl (_, effects) => answers chatID effects
  | inr (_, logged) => Forall (fun e => effect_chat e = None) logged
  end.
Proof.
  unfold authorize.
  destruct (auth.IsEnabled (userStore b)); [| constructor].
  destruct (auth.IsAuthorized (userStore b) userID)
    as [[[|] [err |]] s]; try answers_here.
  destruct (auth.Touch s now userID) as [[err |] s'];
    repeat constructor.
Qed.

Lemma answers_after_log (chatID : Z) (logged effects : list effect) :
  Forall (fun e => effect_chat e = None) logged ->
  answers chatID effects ->
  answers chatID (logged ++ effects).
Proof.
  intros Hlog ((c & Hc) & Hall & Hone). unfold answers.
  split; [exists c; apply in_or_app; right; exact Hc |].
  split.
  - apply Forall_app. split; [| exact Hall].
    eapply List.Forall_impl; [| exact Hlog].
    intros e He c' Hc'. cbn beta in He. congruence.
  - rewrite spawned_app, length_app.
    assert (spawned logged = []) as ->; [| exact Hone].
    clear -Hlog. induction Hlog as [| e l He _ IH]; [reflexivity |].
    destruct e as [c | line | task]; [discriminate | exact IH | discriminate].
Qed.

(** X21: a turn of the loop does nothing at all exactly for an update
    without a message, without a sender or with a blank text; every other
    update is answered: something is sent, everything that is sent and the
    goroutine that is started are for the chat the message came from, and
    at most one goroutine is started. *)
Theorem turn_answers_asking_chat (b : Bot) (now : string) (u : Update) :
  (snd (handleUpdate b now u) = []
   <-> forall (m : Message) (from : User),
         Update_Message u = Some m -> From m = Some from ->
         TrimSpace (Text m) = "")
  /\ (snd (handleUpdate b now u) = [] -> fst (handleUpdate b now u) = b)
  /\ (snd (handleUpdate b now u) <> [] ->
      exists m : Message,
        Update_Message u = Some m
        /\ answers (Chat_ID m) (snd (handleUpdate b now u))).
Proof.
  assert (forall chatID effects, answers chatID effects -> effects <> [])
    as Hne.
  { intros chatID effects ((c & Hc) & _) ->. exact Hc. }
  unfold handleUpdate.
  destruct (Update_Message u) as [m |].
  2:{ split; [split; [intros _ m from Hm; discriminate Hm
                     | intros _; reflexivity] |].
      split; [intros _; reflexivity | intros H; contradiction]. }
  destruct (From m) as [from |] eqn:Hfrom.
  2:{ split; [split; [intros _ m' from' Hm Hf; congruence
                     | intros _; reflexivity] |].
      split; [intros _; reflexivity | intros H; contradiction]. }
  destruct (String.eqb_spec (TrimSpace (Text m)) "") as [Hblank | Htext].
  { split; [split; [intros _ m' from' Hm _; congruence
                   | intros _; reflexivity] |].
    split; [intros _; reflexivity | intros H; contradiction]. }
  assert (answers (Chat_ID m)
            (snd (if auth.IsEnabled (userStore b)
                     && auth.IsAdmin (userStore b) (User_ID from)
                     && HasPrefix (TrimSpace (Text m)) "/adduser"
                  then handleAddUser b now (Chat_ID m) (TrimSpace (Text m))
                  else if auth.IsEnabled (userStore b)
                          && auth.IsAdmin (userStore b) (User_ID from)
                          && HasPrefix (TrimSpace (Text m)) "/listusers"
                  then handleListUsers b (Chat_ID m)
                  else if HasPrefix (TrimSpace (Text m)) "/whoami"
                  then handleWhoAmI b (Chat_ID m) (User_ID from)
                  else match authorize b now (Chat_ID m) (User_ID from) with
                       | inl stop => stop
                       | inr (b1, logged) =>
                         let '(b2, effects) :=
                           dispatch b1 (Chat_ID m) (TrimSpace (Text m)) in
                         (b2, logged ++ effects)
                       end))) as Hans.
  { destruct (_ && HasPrefix _ "/adduser"); [apply handleAddUser_answers |].
    destruct (_ && HasPrefix _ "/listusers");
      [apply handleListUsers_answers |].
    destruct (HasPrefix _ "/whoami"); [apply handleWhoAmI_answers |].
    pose proof (authorize_answers b now (Chat_ID m) (User_ID from)) as Ha.
    destruct (authorize b now (Chat_ID m) (User_ID from))
      as [[b1 stop] | [b1 logged]]; [exact Ha |].
    pose proof (dispatch_answers b1 (Chat_ID m) (TrimSpace (Text m))) as Hd.
    destruct (dispatch b1 (Chat_ID m) (TrimSpace (Text m))) as [b2 effects].
    apply answers_after_log; assumption. }
  split; [split |].
  - intros Hnil. exfalso. exact (Hne _ _ Hans Hnil).
  - intros Hall. exfalso. exact (Htext (Hall m from eq_refl Hfrom)).
  - split; [intros Hnil; exfalso; exact (Hne _ _ Hans Hnil) |].
    intros _. exists m. split; [reflexivity | exact Hans].
Qed.

(** ** The model changes by [/model] only *)

Lemma IsAuthorized_open (s : option auth.UserStore) (id : Z) :
  auth.IsEnabled s = false -> auth.IsAuthorized s id = ((true, None), s).
Proof.
  destruct s as [u |]; [| reflexivity]. cbn. intros ->. reflexivity.
Qed.

(** X22: a turn changes the active model only for a message that starts
    with [/model], is not taken by [/whoami] or [/start] before, has an
    argument, and comes from a sender the gate lets through; the model is
    then that argument, and the turn starts no query. *)
Theorem model_changes_by_model_command (b : Bot) (now : string)
    (u : Update) :
  model (fst (handleUpdate b now u)) <> model b ->
  exists (m : Message) (from : User) (cmd arg : string)
         (more : list string),
    Update_Message u = Some m /\ From m = Some from
    /\ HasPrefix (TrimSpace (Text m)) "/model" = true
    /\ HasPrefix (TrimSpace (Text m)) "/start" = false
    /\ HasPrefix (TrimSpace (Text m)) "/whoami" = false
    /\ Fields (TrimSpace (Text m)) = cmd :: arg :: more
    /\ model (fst (handleUpdate b now u)) = arg
    /\ decide (userStore b) (User_ID from) = Allow
    /\ spawned (snd (handleUpdate b now u)) = [].
Proof.
  unfold handleUpdate.
  destruct (Update_Message u) as [m |]; [| intros H; contradiction].
  destruct (From m) as [from |] eqn:Hfrom; [| intros H; contradiction].
  destruct (String.eqb (TrimSpace (Text m)) ""); [intros H; contradiction |].
  destruct (_ && HasPrefix _ "/adduser").
  { intros H. exfalso. apply H. apply handleAddUser_quiet. }
  destruct (_ && HasPrefix _ "/listusers").
  { intros H. exfalso. apply H. apply handleListUsers_quiet. }
  destruct (HasPrefix _ "/whoami") eqn:Hwho.
  { intros H. exfalso. apply H. apply handleWhoAmI_quiet. }
  assert (match authorize b now (Chat_ID m) (User_ID from) with
          | inl (b1, _) => model b1 = model b
          | inr (b1, logged) =>
            model b1 = model b /\ spawned logged = []
            /\ decide (userStore b) (User_ID from) = Allow
          end) as Hauth.
  { unfold authorize, decide.
    destruct (auth.IsEnabled (userStore b)) eqn:Hen.
    - destruct (auth.IsAuthorized (userStore b) (User_ID from))
        as [[[|] [err |]] s]; try reflexivity.
      destruct (auth.Touch s now (User_ID from)) as [[err |] s'];
        repeat split; reflexivity.
    - rewrite (IsAuthorized_open _ _ Hen). repeat split; reflexivity. }
  destruct (authorize b now (Chat_ID m) (User_ID from))
    as [[b1 stop] | [b1 logged]]; [intros H; contradiction |].
  destruct Hauth as (Hmodel & Hquiet & Hallow).
  unfold dispatch, handleModelCommand.
  destruct (HasPrefix _ "/start") eqn:Hstart;
    [intros H; cbn in H; congruence |].
  destruct (HasPrefix _ "/model") eqn:Hm;
    [| intros H; cbn in H; congruence].
  destruct (Fields (TrimSpace (Text m))) as [| cmd [| arg more]] eqn:Hf;
    [intros H; cbn in H; congruence .. |].
  intros _. exists m, from, cmd, arg, more.
  repeat (split; [reflexivity || assumption |]).
  cbn [snd]. rewrite spawned_app, Hquiet. reflexivity.
Qed.

Lemma model_changes_by_model_command_witness :
  model (fst (handleUpdate example_bot "t1"
                (example_update 1 "/model mistral"))) <> model example_bot
  /\ exists (m : Message) (from : User) (cmd arg : string)
            (more : list string),
       Update_Message (example_update 1 "/model mistral") = Some m
       /\ From m = Some from
       /\ Fields (TrimSpace (Text m)) = cmd :: arg :: more
       /\ arg = "mistral"
       /\ decide (userStore example_bot) (User_ID from) = Allow.
Proof.
  assert (model (fst (handleUpdate example_bot "t1"
                        (example_update 1 "/model mistral")))
          <> model example_bot) as Hne.
  { vm_compute. discriminate. }
  split; [exact Hne |].
  destruct (model_changes_by_model_command example_bot "t1"
              (example_update 1 "/model mistral") Hne)
    as (m & from & cmd & arg & more & Hm & Hfrom & _ & _ & _ & Hf & Harg
        & Hallow & _).
  exists m, from, cmd, arg, more.
  repeat (split; [assumption |]).
  split; [| exact Hallow]. rewrite <- Harg. vm_compute. reflexivity.
Defined.

(** ** A failed [Touch] *)

Lemma Touch_failed (s : option auth.UserStore) (now e : string) (id : Z) :
  fst (auth.Touch s now id) = Some e ->
  auth.IsEnabled s = true /\ auth.IsAdmin s id = false
  /\ auth.table (snd (auth.Touch s now id)) = auth.table s.
Proof.
  destruct s as [u |]; [| discriminate].
  unfold auth.Touch, auth.IsEnabled, auth.IsAdmin.
  destruct (auth.enabled u); cbn [negb andb]; [| discriminate].
  destruct (id =? auth.adminID u); [discriminate |].
  pose proof (update_activity_users (auth.db u) now id) as Hu.
  destruct (auth.update_activity (auth.db u) now id) as [[e' |] d];
    cbn [fst snd] in *; [| discriminate].
  intros _. repeat split; try reflexivity. exact Hu.
Qed.

(** X23: the write of [last_activity] is best effort: when the gate lets a
    sender through and the write then fails, the failure goes to the log
    and to nobody else, the table stays as it is, and the message is
    handled as it would have been, greeting, model command or query. *)
Theorem touch_failure_only_logged (b : Bot) (now : string)
    (chatID userID : Z) (raw e : string) :
  decide (userStore b) userID = Allow ->
  fst (auth.Touch (snd (auth.IsAuthorized (userStore b) userID)) now userID)
  = Some e ->
  TrimSpace raw <> "" ->
  HasPrefix (TrimSpace raw) "/whoami" = false ->
  exists (b1 b2 : Bot) (effects : list effect),
    dispatch b1 chatID (TrimSpace raw) = (b2, effects)
    /\ model b1 = model b
    /\ ollamaBaseURL b1 = ollamaBaseURL b
    /\ handleUpdate b now
         (mkUpdate (Some (mkMessage chatID (Some (mkUser userID)) raw)))
       = (b2, Log ("failed to update last_activity for "
                   +:+ FormatInt userID +:+ ": " +:+ e) :: effects)
    /\ auth.table (userStore b2) = auth.table (userStore b).
Proof.
  intros Hallow Htouch Htext Hwho.
  destruct (Touch_failed _ _ _ _ Htouch) as (Hen' & Hadm' & Htable).
  destruct (settings_IsEnabled _ _
              (IsAuthorized_settings (userStore b) userID)) as [Hen Hadm].
  rewrite Hen in Hen'. rewrite Hadm in Hadm'.
  rewrite IsAuthorized_table in Htable.
  unfold handleUpdate.
  cbn [Update_Message From Chat_ID User_ID Text].
  destruct (String.eqb_spec (TrimSpace raw) "") as [Hblank | _];
    [contradiction |].
  rewrite Hen', Hadm', Hwho. cbn [andb].
  unfold authorize. rewrite Hen'. unfold decide in Hallow.
  destruct (auth.IsAuthorized (userStore b) userID)
    as [[[|] [err |]] s]; try discriminate Hallow.
  cbn [snd] in Htouch, Htable.
  destruct (auth.Touch s now userID) as [[err |] s'];
    cbn [fst snd] in Htouch, Htable; [| discriminate].
  injection Htouch as ->.
  pose proof (dispatch_store (set_store b s') chatID (TrimSpace raw)) as Hd.
  destruct (dispatch (set_store b s') chatID (TrimSpace raw))
    as [b2 effects] eqn:Hdis.
  exists (set_store b s'), b2, effects.
  split; [exact Hdis |]. split; [reflexivity |]. split; [reflexivity |].
  split; [reflexivity |].
  cbn [fst] in Hd. rewrite Hd. exact Htable.
Qed.

Lemma touch_failure_only_logged_witness :
  exists (b2 : Bot) (effects : list effect),
    handleUpdate (mkBot (example_store {[ 5 := ("c", "l") ]}
                           [None; Some "database is locked"])
                    "http://x" "m") "t1" (example_update 5 "hello")
    = (b2, Log "failed to update last_activity for 5: database is locked"
           :: effects)
    /\ auth.table (userStore b2) = {[ 5 := ("c", "l") ]}.
Proof.
  assert (TrimSpace "hello" <> "") as Htext.
  { vm_compute. discriminate. }
  assert (decide (example_store {[ 5 := ("c", "l") ]}
                    [None; Some "database is locked"]) 5 = Allow) as Hallow.
  { vm_compute. reflexivity. }
  assert (fst (auth.Touch
                 (snd (auth.IsAuthorized
                         (example_store {[ 5 := ("c", "l") ]}
                            [None; Some "database is locked"]) 5))
                 "t1" 5)
          = Some "database is locked") as Htouch.
  { vm_compute. reflexivity. }
  destruct (touch_failure_only_logged
              (mkBot (example_store {[ 5 := ("c", "l") ]}
                        [None; Some "database is locked"])
                 "http://x" "m") "t1" 7 5 "hello" "database is locked"
              Hallow Htouch Htext eq_refl)
    as (b1 & b2 & effects & _ & _ & _ & Hrun & Htable).
  exists b2, effects. split; [exact Hrun | exact Htable].
Defined.

(** ** Where a query comes from and where its answer goes *)

(** The goroutine a turn starts carries the chat and the trimmed text of
    the message of that turn, which is not blank and not taken by a
    command, and whose sender the gate let through. *)
Lemma handleUpdate_spawned (b : Bot) (now : string) (u : Update)
    (task : QueryTask) :
  In task (spawned (snd (handleUpdate b now u))) ->
  exists (m : Message) (from : User),
    Update_Message u = Some m /\ From m = Some from
    /\ task = mkQueryTask (Chat_ID m) (TrimSpace (Text m)) (model b)
    /\ TrimSpace (Text m) <> ""
    /\ HasPrefix (TrimSpace (Text m)) "/whoami" = false
    /\ HasPrefix (TrimSpace (Text m)) "/start" = false
    /\ HasPrefix (TrimSpace (Text m)) "/model" = false
    /\ decide (userStore b) (User_ID from) = Allow.
Proof.
  unfold handleUpdate.
  destruct (Update_Message u) as [m |]; [| intros []].
  destruct (From m) as [from |] eqn:Hfrom; [| intros []].
  destruct (String.eqb_spec (TrimSpace (Text m)) "") as [| Htext];
    [intros [] |].
  destruct (_ && HasPrefix _ "/adduser").
  { rewrite (proj2 (handleAddUser_quiet _ _ _ _)). intros []. }
  destruct (_ && HasPrefix _ "/listusers").
  { rewrite (proj2 (handleListUsers_quiet _ _)). intros []. }
  destruct (HasPrefix _ "/whoami") eqn:Hwho.
  { rewrite (proj2 (handleWhoAmI_quiet _ _ _)). intros []. }
  assert (match authorize b now (Chat_ID m) (User_ID from) with
          | inl (_, stop) => spawned stop = []
          | inr (b1, logged) =>
            model b1 = model b /\ spawned logged = []
            /\ decide (userStore b) (User_ID from) = Allow
          end) as Hauth.
  { unfold authorize, decide.
    destruct (auth.IsEnabled (userStore b)) eqn:Hen.
    - destruct (auth.IsAuthorized (userStore b) (User_ID from))
        as [[[|] [err |]] s]; try reflexivity.
      destruct (auth.Touch s now (User_ID from)) as [[err |] s'];
        repeat split; reflexivity.
    - rewrite (IsAuthorized_open _ _ Hen). repeat split; reflexivity. }
  destruct (authorize b now (Chat_ID m) (User_ID from))
    as [[b1 stop] | [b1 logged]]; [cbn [snd]; rewrite Hauth; intros [] |].
  destruct Hauth as (Hmodel & Hquiet & Hallow).
  unfold dispatch.
  destruct (HasPrefix _ "/start") eqn:Hstart.
  { cbn [snd]. rewrite spawned_app, Hquiet. intros []. }
  destruct (HasPrefix _ "/model") eqn:Hm.
  { pose proof (handleModelCommand_quiet b1 (Chat_ID m) (TrimSpace (Text m)))
      as Hq.
    destruct (handleModelCommand b1 (Chat_ID m) (TrimSpace (Text m)))
      as [b2 effects].
    cbn [snd] in *. rewrite spawned_app, Hquiet, Hq. intros []. }
  cbn [snd]. rewrite spawned_app, Hquiet. cbn.
  intros [<- | []]. exists m, from. rewrite Hmodel.
  repeat (split; [reflexivity || assumption |]). exact Hallow.
Qed.

(** The effects a trace records for a turn are the ones [handleUpdate]
    gives for the bot and the update of that turn. *)
Lemma exec_turns (s0 s : System) (trace : list step_label) :
  exec s0 trace s ->
  forall (before : Bot) (now : string) (u : Update) (effects : list effect),
    In (LoopTurn before now u effects) trace ->
    effects = snd (handleUpdate before now u).
Proof.
  induction 1 as [s | s s1 s2 trace l Hexec IH Hstep];
    intros before now u effects Hin; [contradiction |].
  apply in_app_or in Hin as [Hin | [Hl | []]]; [exact (IH _ _ _ _ Hin) |].
  subst l. inversion Hstep as [b b' pending now' u' effects' Hrun |]; subst.
  rewrite Hrun. reflexivity.
Qed.

Lemma runQuery_event_chat (b : Bot) (task : QueryTask) (beats : nat)
    (reply : PostResult) (e : task_event) (c : Z) :
  In e (runQuery b task beats reply) -> event_chat e = Some c ->
  c = task_chatID task.
Proof.
  assert (forall e : task_event,
            In e (Post (ollamaBaseURL b +:+ "/api/chat")
                    (snd (callOllama_request b (task_modelForCall task)
                            (task_prompt task)))
                  :: repeat (Typing (task_chatID task)) beats) ->
            event_chat e = Some c -> c = task_chatID task) as Hcalled.
  { intros e' [<- | Hin]; [discriminate |].
    apply repeat_spec in Hin as ->. cbn. congruence. }
  unfold runQuery. cbn [callOllama_request].
  destruct (callOllama_result reply) as [answer [err |]].
  - intros Hin. apply in_app_or in Hin as [Hin | Hin];
      [exact (Hcalled e Hin) |].
    destruct Hin as [<- | [<- | []]]; [discriminate |].
    cbn. congruence.
  - destruct (splitTelegramMessage answer 4000) as [pieces | |];
      try exact (Hcalled e).
    intros Hin. apply in_app_or in Hin as [Hin | Hin];
      [exact (Hcalled e Hin) |].
    destruct (chunks_events (task_chatID task) pieces) as (_ & _ & Hall).
    rewrite List.Forall_forall in Hall. exact (Hall e Hin c).
Qed.

(** X24: in every run of the loop together with its goroutines, each backend
    call goes back to a turn of the loop before it: a message whose sender
    the gate let through at that turn, whose trimmed text is not blank,
    does not start with [/whoami], [/start] or [/model], and is the prompt
    of the call; and whatever the goroutine sends goes to the chat of that
    message. *)
Theorem queries_come_from_allowed_messages (b0 : Bot)
    (trace : list step_label) (s : System) :
  exec (mkSystem b0 []) trace s ->
  forall (earlier later : list step_label) (at_call : Bot)
         (task : QueryTask) (events : list task_event),
    trace = earlier ++ TaskRun at_call task events :: later ->
    exists (before : Bot) (now : string) (u : Update)
           (effects : list effect) (m : Message) (from : User),
      In (LoopTurn before now u effects) earlier
      /\ Update_Message u = Some m /\ From m = Some from
      /\ decide (userStore before) (User_ID from) = Allow
      /\ task_prompt task = TrimSpace (Text m)
      /\ task_prompt task <> ""
      /\ HasPrefix (task_prompt task) "/whoami" = false
      /\ HasPrefix (task_prompt task) "/start" = false
      /\ HasPrefix (task_prompt task) "/model" = false
      /\ forall (e : task_event) (c : Z),
           In e events -> event_chat e = Some c -> c = Chat_ID m.
Proof.
  remember (mkSystem b0 []) as s0 eqn:Hs0.
  induction 1 as [s | s s1 s2 trace l Hexec IH Hstep];
    intros earlier later at_call task events Htrace.
  - destruct earlier; discriminate.
  - destruct later as [| l' later _] using rev_ind.
    + apply app_inj_tail in Htrace as [-> ->].
      inversion Hstep as [| b before after t beats reply Hs1 Hl Hs2];
        subst.
      destruct (pending_dispatched b0 earlier _ Hexec task)
        as (bot & now & u & effs & Hturn & Hspawn & _).
      { cbn. apply in_or_app. right. left. reflexivity. }
      rewrite (exec_turns _ _ _ Hexec _ _ _ _ Hturn) in Hspawn.
      destruct (handleUpdate_spawned bot now u task Hspawn)
        as (m & from & Hm & Hfrom & -> & Htext & Hwho & Hstart & Hmodel
            & Hallow).
      exists bot, now, u, effs, m, from. cbn [task_prompt].
      repeat (split; [reflexivity || assumption |]).
      intros e c Hin Hc.
      exact (runQuery_event_chat _ _ _ _ e c Hin Hc).
    + rewrite app_comm_cons, app_assoc in Htrace.
      apply app_inj_tail in Htrace as [-> _].
      exact (IH Hs0 earlier later at_call task events eq_refl).
Qed.

Lemma queries_come_from_allowed_messages_witness :
  exists (before : Bot) (now : string) (u : Update) (m : Message),
    Update_Message u = Some m
    /\ task_prompt example_task = TrimSpace (Text m)
    /\ forall (e : task_event) (c : Z),
         In e (runQuery (set_model example_bot "mistral") example_task 1
                 example_reply) ->
         event_chat e = Some c -> c = Chat_ID m.
Proof.
  destruct (queries_come_from_allowed_messages example_bot _ _ example_exec
              [_; _] [] (set_model example_bot "mistral") example_task _
              eq_refl)
    as (before & now & u & effects & m & from & _ & Hm & _ & _ & Hprompt
        & _ & _ & _ & _ & Hchat).
  exists before, now, u, m.
  split; [exact Hm |]. split; [exact Hprompt | exact Hchat].
Defined.
